(** * Whiteboard-to-prototype server: a shallow embedding of [server.js]

    Part I is the model, in the order of the source file: JavaScript
    strings and the clean-up of the model's response, JSON values, the file
    system and the effects of an [async] function, the history store, the
    cost calculator, the prototype builder, the [/upload] and [/history]
    routes and the start-up.  A JavaScript number is an IEEE 754 binary64
    value ([SpecFloat]); what the server does not decide (the clock, the
    identifier generator, the image library, the model service, faults of
    the disk) comes from an [environment].  Of the logging only what the
    evaluation of its arguments can throw is kept; the static routes and
    the health check, which read no state of the server, are left out.
    Part II holds the properties. *)

From Stdlib Require Import ZArith NArith List Bool Lia String Ascii.
From Stdlib Require Import Floats.SpecFloat.
From Equations.Prop Require Import Equations Logic.
From stdpp Require Import base option list gmap.

Set Default Proof Using "Type".
Open Scope N_scope.

#[global] Arguments N.eqb : simpl never.
#[global] Arguments N.leb : simpl never.

(** * Part I: the model *)

(** ** JavaScript strings

    A JavaScript string is a sequence of UTF-16 code units. *)

Module JsString.

Definition t := list N.

(** An ASCII literal of the source, as code units. *)
Definition lit (s : string) : t :=
  map N_of_ascii (list_ascii_of_string s).

Definition BACKTICK : N := 96.
Definition LF : N := 10.

(** [s.startsWith(p)] *)
Fixpoint startsWith (p s : t) : bool :=
  match p, s with
  | [], _ => true
  | _ :: _, [] => false
  | a :: p', b :: s' => N.eqb a b && startsWith p' s'
  end.

(** [s.includes(p)] *)
Fixpoint includes (p s : t) : bool :=
  startsWith p s ||
  match s with
  | [] => false
  | _ :: s' => includes p s'
  end.

(** The text left after a literal prefix [p], when [s] starts with it. *)
Fixpoint strip_prefix (p s : t) : option t :=
  match p, s with
  | [], _ => Some s
  | _ :: _, [] => None
  | a :: p', b :: s' => if N.eqb a b then strip_prefix p' s' else None
  end.

(** ECMAScript WhiteSpace and LineTerminator code points, the characters
    removed by [String.prototype.trim]. *)
Definition is_space (c : N) : bool :=
  (c =? 9) || (c =? 10) || (c =? 11) || (c =? 12) || (c =? 13) ||
  (c =? 32) || (c =? 160) || (c =? 5760) ||
  ((8192 <=? c) && (c <=? 8202)) ||
  (c =? 8232) || (c =? 8233) || (c =? 8239) || (c =? 8287) ||
  (c =? 12288) || (c =? 65279).

Fixpoint trimStart (s : t) : t :=
  match s with
  | [] => []
  | c :: s' => if is_space c then trimStart s' else s
  end.

Definition trimEnd (s : t) : t := rev (trimStart (rev s)).

(** [s.trim()] *)
Definition trim (s : t) : t := trimStart (trimEnd s).

End JsString.

Import JsString.

#[global] Arguments lit : simpl never.

(** ** Cleaning the model's response (server.js, lines 339-348) *)

Definition FENCE : JsString.t := lit "```".
Definition FENCE_HTML : JsString.t := lit "```html".
Definition DOCTYPE_PREFIX : JsString.t := lit "<!DOCTYPE".
Definition HTML_PREFIX : JsString.t := lit "<html".
Definition DOCTYPE_LINE : JsString.t := lit "<!DOCTYPE html>" ++ [LF].

(** The optional newline of the patterns [/```html\n?/] and [/```\n?/]:
    the quantifier is greedy, so a newline that is there is consumed. *)
Definition skip_newline (s : JsString.t) : JsString.t :=
  match s with
  | c :: s' => if N.eqb c LF then s' else s
  | [] => []
  end.

(** A match of [/<p>\n?/] at the start of [s]; the result is the text
    after the match. *)
Definition match_at (p s : JsString.t) : option JsString.t :=
  match strip_prefix p s with
  | Some rest => Some (skip_newline rest)
  | None => None
  end.

Lemma strip_prefix_length p s r :
  strip_prefix p s = Some r -> length s = (length p + length r)%nat.
Proof.
  revert s; induction p as [|a p IH]; intros s H.
  - injection H as <-. reflexivity.
  - destruct s as [|b s]; simpl in H; [discriminate|].
    destruct (N.eqb a b); [|discriminate]. simpl. rewrite (IH _ H). reflexivity.
Qed.

Lemma skip_newline_length s : (length (skip_newline s) <= length s)%nat.
Proof. destruct s as [|c s]; simpl; [lia|]. destruct (N.eqb c LF); simpl; lia. Qed.

Lemma match_at_shorter a p s r :
  match_at (a :: p) s = Some r -> (length r < length s)%nat.
Proof.
  unfold match_at. destruct (strip_prefix (a :: p) s) as [rest|] eqn:E;
    [|discriminate].
  intros [= <-]. apply strip_prefix_length in E.
  pose proof (skip_newline_length rest). simpl in E. lia.
Qed.

(** [s.replace(/<p>\n?/g, '')] for a literal pattern [p] that starts with
    the character [a]: the text is scanned from the left; a match is
    dropped and the scan resumes after it, any other character is kept. *)
Equations? replace_all (a : N) (p s : JsString.t) : JsString.t
  by wf (length s) lt :=
  replace_all a p [] := [];
  replace_all a p (c :: s') with inspect (match_at (a :: p) (c :: s')) := {
    | exist _ (Some rest) E => replace_all a p rest;
    | exist _ None E => c :: replace_all a p s' }.
Proof.
  - apply match_at_shorter in E. exact E.
  - simpl. lia.
Qed.

(** [replace(/```html\n?/g, '')] and [replace(/```\n?/g, '')] *)
Definition remove_html_fences : JsString.t -> JsString.t :=
  replace_all BACKTICK (lit "``html").
Definition remove_fences : JsString.t -> JsString.t :=
  replace_all BACKTICK (lit "``").

Definition strip_fences (text : JsString.t) : JsString.t :=
  trim (remove_fences (remove_html_fences text)).

Definition ensure_doctype (htmlContent : JsString.t) : JsString.t :=
  if negb (startsWith DOCTYPE_PREFIX htmlContent)
     && negb (startsWith HTML_PREFIX htmlContent)
  then DOCTYPE_LINE ++ htmlContent
  else htmlContent.

(** The text written to [index.html] for the response text [text]. *)
Definition clean_html (text : JsString.t) : JsString.t :=
  ensure_doctype (strip_fences text).

(** A response fenced as a generic code block, and as an [html] one. *)
Definition fenced (t : JsString.t) : JsString.t :=
  FENCE ++ [LF] ++ t ++ [LF] ++ FENCE.
Definition fenced_html (t : JsString.t) : JsString.t :=
  FENCE_HTML ++ [LF] ++ t ++ [LF] ++ FENCE.

(** A response with markers anywhere in it: a text, and then any number of
    markers, each a [```html] or a [```], with the text that follows it. *)
Inductive marker :=
| Tagged
| Bare.

Definition marker_text (m : marker) : JsString.t :=
  match m with
  | Tagged => FENCE_HTML
  | Bare => FENCE
  end.

Fixpoint with_markers (head : JsString.t) (rest : list (marker * JsString.t))
  : JsString.t :=
  match rest with
  | [] => head
  | (m, s) :: rest' => head ++ marker_text m ++ with_markers s rest'
  end.

(** The same response with every marker deleted, and with it the newline
    that follows it, if one does. *)
Fixpoint without_markers (head : JsString.t) (rest : list (marker * JsString.t))
  : JsString.t :=
  match rest with
  | [] => head
  | (m, s) :: rest' => head ++ without_markers (skip_newline s) rest'
  end.

Definition no_backtick (s : JsString.t) : bool :=
  forallb (fun c => negb (N.eqb c BACKTICK)) s.

(** The markers of [with_markers head rest] are the ones listed: no text
    has a backtick of its own, no text but the last is empty, and a text
    that follows a [```] does not begin with [html]. *)
Fixpoint well_marked (rest : list (marker * JsString.t)) : bool :=
  match rest with
  | [] => true
  | (m, s) :: rest' =>
      no_backtick s
      && match rest', s with
         | _ :: _, [] => false
         | _, _ => true
         end
      && match m with
         | Bare => negb (startsWith (lit "html") s)
         | Tagged => true
         end
      && well_marked rest'
  end.

(** ** JavaScript numbers and JSON values *)

(** A JavaScript number is an IEEE 754 binary64 value. *)
Definition number := spec_float.

Definition PREC : Z := 53.
Definition EMAX : Z := 1024.

(** The number denoted by an integer literal or an integer count. *)
Definition of_Z (z : Z) : number := binary_normalize PREC EMAX z 0 false.

(** The values a JSON text can hold.  The members of an object are listed
    in the order in which they were created.  JavaScript enumerates the
    integer-like keys of an object before its other keys, so the order of
    the list is not the order of the members in a text that
    [JSON.stringify] writes, and no property below is about that order. *)
Unset Elimination Schemes.
Inductive json :=
| JNull
| JBool (b : bool)
| JNum (x : number)
| JStr (s : JsString.t)
| JArr (items : list json)
| JObj (members : list (JsString.t * json)).
Set Elimination Schemes.

(** A value that [JSON.stringify] writes as it is, so that [JSON.parse]
    reads it back: none of its numbers is a negative zero or, as the number
    read from [1e400] is, not finite.  Of any other value the text has [0]
    or [null] in the place of such a number. *)
Fixpoint writable (v : json) : bool :=
  match v with
  | JNum (S754_finite _ _ _) | JNum (S754_zero false) => true
  | JNum _ => false
  | JArr items => forallb writable items
  | JObj members => forallb (fun member => writable (snd member)) members
  | JNull | JBool _ | JStr _ => true
  end.

(** What [JSON.stringify] makes of a number: [NaN] and the infinities
    become [null], and the sign of zero is dropped. *)
Definition json_number (x : number) : json :=
  match x with
  | S754_zero _ => JNum (S754_zero false)
  | S754_finite _ _ _ => JNum x
  | S754_infinity _ | S754_nan => JNull
  end.

Fixpoint str_eqb (a b : JsString.t) : bool :=
  match a, b with
  | [], [] => true
  | x :: a', y :: b' => N.eqb x y && str_eqb a' b'
  | _, _ => false
  end.

(** [o[k]]; [None] stands for [undefined]. *)
Fixpoint get_prop (k : JsString.t) (o : list (JsString.t * json)) : option json :=
  match o with
  | [] => None
  | (k', v) :: o' => if str_eqb k k' then Some v else get_prop k o'
  end.

(** [o[k] = v]: an existing member keeps its place. *)
Fixpoint set_prop (k : JsString.t) (v : json) (o : list (JsString.t * json))
  : list (JsString.t * json) :=
  match o with
  | [] => [(k, v)]
  | (k', v') :: o' =>
      if str_eqb k k' then (k, v) :: o' else (k', v') :: set_prop k v o'
  end.

(** ** Errors and results *)

(** A thrown value; only its [message] is ever read. *)
Record js_error := { message : JsString.t }.

(** The outcome of a call that may throw. *)
Inductive result (A : Type) :=
| Return (a : A)
| Throw (e : js_error).
Arguments Return {A} a.
Arguments Throw {A} e.

(** The message of the [TypeError] raised when a property of [undefined]
    or [null] is read, or when a value that is no function is called.
    Its wording is the engine's. *)
Definition type_error : js_error := {| message := lit "TypeError" |}.

(** ** Configuration (server.js, lines 24-33) *)

(** A path below [__dirname], one entry per segment. *)
Definition path := list JsString.t.

Definition UPLOADS_DIR : path := [lit "uploads"].
Definition OUTPUT_DIR : path := [lit "__output__"].
Definition HISTORY_FILE : path := [lit "history"; lit "whiteboard-history.json"].
Definition MAX_IMAGE_SIZE : Z := 1024.
Definition MODEL : JsString.t := lit "claude-opus-4-5-20251101".
Definition MAX_TOKENS : Z := 16384.
Definition COST_PER_MILLION_INPUT : Z := 15.
Definition COST_PER_MILLION_OUTPUT : Z := 75.

(** ** The file system

    A file is known by what reading it gives: a [Json] file holds a text
    that [JSON.parse] reads as the value, which is the text that
    [JSON.stringify] writes for a value that is [writable]; [Text] and
    [Image] files hold anything else, and [JSON.parse] raises a
    [SyntaxError] on them. *)
Inductive file_content :=
| Json (v : json)
| Text (s : JsString.t)
| Image (bytes : list N).

Abbreviation filesystem := (gmap path file_content).

(** ** Effects

    An [async] function of the source reads and writes files and either
    returns or throws: a computation takes the file system and gives the
    file system it leaves with its outcome. *)
Definition M (A : Type) : Type := filesystem -> filesystem * result A.

Definition ret {A} (a : A) : M A := fun fs => (fs, Return a).
Definition throw {A} (e : js_error) : M A := fun fs => (fs, Throw e).
Definition bind {A B} (c : M A) (k : A -> M B) : M B :=
  fun fs =>
    match c fs with
    | (fs', Return a) => k a fs'
    | (fs', Throw e) => (fs', Throw e)
    end.
(** [try { c } catch (error) { handler }] *)
Definition try_catch {A} (c : M A) (handler : js_error -> M A) : M A :=
  fun fs =>
    match c fs with
    | (fs', Return a) => (fs', Return a)
    | (fs', Throw e) => handler e fs'
    end.
(** What [existsSync] and the read of a file see. *)
Definition lookup_file (p : path) : M (option file_content) :=
  fun fs => (fs, Return (fs !! p)).
Definition write_file (p : path) (c : file_content) : M unit :=
  fun fs => (<[p := c]> fs, Return tt).
(** A step that fails when the environment says so. *)
Definition may_fail (fault : option js_error) : M unit :=
  match fault with
  | Some e => throw e
  | None => ret tt
  end.

Notation "'do' x <- c ; k" := (bind c (fun x => k))
  (at level 10, x name, c at level 100, k at level 200).

(** The faults of the file system that the history code catches. *)
Record history_io := {
  read_error : option js_error;   (* [fs.readFile] rejects *)
  write_error : option js_error   (* [fs.writeFile] rejects *)
}.

Definition reliable : history_io :=
  {| read_error := None; write_error := None |}.

(** [JSON.parse] of what was read. *)
Definition JSON_parse (data : file_content) : M json :=
  match data with
  | Json v => ret v
  | Text _ | Image _ => throw {| message := lit "SyntaxError" |}
  end.

(** ** The history store (server.js, lines 77-112) *)

Definition SESSIONS : JsString.t := lit "sessions".

Definition empty_history : json := JObj [(SESSIONS, JArr [])].

Definition loadHistory (io : history_io) : M json :=
  do found <- try_catch
    (do file <- lookup_file HISTORY_FILE;
     match file with
     | Some data =>
         do _ <- may_fail (read_error io);
         do v <- JSON_parse data;
         ret (Some v)
     | None => ret None
     end)
    (fun error => ret None);
  match found with
  | Some v => ret v
  | None => ret empty_history
  end.

Definition saveHistory (history : json) (io : history_io) : M unit :=
  try_catch
    (do _ <- may_fail (write_error io);
     write_file HISTORY_FILE (Json history))
    (fun error => ret tt).

(** [l.slice(0, n)] on an array *)
Definition slice0 {A} (n : nat) (l : list A) : list A := take n l.

Definition addToHistory (session : json) (io : history_io) : M unit :=
  do history <- loadHistory io;
  match history with
  | JObj members =>
      match get_prop SESSIONS members with
      | Some (JArr sessions) =>
          (* history.sessions.unshift(session) *)
          let sessions := session :: sessions in
          let sessions :=
            if (100 <? length sessions)%nat then slice0 100 sessions
            else sessions in
          saveHistory (JObj (set_prop SESSIONS (JArr sessions) members)) io
      | _ => throw type_error
      end
  | _ => throw type_error
  end.

(** The sessions of the stored history document, as a later request reads
    them when the file system serves the read. *)
Definition stored_sessions (fs : filesystem) : list json :=
  match loadHistory reliable fs with
  | (_, Return (JObj members)) =>
      match get_prop SESSIONS members with
      | Some (JArr sessions) => sessions
      | _ => []
      end
  | _ => []
  end.

(** A run of appends, each with the faults it meets. *)
Fixpoint appends (ops : list (json * history_io)) (fs : filesystem) : filesystem :=
  match ops with
  | [] => fs
  | (session, io) :: ops' => appends ops' (fst (addToHistory session io fs))
  end.

(** ** Library functions

    Pure functions of the JavaScript runtime that the server calls and
    whose results are not fixed here: the shortest decimal form of a number
    ([Number::toString], which [toFixed] falls back to for a magnitude of
    10^21 or more), [parseFloat], and the base64 text of a file's bytes.
    [dirname] is [__dirname], the absolute directory of [server.js]. *)
Class Runtime := {
  Number_toString : number -> JsString.t;
  parseFloat : JsString.t -> number;
  dirname : JsString.t;
  base64 : file_content -> JsString.t
}.

Section Server.

Context {rt : Runtime}.

(** ** [Number.prototype.toFixed] *)

Definition ZERO_DIGIT : N := 48.

Lemma log2_div10 (n : N) : 10 <= n -> N.log2 (n / 10) < N.log2 n.
Proof.
  intros Hn. destruct (N.eq_dec (n / 10) 0) as [->|Hq].
  - apply N.log2_pos. lia.
  - assert (N.log2 (2 * (n / 10)) <= N.log2 n) as H.
    { apply N.log2_le_mono. pose proof (N.Div0.mul_div_le n 10). lia. }
    apply N.neq_0_lt_0 in Hq. rewrite (N.log2_double _ Hq) in H. lia.
Qed.

(** The decimal digits of [n], most significant first. *)
Equations? decimal_digits (n : N) : JsString.t by wf (N.to_nat (N.log2 n)) lt :=
  decimal_digits n with inspect (n <? 10) := {
    | exist _ true _ => [ZERO_DIGIT + n];
    | exist _ false E => decimal_digits (n / 10) ++ [ZERO_DIGIT + n mod 10] }.
Proof.
  apply N.ltb_ge in E. pose proof (log2_div10 n E). lia.
Qed.

(** The integer [n] for which [n / 10^f - x] is as close to zero as
    possible, the larger one if there are two, for [x = m * 2^e > 0]. *)
Definition scaled_round (f : nat) (m : positive) (e : Z) : Z :=
  let p := (Zpos m * 10 ^ Z.of_nat f)%Z in
  if (0 <=? e)%Z then (p * 2 ^ e)%Z
  else ((2 * p + 2 ^ (- e)) / 2 ^ (1 - e))%Z.

(** [x >= 10^21] for [x = m * 2^e]. *)
Definition at_least_1e21 (m : positive) (e : Z) : bool :=
  if (0 <=? e)%Z then (10 ^ 21 <=? Zpos m * 2 ^ e)%Z
  else (10 ^ 21 * 2 ^ (- e) <=? Zpos m)%Z.

(** The digits of [n] with the decimal point [f] places from the right,
    zeros being added in front so that one digit stands before the point. *)
Definition fixed_digits (f : nat) (n : N) : JsString.t :=
  let m := decimal_digits n in
  let k := length m in
  let m := if (k <=? f)%nat then repeat ZERO_DIGIT (f + 1 - k) ++ m else m in
  let k := length m in
  if (f =? 0)%nat then m
  else take (k - f) m ++ lit "." ++ drop (k - f) m.

(** [x.toFixed(f)], for [0 <= f <= 100]. *)
Definition toFixed (x : number) (f : nat) : JsString.t :=
  match x with
  | S754_nan => lit "NaN"
  | S754_infinity false => lit "Infinity"
  | S754_infinity true => lit "-Infinity"
  | S754_zero _ => fixed_digits f 0
  | S754_finite s m e =>
      if at_least_1e21 m e then Number_toString x
      else (if s then lit "-" else []) ++ fixed_digits f (Z.to_N (scaled_round f m e))
  end.

(** ** Cost calculation (server.js, lines 209-219) *)

Definition js_div : number -> number -> number := SFdiv PREC EMAX.
Definition js_mul : number -> number -> number := SFmul PREC EMAX.
Definition js_add : number -> number -> number := SFadd PREC EMAX.

Record cost_breakdown := {
  inputCost : JsString.t;
  outputCost : JsString.t;
  totalCost : JsString.t
}.

Definition calculateCost (inputTokens outputTokens : number) : cost_breakdown :=
  let inputCost :=
    js_mul (js_div inputTokens (of_Z 1000000)) (of_Z COST_PER_MILLION_INPUT) in
  let outputCost :=
    js_mul (js_div outputTokens (of_Z 1000000)) (of_Z COST_PER_MILLION_OUTPUT) in
  let totalCost := js_add inputCost outputCost in
  {| inputCost := toFixed inputCost 6;
     outputCost := toFixed outputCost 6;
     totalCost := toFixed totalCost 6 |}.

(** ** The prototype builder (server.js, lines 118-169 and 225-394) *)

(** The prompt template, before and after the place of the user's
    overrides. *)
Definition PROMPT_HEAD : JsString.t := lit "You are an expert web developer and prototype builder. Your job is to create a FULLY FUNCTIONAL, production-ready prototype from whiteboard sketches.

TASK: Analyze the whiteboard sketch and build a complete, working HTML prototype that matches this exact design specification.

MANDATORY DESIGN SPECIFICATIONS (unless user explicitly overrides):
- Background: White (#ffffff)
- Primary accent color: #4facfe (bright blue)
- Secondary accent color: #5eb3d6 (softer blue)
- Text colors: #030203 (headings), #666 (body text), #999 (hints)
- Buttons: Black (#030203) with white text, 50px border-radius, hover effects with lift
- Inputs/textareas: 1px solid rgba(79, 172, 254, 0.2) borders, 15px border-radius
- Cards/sections: White background, subtle blue borders rgba(79, 172, 254, 0.15), soft shadows
- Font: -apple-system, BlinkMacSystemFont, 'Segoe UI', Roboto, sans-serif
- Animations: Smooth transitions with cubic-bezier(0.23, 1, 0.320, 1)

FUNCTIONALITY REQUIREMENTS:
1. Make it FULLY FUNCTIONAL - all buttons, forms, and interactive elements must work
2. If the sketch shows a form, implement proper form validation and submission handling
3. If the sketch shows navigation, implement working navigation
4. If the sketch shows data/content, include realistic sample data
5. If the sketch shows animations or transitions, implement them smoothly
6. All user interactions should provide clear feedback (hover states, click effects, etc.)
7. Handle edge cases (empty states, loading states, error states)
8. Make it mobile-responsive with proper touch targets

TECHNICAL REQUIREMENTS:
1. Single self-contained HTML file with embedded CSS and JavaScript
2. Use semantic HTML5 elements
3. Modern JavaScript (ES6+) with proper event handling
4. Clean, organized code structure
5. Include meaningful placeholder content
6. Add smooth animations and transitions
7. Implement proper accessibility (ARIA labels where needed)

WHITEBOARD INTERPRETATION:
1. Study the sketch carefully - understand the concept, layout, and intended functionality
2. Identify all UI components, interactions, and user flows
3. Infer reasonable functionality even if not explicitly shown
4. Create a polished, professional version of the concept

".

Definition PROMPT_TAIL : JsString.t := lit "

CRITICAL OUTPUT REQUIREMENTS:
- Return ONLY the complete HTML code
- No explanations, no markdown code blocks, no wrapper text
- Start directly with <!DOCTYPE html>
- Make it production-ready and fully functional
- The user should be able to actually use this prototype, not just view a static mockup".

(** What a request meets outside the server: the clock, the identifier
    generator, the image library, the model service and the disk. *)
Record api_request := {
  req_model : JsString.t;
  req_max_tokens : Z;
  req_image : JsString.t;
  req_text : JsString.t
}.

(** [message.usage] *)
Record api_usage := {
  input_tokens : number;
  output_tokens : number
}.

(** A response of the model service: the [text] of each content block
    ([None] for a block without one) and the usage counts ([None] when the
    message has no [usage]). *)
Record api_message := {
  content : list (option JsString.t);
  usage : option api_usage
}.

Record environment := {
  uuidv4 : JsString.t;
  upload_time : JsString.t;     (* [new Date().toISOString()] in [storage] *)
  store_error : option js_error;  (* the disk storage cannot write the upload *)
  build_time : JsString.t;      (* the same, at the start of the build *)
  finish_time : JsString.t;     (* the same, for the result's [timestamp] *)
  call_start : Z;               (* [Date.now()] before the call *)
  call_end : Z;                 (* [Date.now()] after it *)
  mkdir_error : option js_error;
  (** [sharp(input).metadata()], the resize to [MAX_IMAGE_SIZE] and the
      JPEG written by [toFile], for what is found at the input path *)
  sharp_compress : option file_content -> result (list N);
  (** [sharp(outputPath).metadata()], of the file just written *)
  output_metadata_error : option js_error;
  (** [fs.readFile] of the compressed image rejects, though the file is
      there *)
  read_image_error : option js_error;
  (** the 200 by 200 thumbnail *)
  sharp_thumbnail : option file_content -> result (list N);
  messages_create : api_request -> result api_message;
  index_write_error : option js_error;
  history_faults : history_io
}.

(** [iso.replace(/[:.]/g, '-')] *)
Definition dashed (iso : JsString.t) : JsString.t :=
  map (fun c => if (c =? 58) || (c =? 46) then 45 else c) iso.

(** [p.split('/').pop()] on a path *)
Definition basename (p : path) : JsString.t := List.last p [].

(** The absolute path as text. *)
Definition path_text (p : path) : JsString.t :=
  dirname ++ concat (map (fun segment => lit "/" ++ segment) p).

Definition no_such_file : js_error := {| message := lit "ENOENT" |}.

Definition lift {A} (r : result A) : M A :=
  match r with
  | Return a => ret a
  | Throw e => throw e
  end.

Definition compressImage (env : environment) (inputPath outputPath : path)
  : M path :=
  try_catch
    (do input <- lookup_file inputPath;
     do bytes <- lift (sharp_compress env input);
     do _ <- write_file outputPath (Image bytes);
     do _ <- may_fail (output_metadata_error env);
     ret outputPath)
    (fun error => throw error).

(** [null] is [None]. *)
Definition createThumbnail (env : environment) (imagePath thumbnailPath : path)
  : M (option path) :=
  try_catch
    (do input <- lookup_file imagePath;
     do bytes <- lift (sharp_thumbnail env input);
     do _ <- write_file thumbnailPath (Image bytes);
     ret (Some thumbnailPath))
    (fun error => ret None).

Definition imageToBase64 (env : environment) (imagePath : path)
  : M JsString.t :=
  do file <- lookup_file imagePath;
  match file with
  | Some data =>
      do _ <- may_fail (read_image_error env);
      ret (base64 data)
  | None => throw no_such_file
  end.

Definition overrides (customPrompt : JsString.t) : JsString.t :=
  match customPrompt with
  | [] => []
  | _ :: _ =>
      [LF] ++ lit "=== USER-SPECIFIED OVERRIDES ===" ++ [LF] ++ customPrompt ++ [LF]
      ++ lit "(These instructions override the default design specifications above)"
      ++ [LF]
  end.

Definition systemPrompt (customPrompt : JsString.t) : JsString.t :=
  PROMPT_HEAD ++ overrides customPrompt ++ PROMPT_TAIL.

(** [message.content[0].text], on which [replace] is then called: a
    missing block or a block without text raises a [TypeError]. *)
Definition first_text (message : api_message) : M JsString.t :=
  match content message with
  | Some text :: _ => ret text
  | _ => throw type_error
  end.

(** [message.usage.input_tokens], read for the log before the response is
    looked at: a message without [usage] raises a [TypeError]. *)
Definition usage_of (message : api_message) : M api_usage :=
  match usage message with
  | Some counts => ret counts
  | None => throw type_error
  end.

Record build_result := {
  outputDir : path;
  prototypeUrl : JsString.t;
  thumbnailUrl : JsString.t;
  tokens_input : number;
  tokens_output : number;
  cost : number;
  costs : cost_breakdown;
  duration : number;
  files : list JsString.t;
  timestamp : JsString.t;
  model : JsString.t
}.

Definition buildPrototypeWithClaudeAgent (env : environment)
  (imagePath : path) (customPrompt sessionId : JsString.t) : M build_result :=
  let timestamp := dashed (build_time env) in
  let outputDir := OUTPUT_DIR ++ [lit "prototype-" ++ timestamp] in
  try_catch
    (do _ <- may_fail (mkdir_error env);
     let compressedPath :=
       UPLOADS_DIR ++ [lit "compressed-" ++ basename imagePath] in
     do _ <- compressImage env imagePath compressedPath;
     do imageBase64 <- imageToBase64 env compressedPath;
     do message <- lift (messages_create env
                           {| req_model := MODEL;
                              req_max_tokens := MAX_TOKENS;
                              req_image := imageBase64;
                              req_text := systemPrompt customPrompt |});
     let duration :=
       toFixed (js_div (of_Z (call_end env - call_start env)) (of_Z 1000)) 2 in
     do counts <- usage_of message;
     do text <- first_text message;
     let htmlContent := clean_html text in
     let indexPath := outputDir ++ [lit "index.html"] in
     do _ <- may_fail (index_write_error env);
     do _ <- write_file indexPath (Text htmlContent);
     let costs := calculateCost (input_tokens counts) (output_tokens counts) in
     let thumbnailPath := outputDir ++ [lit "thumbnail.jpg"] in
     do _ <- createThumbnail env compressedPath thumbnailPath;
     ret {| outputDir := outputDir;
            prototypeUrl := lit "/demos/" ++ basename outputDir ++ lit "/index.html";
            thumbnailUrl := lit "/demos/" ++ basename outputDir ++ lit "/thumbnail.jpg";
            tokens_input := input_tokens counts;
            tokens_output := output_tokens counts;
            cost := parseFloat (totalCost costs);
            costs := costs;
            duration := parseFloat duration;
            files := [lit "index.html"];
            timestamp := finish_time env;
            model := MODEL |})
    (fun error => throw error).

(** ** The upload route (server.js, lines 175-195 and 424-511) *)

(** The file part of the multipart form, as multer reads it: the name the
    client gave the file, the type of the part as the parser of the form
    reports it, which is the declared type in small letters, and the
    bytes. *)
Record upload_part := {
  originalname : JsString.t;
  mimetype : JsString.t;
  data : list N
}.

Record upload_request := {
  whiteboard : option upload_part;
  prompt : option JsString.t          (* [req.body.prompt] *)
}.

(** [req.file] *)
Record multer_file := {
  file_originalname : JsString.t;
  file_mimetype : JsString.t;
  file_filename : JsString.t;
  file_size : Z
}.

Definition FILE_SIZE_LIMIT : Z := 50 * 1024 * 1024.

(** [storage.filename] *)
Definition storage_filename (env : environment) : JsString.t :=
  lit "whiteboard-" ++ dashed (upload_time env) ++ lit ".jpg".

(** [upload.single('whiteboard')]: the filter, the disk storage and the
    size limit, which a part reaches with its last byte: a part of as many
    bytes as the limit is refused, and no file is left of it.  An error
    goes to the framework, not to the handler. *)
Definition upload_single (env : environment) (req : upload_request)
  : M (option multer_file) :=
  match whiteboard req with
  | None => ret None
  | Some part =>
      if negb (startsWith (lit "image/") (mimetype part))
      then throw {| message := lit "Only image files are allowed" |}
      else
        do _ <- may_fail (store_error env);
        if (FILE_SIZE_LIMIT <=? Z.of_nat (length (data part)))%Z
        then throw {| message := lit "File too large" |}
        else
          let filename := storage_filename env in
          do _ <- write_file (UPLOADS_DIR ++ [filename]) (Image (data part));
          ret (Some {| file_originalname := originalname part;
                       file_mimetype := mimetype part;
                       file_filename := filename;
                       file_size := Z.of_nat (length (data part)) |})
  end.

(** What [res.status(...).json(...)] sends; [res.json] alone sends 200. *)
Record reply := {
  status : Z;
  body : json
}.

Definition field (name : string) (v : json) : JsString.t * json := (lit name, v).

(** [a || b] on strings: the empty string is falsy. *)
Definition or_else (a b : JsString.t) : JsString.t :=
  match a with
  | [] => b
  | _ :: _ => a
  end.

(** [req.body.prompt || ''] *)
Definition custom_prompt (prompt : option JsString.t) : JsString.t :=
  match prompt with
  | Some text => or_else text []
  | None => []
  end.

Definition json_costs (c : cost_breakdown) : json :=
  JObj [field "inputCost" (JStr (inputCost c));
        field "outputCost" (JStr (outputCost c));
        field "totalCost" (JStr (totalCost c))].

Definition json_tokens (r : build_result) : json :=
  JObj [field "input" (json_number (tokens_input r));
        field "output" (json_number (tokens_output r))].

Definition historyEntry (sessionId : JsString.t) (file : multer_file)
  (customPrompt : JsString.t) (r : build_result) : json :=
  JObj [field "sessionId" (JStr sessionId);
        field "timestamp" (JStr (timestamp r));
        field "originalFilename" (JStr (file_filename file));
        field "customPrompt" (JStr customPrompt);
        field "outputDir" (JStr (path_text (outputDir r)));
        field "prototypeUrl" (JStr (prototypeUrl r));
        field "thumbnailUrl" (JStr (thumbnailUrl r));
        field "tokens" (json_tokens r);
        field "cost" (json_number (cost r));
        field "costs" (json_costs (costs r));
        field "duration" (json_number (duration r));
        field "model" (JStr (model r));
        field "files" (JArr (map JStr (files r)));
        field "success" (JBool true)].

Definition success_body (sessionId : JsString.t) (r : build_result) : json :=
  JObj [field "success" (JBool true);
        field "sessionId" (JStr sessionId);
        field "message" (JStr (lit "Prototype generated successfully!"));
        field "demoUrl" (JStr (prototypeUrl r));
        field "thumbnailUrl" (JStr (thumbnailUrl r));
        field "outputDir" (JStr (path_text (outputDir r)));
        field "tokens" (json_tokens r);
        field "cost" (json_number (cost r));
        field "costs" (json_costs (costs r));
        field "duration" (json_number (duration r));
        field "files" (JArr (map JStr (files r)))].

Definition no_file_body : json :=
  JObj [field "success" (JBool false);
        field "error" (JStr (lit "No file uploaded"))].

Definition failure_body (sessionId : JsString.t) (error : js_error) : json :=
  JObj [field "success" (JBool false);
        field "sessionId" (JStr sessionId);
        field "error"
          (JStr (or_else (message error) (lit "Failed to generate prototype")))].

(** The handler of [POST /upload], given [req.file] and [req.body.prompt]. *)
Definition upload_handler (env : environment) (file : option multer_file)
  (prompt : option JsString.t) : M reply :=
  let sessionId := uuidv4 env in
  try_catch
    (match file with
     | None => ret {| status := 400; body := no_file_body |}
     | Some file =>
         let customPrompt := custom_prompt prompt in
         let imagePath := UPLOADS_DIR ++ [file_filename file] in
         do result <- buildPrototypeWithClaudeAgent env imagePath customPrompt
                        sessionId;
         do _ <- addToHistory (historyEntry sessionId file customPrompt result)
                   (history_faults env);
         ret {| status := 200; body := success_body sessionId result |}
     end)
    (fun error => ret {| status := 500; body := failure_body sessionId error |}).

(** [app.post('/upload', upload.single('whiteboard'), handler)] *)
Definition post_upload (env : environment) (req : upload_request) : M reply :=
  do file <- upload_single env req;
  upload_handler env file (prompt req).

(** ** The history route (server.js, lines 514-537) *)

(** [history.sessions] on what [loadHistory] returned: reading a property
    of [null] raises a [TypeError]; an array, a string, a number or a
    boolean has no such property.  [None] stands for [undefined]. *)
Definition sessions_of (history : json) : M (option json) :=
  match history with
  | JNull => throw type_error
  | JObj members => ret (get_prop SESSIONS members)
  | _ => ret None
  end.

(** [sessions.length]: the number of items of an array and of code units of
    a string, the member of that name of an object, [undefined] on a number
    or a boolean, and a [TypeError] on [undefined] and [null]. *)
Definition length_of (sessions : option json) : M (option json) :=
  match sessions with
  | None | Some JNull => throw type_error
  | Some (JArr items) => ret (Some (JNum (of_Z (Z.of_nat (length items)))))
  | Some (JStr s) => ret (Some (JNum (of_Z (Z.of_nat (length s)))))
  | Some (JObj members) => ret (get_prop (lit "length") members)
  | Some (JNum _) | Some (JBool _) => ret None
  end.

(** The object that [res.json] sends: a member whose value is [undefined]
    is left out. *)
Definition json_object (members : list (JsString.t * option json)) : json :=
  JObj (omap (fun member => match snd member with
                            | Some v => Some (fst member, v)
                            | None => None
                            end) members).

Definition history_failure_body : json :=
  JObj [(lit "success", JBool false);
        (lit "error", JStr (lit "Failed to retrieve history"))].

(** The handler of [GET /history]. *)
Definition get_history (io : history_io) : M reply :=
  try_catch
    (do history <- loadHistory io;
     do sessions <- sessions_of history;
     do total <- length_of sessions;
     ret {| status := 200;
            body := json_object [(lit "success", Some (JBool true));
                                 (lit "sessions", sessions);
                                 (lit "total", total)] |})
    (fun error => ret {| status := 500; body := history_failure_body |}).

(** [v[name]] on a value, [None] for [undefined]. *)
Definition json_get (name : string) (v : json) : option json :=
  match v with
  | JObj members => get_prop (lit name) members
  | _ => None
  end.

End Server.

(** ** Start-up (server.js, lines 62-75 and 557-599)

    The directories of the server, by the set of paths that exist.
    [mkdir] gives, for a directory, the error with which [fs.mkdir]
    rejects, if it does. *)
Definition DIRECTORIES : list path :=
  [UPLOADS_DIR; OUTPUT_DIR; [lit "history"]].

Fixpoint ensure (mkdir : path -> option js_error) (dirs : list path)
  (existing : gset path) : gset path * result unit :=
  match dirs with
  | [] => (existing, Return tt)
  | dir :: dirs' =>
      if decide (dir ∈ existing) then ensure mkdir dirs' existing
      else
        match mkdir dir with
        | Some error => (existing, Throw error)
        | None => ensure mkdir dirs' ({[dir]} ∪ existing)
        end
  end.

Definition ensureDirectories (mkdir : path -> option js_error)
  : gset path -> gset path * result unit :=
  ensure mkdir DIRECTORIES.

(** How [startServer] ends: [process.exit(code)], or the call of
    [app.listen]. *)
Inductive startup :=
| Exit (code : Z)
| Listen.

(** [api_key] is [process.env.ANTHROPIC_API_KEY], [None] when it is not
    set; the empty string is falsy. *)
Definition startServer (mkdir : path -> option js_error)
  (api_key : option JsString.t) (existing : gset path) : gset path * startup :=
  match ensureDirectories mkdir existing with
  | (existing', Return _) =>
      match api_key with
      | None | Some [] => (existing', Exit 1)
      | Some (_ :: _) => (existing', Listen)
      end
  | (existing', Throw error) => (existing', Exit 1)
  end.

(** ** Concrete runs

    A sample environment: the library functions are stand-ins, the image
    library copies the bytes it is given, and the model service answers
    with a small document. *)

Definition sample_runtime : Runtime :=
  {| Number_toString := fun _ => lit "1e+21";
     parseFloat := fun _ => of_Z 0;
     dirname := lit "/srv/app";
     base64 := fun _ => lit "/9j/4AAQ" |}.

Definition sample_sharp (input : option file_content) : result (list N) :=
  match input with
  | Some (Image bytes) => Return bytes
  | _ => Throw {| message := lit "Input file is missing" |}
  end.

Definition sample_message : api_message :=
  {| content := [Some (lit "<!DOCTYPE html><html><body>ok</body></html>")];
     usage := Some {| input_tokens := of_Z 1523;
                      output_tokens := of_Z 2847 |} |}.

Definition sample_env : environment :=
  {| uuidv4 := lit "3b241101-e2bb-4255-8caf-4136c566a962";
     upload_time := lit "2024-01-15T10:30:00.000Z";
     store_error := None;
     build_time := lit "2024-01-15T10:30:00.120Z";
     finish_time := lit "2024-01-15T10:30:12.570Z";
     call_start := 1705314600130;
     call_end := 1705314612580;
     mkdir_error := None;
     sharp_compress := sample_sharp;
     output_metadata_error := None;
     read_image_error := None;
     sharp_thumbnail := sample_sharp;
     messages_create := fun _ => Return sample_message;
     index_write_error := None;
     history_faults := reliable |}.

(** The same, with a model service that refuses the call. *)
Definition failing_env : environment :=
  {| uuidv4 := uuidv4 sample_env;
     upload_time := upload_time sample_env;
     store_error := None;
     build_time := build_time sample_env;
     finish_time := finish_time sample_env;
     call_start := call_start sample_env;
     call_end := call_end sample_env;
     mkdir_error := None;
     sharp_compress := sample_sharp;
     output_metadata_error := None;
     read_image_error := None;
     sharp_thumbnail := sample_sharp;
     messages_create := fun _ => Throw {| message := lit "invalid x-api-key" |};
     index_write_error := None;
     history_faults := reliable |}.

Definition sample_part : upload_part :=
  {| originalname := lit "sketch.png";
     mimetype := lit "image/png";
     data := [137; 80; 78; 71] |}.

Definition sample_request : upload_request :=
  {| whiteboard := Some sample_part;
     prompt := Some (lit "Make it dark mode") |}.

Definition sample_file : multer_file :=
  {| file_originalname := lit "sketch.png";
     file_mimetype := lit "image/png";
     file_filename := lit "whiteboard-2024-01-15T10-30-00-000Z.jpg";
     file_size := 4 |}.

Definition sample_fs : filesystem :=
  {[ UPLOADS_DIR ++ [lit "whiteboard-2024-01-15T10-30-00-000Z.jpg"]
     := Image [137; 80; 78; 71] ]}.

Definition sample_post_upload :=
  post_upload (rt := sample_runtime).
Definition sample_handler :=
  upload_handler (rt := sample_runtime).
Definition sample_build :=
  buildPrototypeWithClaudeAgent (rt := sample_runtime).

Definition sample_outcome : filesystem * result reply :=
  sample_post_upload sample_env sample_request ∅.

Definition sample_reply : reply :=
  match snd sample_outcome with
  | Return r => r
  | Throw _ => {| status := 0; body := JNull |}
  end.

(** The same as [sample_env], with an image library that cannot make the
    thumbnail. *)
Definition no_thumbnail_env : environment :=
  {| uuidv4 := uuidv4 sample_env;
     upload_time := upload_time sample_env;
     store_error := None;
     build_time := build_time sample_env;
     finish_time := finish_time sample_env;
     call_start := call_start sample_env;
     call_end := call_end sample_env;
     mkdir_error := None;
     sharp_compress := sample_sharp;
     output_metadata_error := None;
     read_image_error := None;
     sharp_thumbnail :=
       fun _ => Throw {| message := lit "unsupported image format" |};
     messages_create := fun _ => Return sample_message;
     index_write_error := None;
     history_faults := reliable |}.

(** The same, with a disk that refuses the write of the history. *)
Definition write_fault_env : environment :=
  {| uuidv4 := uuidv4 sample_env;
     upload_time := upload_time sample_env;
     store_error := None;
     build_time := build_time sample_env;
     finish_time := finish_time sample_env;
     call_start := call_start sample_env;
     call_end := call_end sample_env;
     mkdir_error := None;
     sharp_compress := sample_sharp;
     output_metadata_error := None;
     read_image_error := None;
     sharp_thumbnail := sample_sharp;
     messages_create := fun _ => Return sample_message;
     index_write_error := None;
     history_faults :=
       {| read_error := None;
          write_error := Some {| message := lit "ENOSPC" |} |} |}.

(** What the build of the sample upload returns. *)
Definition sample_result : build_result :=
  {| outputDir := OUTPUT_DIR ++ [lit "prototype-2024-01-15T10-30-00-120Z"];
     prototypeUrl := lit "/demos/prototype-2024-01-15T10-30-00-120Z/index.html";
     thumbnailUrl := lit "/demos/prototype-2024-01-15T10-30-00-120Z/thumbnail.jpg";
     tokens_input := of_Z 1523;
     tokens_output := of_Z 2847;
     cost := of_Z 0;
     costs := {| inputCost := lit "0.022845";
                 outputCost := lit "0.213525";
                 totalCost := lit "0.236370" |};
     duration := of_Z 0;
     files := [lit "index.html"];
     timestamp := lit "2024-01-15T10:30:12.570Z";
     model := MODEL |}.

(** The build of the sample upload, in an environment. *)
Definition sample_build_of (env : environment) (fs : filesystem)
  : filesystem * result build_result :=
  sample_build env (UPLOADS_DIR ++ [file_filename sample_file])
    (custom_prompt (Some (lit "Make it dark mode"))) (uuidv4 env) fs.



(** A history document with a member besides the sessions. *)
Definition versioned_history : json :=
  JObj [(lit "version", JStr (lit "1"));
        (lit "sessions", JArr [JStr (lit "first")])].

(** ** Notions and tactics of the proofs *)

(** What [loadHistory] returns, by the state of the history file. *)
Definition loaded (io : history_io) (fs : filesystem) : json :=
  match fs !! HISTORY_FILE, read_error io with
  | Some (Json v), None => v
  | _, _ => empty_history
  end.

(** The history document has the shape the server writes: the file is
    missing, is no JSON text, or holds an object with a [sessions] array. *)
Definition well_shaped (fs : filesystem) : Prop :=
  match fs !! HISTORY_FILE with
  | Some (Json v) =>
      exists members sessions,
        v = JObj members /\ get_prop SESSIONS members = Some (JArr sessions)
  | _ => True
  end.

(** The number of millionths a cost string stands for: the value of its
    digits, the decimal point left out.  [None] when the text is not made
    of digits around one point with six digits after it. *)
Definition digit_value (c : N) : option N :=
  if (48 <=? c) && (c <=? 57) then Some (c - 48) else None.

Fixpoint digits_value (acc : N) (s : JsString.t) : option N :=
  match s with
  | [] => Some acc
  | c :: s' =>
      match digit_value c with
      | Some d => digits_value (10 * acc + d) s'
      | None => None
      end
  end.

Definition millionths (cost : JsString.t) : option N :=
  let k := length cost in
  let whole := take (k - 7) cost in
  let rest := drop (k - 7) cost in
  match whole, rest with
  | _ :: _, point :: fraction =>
      if (point =? 46) && (length fraction =? 6)%nat
      then digits_value 0 (whole ++ fraction)
      else None
  | _, _ => None
  end.

(** The cost of [a] input tokens, or of [b] output tokens, as a number. *)
Definition cost_number (tokens rate : Z) : number :=
  js_mul (js_div (of_Z tokens) (of_Z 1000000)) (of_Z rate).

(** An empty history: no file yet, or the document without sessions. *)
Definition empty_store (fs : filesystem) : Prop :=
  fs !! HISTORY_FILE = None \/ fs !! HISTORY_FILE = Some (Json empty_history).

(** A computation leaves the file at [p] as it is. *)
Definition keeps {A} (p : path) (c : M A) : Prop :=
  forall fs, fst (c fs) !! p = fs !! p.

(** Literals of the source as code units, for case analysis on characters. *)
Ltac unlit_const c v :=
  change c with v;
  repeat match goal with H : context [c] |- _ => change c with v in H end.

Ltac unlit :=
  unlit_const BACKTICK 96; unlit_const LF 10;
  unlit_const FENCE [96; 96; 96];
  unlit_const FENCE_HTML [96; 96; 96; 104; 116; 109; 108];
  unlit_const DOCTYPE_PREFIX [60; 33; 68; 79; 67; 84; 89; 80; 69];
  unlit_const HTML_PREFIX [60; 104; 116; 109; 108];
  unlit_const DOCTYPE_LINE
    [60; 33; 68; 79; 67; 84; 89; 80; 69; 32; 104; 116; 109; 108; 62; 10].

(** Unfolding the effects of the history code. *)
Ltac run :=
  unfold addToHistory, saveHistory, loadHistory, JSON_parse, bind, try_catch,
    lookup_file, write_file, may_fail, ret, throw; simpl.

(** * Part II: properties *)

(** ** The clean-up of the response *)

Example clean_plain :
  clean_html (lit "<p>hi</p>") = lit "<!DOCTYPE html>" ++ [LF] ++ lit "<p>hi</p>".
Proof. reflexivity. Qed.

Example clean_fenced :
  clean_html (lit "```html" ++ [LF] ++ lit "<!DOCTYPE html><p>x</p>" ++ [LF] ++ lit "```")
  = lit "<!DOCTYPE html><p>x</p>".
Proof. reflexivity. Qed.

(** *** Facts about prefixes and occurrences *)

Lemma startsWith_spec p s : startsWith p s = true <-> exists r, s = p ++ r.
Proof.
  revert s; induction p as [|a p IH]; intros s; simpl.
  - split; [intros _; exists s; reflexivity | reflexivity].
  - destruct s as [|b s].
    + split; [discriminate | intros [r Hr]; discriminate].
    + rewrite andb_true_iff, N.eqb_eq, IH. split.
      * intros [-> [r ->]]. exists r. reflexivity.
      * intros [r [= -> ->]]. split; [reflexivity | exists r; reflexivity].
Qed.

Lemma includes_spec p s :
  includes p s = true <-> exists l r, s = l ++ p ++ r.
Proof.
  induction s as [|c s IH]; simpl; rewrite orb_true_iff, startsWith_spec.
  - split.
    + intros [[r Hr] | H]; [exists [], r; exact Hr | discriminate].
    + intros ([|x l] & r & H); [left; exists r; exact H | discriminate].
  - rewrite IH. split.
    + intros [[r Hr] | (l & r & ->)].
      * exists [], r. exact Hr.
      * exists (c :: l), r. reflexivity.
    + intros ([|x l] & r & H).
      * left. exists r. exact H.
      * right. injection H as -> ->. exists l, r. reflexivity.
Qed.

Lemma strip_prefix_None p s : strip_prefix p s = None <-> startsWith p s = false.
Proof.
  revert s; induction p as [|a p IH]; intros [|b s]; simpl;
    try (split; congruence).
  destruct (N.eqb a b); simpl; [apply IH | split; congruence].
Qed.

Lemma match_at_None p s : match_at p s = None <-> startsWith p s = false.
Proof.
  unfold match_at. rewrite <- strip_prefix_None.
  destruct (strip_prefix p s); split; congruence.
Qed.

(** An occurrence of [p] inside a part of [s] is an occurrence in [s]. *)
Lemma includes_infix p l s r :
  includes p (l ++ s ++ r) = false -> includes p s = false.
Proof.
  intros H. destruct (includes p s) eqn:E; [|reflexivity].
  apply includes_spec in E as (l' & r' & ->).
  assert (includes p (l ++ (l' ++ p ++ r') ++ r) = true) as H'; [|congruence].
  apply includes_spec. exists (l ++ l'), (r' ++ r).
  rewrite <- !app_assoc. reflexivity.
Qed.

Lemma trimStart_suffix s : exists l, s = l ++ trimStart s.
Proof.
  induction s as [|c s [l IH]]; simpl; [exists []; reflexivity|].
  destruct (is_space c).
  - exists (c :: l). simpl. rewrite <- IH. reflexivity.
  - exists []. reflexivity.
Qed.

Lemma trim_infix s : exists l r, s = l ++ trim s ++ r.
Proof.
  unfold trim, trimEnd.
  destruct (trimStart_suffix (rev s)) as [r Hr].
  destruct (trimStart_suffix (rev (trimStart (rev s)))) as [l Hl].
  exists l, (rev r). rewrite app_assoc, <- Hl, <- rev_app_distr, <- Hr.
  symmetry. apply rev_involutive.
Qed.

Lemma includes_trim p s : includes p s = false -> includes p (trim s) = false.
Proof.
  destruct (trim_infix s) as (l & r & H). intros Hs. rewrite H in Hs.
  exact (includes_infix _ _ _ _ Hs).
Qed.

(** *** The defining equations of the global replacement *)

Lemma replace_all_nil a p : replace_all a p [] = [].
Proof. simp replace_all. reflexivity. Qed.

Lemma replace_all_match a p s rest :
  match_at (a :: p) s = Some rest -> replace_all a p s = replace_all a p rest.
Proof.
  destruct s as [|c s]; [discriminate|]. intros H. simp replace_all.
  destruct (inspect (match_at (a :: p) (c :: s))) as [[r|] E]; simpl.
  - congruence.
  - congruence.
Qed.

Lemma replace_all_keep a p c s :
  startsWith (a :: p) (c :: s) = false ->
  replace_all a p (c :: s) = c :: replace_all a p s.
Proof.
  intros H. apply match_at_None in H. simp replace_all.
  destruct (inspect (match_at (a :: p) (c :: s))) as [[r|] E]; simpl.
  - congruence.
  - reflexivity.
Qed.

(** *** No fence survives the second replacement *)

Lemma strip_fences_unfold text :
  strip_fences text = trim (remove_fences (remove_html_fences text)).
Proof. reflexivity. Qed.

Lemma remove_fences_keep c s :
  startsWith FENCE (c :: s) = false ->
  remove_fences (c :: s) = c :: remove_fences s.
Proof. apply replace_all_keep. Qed.

Lemma remove_html_fences_keep c s :
  startsWith FENCE_HTML (c :: s) = false ->
  remove_html_fences (c :: s) = c :: remove_html_fences s.
Proof. apply replace_all_keep. Qed.

Lemma remove_fences_other c s :
  c <> BACKTICK -> remove_fences (c :: s) = c :: remove_fences s.
Proof.
  intros Hc. apply remove_fences_keep. unlit. simpl.
  destruct (N.eqb_spec 96 c) as [<-|]; [contradiction | reflexivity].
Qed.

Lemma remove_fences_head1 s :
  startsWith [BACKTICK] s = false ->
  startsWith [BACKTICK] (remove_fences s) = false.
Proof.
  destruct s as [|c s]; [reflexivity|]. unlit. simpl. rewrite andb_true_r.
  intros Hc. rewrite remove_fences_other.
  - simpl. rewrite Hc. reflexivity.
  - intros ->. discriminate.
Qed.

Lemma remove_fences_head2 s :
  startsWith [BACKTICK; BACKTICK] s = false ->
  startsWith [BACKTICK; BACKTICK] (remove_fences s) = false.
Proof.
  destruct s as [|c s]; [reflexivity|].
  destruct (N.eqb_spec c BACKTICK) as [->|Hc].
  - intros H. change (startsWith [BACKTICK] s = false) in H.
    rewrite remove_fences_keep.
    + change (startsWith [BACKTICK] (remove_fences s) = false).
      apply remove_fences_head1, H.
    + destruct s as [|c' s]; [reflexivity|]. unlit. simpl in H |- *.
      destruct (96 =? c'); [discriminate | reflexivity].
  - intros _. rewrite remove_fences_other by exact Hc. unlit. simpl.
    destruct (N.eqb_spec 96 c) as [<-|]; [contradiction | reflexivity].
Qed.

Lemma remove_fences_head n s :
  (length s < n)%nat -> startsWith FENCE (remove_fences s) = false.
Proof.
  revert s; induction n as [|n IH]; intros s Hn; [lia|].
  destruct s as [|c s]; [reflexivity|].
  destruct (match_at FENCE (c :: s)) as [rest|] eqn:E.
  - unfold remove_fences. rewrite (replace_all_match BACKTICK (lit "``") _ _ E).
    apply IH. apply match_at_shorter in E. simpl in *. lia.
  - apply match_at_None in E. rewrite remove_fences_keep by exact E.
    destruct (N.eqb_spec c BACKTICK) as [->|Hc].
    + change (startsWith [BACKTICK; BACKTICK] (remove_fences s) = false).
      apply remove_fences_head2. exact E.
    + unlit. simpl.
      destruct (N.eqb_spec 96 c) as [<-|]; [contradiction | reflexivity].
Qed.

Lemma remove_fences_clean n s :
  (length s < n)%nat -> includes FENCE (remove_fences s) = false.
Proof.
  revert s; induction n as [|n IH]; intros s Hn; [lia|].
  destruct s as [|c s]; [reflexivity|].
  destruct (match_at FENCE (c :: s)) as [rest|] eqn:E.
  - unfold remove_fences. rewrite (replace_all_match BACKTICK (lit "``") _ _ E).
    apply IH. apply match_at_shorter in E. simpl in *. lia.
  - pose proof (remove_fences_head (S (length (c :: s))) (c :: s)) as Hh.
    apply match_at_None in E. rewrite remove_fences_keep in Hh |- * by exact E.
    change (startsWith FENCE (c :: remove_fences s)
            || includes FENCE (remove_fences s) = false).
    rewrite Hh by lia. apply IH. simpl in Hn. lia.
Qed.

Lemma includes_longer p q s :
  includes p s = false -> includes (p ++ q) s = false.
Proof.
  intros H. destruct (includes (p ++ q) s) eqn:E; [|reflexivity].
  apply includes_spec in E as (l & r & ->).
  assert (includes p (l ++ (p ++ q) ++ r) = true) as H'; [|congruence].
  apply includes_spec. exists l, (q ++ r). rewrite <- app_assoc. reflexivity.
Qed.

Lemma ensure_doctype_clean s :
  includes FENCE s = false -> includes FENCE (ensure_doctype s) = false.
Proof.
  intros H. unfold ensure_doctype.
  destruct (negb (startsWith DOCTYPE_PREFIX s) && negb (startsWith HTML_PREFIX s));
    [|exact H].
  unlit. simpl. exact H.
Qed.

(** *** A fenced body without fences of its own *)

Lemma includes_cons_false p c s :
  includes p (c :: s) = false ->
  startsWith p (c :: s) = false /\ includes p s = false.
Proof. simpl. intros H. apply orb_false_elim in H. exact H. Qed.

(** A fence cannot start in a text and run over a newline. *)
Lemma startsWith_fence_newline t u :
  startsWith FENCE t = false -> startsWith FENCE (t ++ LF :: u) = false.
Proof.
  unlit. destruct t as [|c1 [|c2 [|c3 t]]]; simpl; try reflexivity.
  - intros _. destruct (96 =? c1); reflexivity.
  - intros _. destruct (96 =? c1), (96 =? c2); reflexivity.
  - rewrite !andb_true_r. intros H. exact H.
Qed.

Lemma startsWith_fence_html s :
  startsWith FENCE s = false -> startsWith FENCE_HTML s = false.
Proof.
  intros H. destruct (startsWith FENCE_HTML s) eqn:E; [|reflexivity].
  apply startsWith_spec in E as [r ->]. rewrite <- H. unlit. reflexivity.
Qed.

Lemma remove_fences_body t :
  includes FENCE t = false ->
  remove_fences (t ++ LF :: FENCE) = t ++ [LF].
Proof.
  induction t as [|c t IH]; intros H; [reflexivity|].
  apply includes_cons_false in H as [Hc Ht]. simpl.
  rewrite remove_fences_keep.
  - rewrite (IH Ht). reflexivity.
  - apply (startsWith_fence_newline (c :: t)), Hc.
Qed.

Lemma remove_html_fences_body t :
  includes FENCE t = false ->
  remove_html_fences (t ++ LF :: FENCE) = t ++ LF :: FENCE.
Proof.
  induction t as [|c t IH]; intros H; [reflexivity|].
  apply includes_cons_false in H as [Hc Ht]. simpl.
  rewrite remove_html_fences_keep.
  - rewrite (IH Ht). reflexivity.
  - apply startsWith_fence_html, (startsWith_fence_newline (c :: t)), Hc.
Qed.

Lemma strip_fences_fenced t :
  includes FENCE t = false -> strip_fences (fenced t) = trim (t ++ [LF]).
Proof.
  intros H. unfold strip_fences, fenced. f_equal.
  assert (remove_html_fences (FENCE ++ [LF] ++ t ++ [LF] ++ FENCE)
          = FENCE ++ [LF] ++ t ++ [LF] ++ FENCE) as ->.
  { change (FENCE ++ [LF] ++ t ++ [LF] ++ FENCE)
      with (BACKTICK :: BACKTICK :: BACKTICK :: LF :: (t ++ LF :: FENCE)).
    rewrite !remove_html_fences_keep by reflexivity.
    rewrite (remove_html_fences_body t H). reflexivity. }
  unfold remove_fences.
  rewrite (replace_all_match BACKTICK (lit "``") _ (t ++ LF :: FENCE)) by reflexivity.
  apply remove_fences_body, H.
Qed.

Lemma strip_fences_fenced_html t :
  includes FENCE t = false -> strip_fences (fenced_html t) = trim (t ++ [LF]).
Proof.
  intros H. unfold strip_fences, fenced_html. f_equal.
  unfold remove_html_fences.
  rewrite (replace_all_match BACKTICK (lit "``html") _ (t ++ LF :: FENCE))
    by reflexivity.
  fold remove_html_fences. rewrite (remove_html_fences_body t H).
  apply remove_fences_body, H.
Qed.

(** *** A response without fences *)

Lemma replace_all_absent a p s :
  includes (a :: p) s = false -> replace_all a p s = s.
Proof.
  induction s as [|c s IH]; intros H; [apply replace_all_nil|].
  apply includes_cons_false in H as [Hc Hs].
  rewrite (replace_all_keep _ _ _ _ Hc), (IH Hs). reflexivity.
Qed.

Lemma remove_fences_absent s :
  includes FENCE s = false ->
  remove_fences (remove_html_fences s) = s.
Proof.
  intros H. unfold remove_html_fences, remove_fences.
  rewrite (replace_all_absent BACKTICK (lit "``html")).
  - apply replace_all_absent, H.
  - change (BACKTICK :: lit "``html") with (FENCE ++ lit "html").
    apply includes_longer, H.
Qed.

Lemma strip_fences_clean text : includes FENCE (strip_fences text) = false.
Proof.
  unfold strip_fences. apply includes_trim.
  apply (remove_fences_clean (S (length (remove_html_fences text)))). lia.
Qed.

(** *** Trimmed texts *)

Lemma trimStart_head s c r : trimStart s = c :: r -> is_space c = false.
Proof.
  induction s as [|x s IH]; simpl; [discriminate|].
  destruct (is_space x) eqn:E; [exact IH|]. intros [= <- _]. exact E.
Qed.

Lemma trimEnd_last l c : is_space c = false -> trimEnd (l ++ [c]) = l ++ [c].
Proof.
  intros H. unfold trimEnd. rewrite rev_app_distr. simpl. rewrite H. simpl.
  rewrite rev_involutive. reflexivity.
Qed.

Lemma trim_last s :
  trim s <> [] -> exists l c, trim s = l ++ [c] /\ is_space c = false.
Proof.
  intros Hne. unfold trim, trimEnd in *.
  set (y := trimStart (rev s)) in *.
  destruct (trimStart_suffix (rev y)) as [l0 Hl0].
  destruct (exists_last Hne) as (l & c & Hu).
  exists l, c. split; [exact Hu|].
  rewrite Hu in Hl0. apply (f_equal (@rev N)) in Hl0.
  rewrite rev_involutive, app_assoc, rev_app_distr in Hl0. simpl in Hl0.
  exact (trimStart_head _ _ _ Hl0).
Qed.

Lemma trim_fixed c1 r l c2 :
  c1 :: r = l ++ [c2] -> is_space c1 = false -> is_space c2 = false ->
  trim (c1 :: r) = c1 :: r.
Proof.
  intros E H1 H2. unfold trim. rewrite E, (trimEnd_last _ _ H2), <- E.
  simpl. rewrite H1. reflexivity.
Qed.

Lemma trim_trim s : trim (trim s) = trim s.
Proof.
  destruct (trim s) as [|c r] eqn:E; [reflexivity|].
  assert (trim s <> []) as Hne by (rewrite E; discriminate).
  destruct (trim_last s Hne) as (l & c2 & Hl & H2). rewrite E in Hl.
  apply (trim_fixed _ _ _ _ Hl); [|exact H2].
  unfold trim in E. exact (trimStart_head _ _ _ E).
Qed.

(** X17. A response without a triple backtick is only trimmed, and given
    the declaration line if it begins with neither [<!DOCTYPE] nor [<html];
    so a response that follows the instructions (no fence, no white space
    around it, [<!DOCTYPE] at its start) is written to [index.html] as it
    is. *)
Theorem clean_response_is_kept (text : JsString.t) :
  includes FENCE text = false ->
  clean_html text = ensure_doctype (trim text) /\
  (trim text = text -> startsWith DOCTYPE_PREFIX text = true ->
   clean_html text = text).
Proof.
  intros H.
  assert (clean_html text = ensure_doctype (trim text)) as E.
  { unfold clean_html, strip_fences. rewrite (remove_fences_absent _ H).
    reflexivity. }
  split; [exact E|]. intros Ht Hd. rewrite E, Ht. unfold ensure_doctype.
  rewrite Hd. reflexivity.
Qed.

Lemma startsWith_app p r : startsWith p (p ++ r) = true.
Proof. apply startsWith_spec. exists r. reflexivity. Qed.

(** X18. Cleaning is idempotent on every response that is not blank once
    its fences are removed: cleaning the artifact text again gives the
    artifact text. *)
Theorem clean_html_idempotent (text : JsString.t) :
  strip_fences text <> [] ->
  clean_html (clean_html text) = clean_html text.
Proof.
  intros Hne. set (u := strip_fences text) in *.
  assert (includes FENCE u = false) as Hu by apply strip_fences_clean.
  assert (exists l c, u = l ++ [c] /\ is_space c = false) as (l & c2 & El & H2)
    by (apply trim_last; exact Hne).
  destruct u as [|c1 r] eqn:Eu; [contradiction Hne; reflexivity|].
  assert (is_space c1 = false) as H1.
  { unfold u, strip_fences, trim in Eu. exact (trimStart_head _ _ _ Eu). }
  assert (trim (c1 :: r) = c1 :: r) as Ht by exact (trim_fixed _ _ _ _ El H1 H2).
  change (clean_html text) with (ensure_doctype (strip_fences text)).
  fold u. rewrite Eu. unfold ensure_doctype.
  destruct (negb (startsWith DOCTYPE_PREFIX (c1 :: r))
            && negb (startsWith HTML_PREFIX (c1 :: r))) eqn:Eg.
  - assert (includes FENCE (DOCTYPE_LINE ++ c1 :: r) = false) as Hw.
    { pose proof (ensure_doctype_clean _ Hu) as Hw. unfold ensure_doctype in Hw.
      rewrite Eg in Hw. exact Hw. }
    unfold clean_html, strip_fences. rewrite (remove_fences_absent _ Hw).
    assert (trim (DOCTYPE_LINE ++ c1 :: r) = DOCTYPE_LINE ++ c1 :: r) as ->.
    { apply (trim_fixed 60 (lit "!DOCTYPE html>" ++ [LF] ++ c1 :: r)
               (DOCTYPE_LINE ++ l) c2); [|reflexivity|exact H2].
      rewrite <- app_assoc, <- El. reflexivity. }
    unfold ensure_doctype.
    change DOCTYPE_LINE with (DOCTYPE_PREFIX ++ lit " html>" ++ [LF]).
    rewrite <- app_assoc, startsWith_app. reflexivity.
  - unfold clean_html, strip_fences. rewrite (remove_fences_absent _ Hu), Ht.
    unfold ensure_doctype. rewrite Eg. reflexivity.
Qed.

(** The exception: a blank response gives the declaration line alone, and
    cleaning that again drops the line's end. *)
Example blank_response :
  clean_html (lit "```html" ++ [LF] ++ lit "```" ++ [LF])
  = lit "<!DOCTYPE html>" ++ [LF] /\
  clean_html (lit "<!DOCTYPE html>" ++ [LF]) = lit "<!DOCTYPE html>".
Proof. vm_compute. split; reflexivity. Qed.

Lemma startsWith_differs p q s :
  length p = length q -> p <> q ->
  startsWith p s = true -> startsWith q s = false.
Proof.
  intros Hl Hne Hp. destruct (startsWith q s) eqn:Hq; [|reflexivity].
  apply startsWith_spec in Hp as [r1 ->]. apply startsWith_spec in Hq as [r2 E].
  exfalso. apply Hne. apply (f_equal (take (length p))) in E.
  rewrite take_app_length in E. rewrite Hl, take_app_length in E. exact E.
Qed.

(** X19. The test for a declaration is case-sensitive: a response that
    begins with [<!doctype], in small letters, is given a second
    declaration line in front. *)
Theorem small_doctype_is_doubled (text : JsString.t) :
  startsWith (lit "<!doctype") (strip_fences text) = true ->
  clean_html text = lit "<!DOCTYPE html>" ++ [LF] ++ strip_fences text.
Proof.
  intros H. unfold clean_html, ensure_doctype.
  rewrite (startsWith_differs (lit "<!doctype") DOCTYPE_PREFIX _ eq_refl) by
    (try discriminate; exact H).
  assert (startsWith HTML_PREFIX (strip_fences text) = false) as ->.
  { apply startsWith_spec in H as [r ->]. reflexivity. }
  reflexivity.
Qed.

(** *** Markers anywhere in the response *)

Lemma no_backtick_cons c s :
  no_backtick (c :: s) = true -> (c =? BACKTICK) = false /\ no_backtick s = true.
Proof.
  unfold no_backtick. simpl. intros H. apply andb_true_iff in H as [Hc Hs].
  apply negb_true_iff in Hc. split; assumption.
Qed.

Lemma no_backtick_app s t :
  no_backtick s = true -> no_backtick t = true -> no_backtick (s ++ t) = true.
Proof. unfold no_backtick. intros Hs Ht. rewrite forallb_app, Hs, Ht. reflexivity. Qed.

Lemma no_backtick_skip_newline s :
  no_backtick s = true -> no_backtick (skip_newline s) = true.
Proof.
  destruct s as [|c s]; [reflexivity|]. intros H. simpl.
  destruct (N.eqb c LF); [apply (no_backtick_cons _ _ H) | exact H].
Qed.

(** A character that is no backtick starts no match. *)
Lemma startsWith_other a p c s :
  (c =? a) = false -> startsWith (a :: p) (c :: s) = false.
Proof. intros H. simpl. rewrite N.eqb_sym, H. reflexivity. Qed.

(** A text without backticks is passed over by both replacements. *)
Lemma replace_all_plain p s t :
  no_backtick s = true ->
  replace_all BACKTICK p (s ++ t) = s ++ replace_all BACKTICK p t.
Proof.
  induction s as [|c s IH]; intros H; [reflexivity|].
  apply no_backtick_cons in H as [Hc Hs]. simpl.
  rewrite replace_all_keep by (apply startsWith_other, Hc).
  rewrite (IH Hs). reflexivity.
Qed.

Lemma skip_newline_remove_html_fences b :
  match b with
  | [] => True
  | c :: _ => (c =? BACKTICK) = false
  end ->
  skip_newline (remove_html_fences b) = remove_html_fences (skip_newline b).
Proof.
  destruct b as [|c b]; [reflexivity|]. intros Hc.
  rewrite remove_html_fences_keep by (apply startsWith_other, Hc).
  simpl. destruct (N.eqb c LF); [reflexivity|].
  rewrite remove_html_fences_keep by (apply startsWith_other, Hc). reflexivity.
Qed.

(** Both replacements, before the text is trimmed. *)
Lemma remove_tagged a b :
  no_backtick a = true ->
  remove_fences (remove_html_fences (a ++ FENCE_HTML ++ b))
  = remove_fences (remove_html_fences (a ++ skip_newline b)).
Proof.
  intros Ha. unfold remove_html_fences at 1 2.
  rewrite !(replace_all_plain _ a) by exact Ha.
  rewrite (replace_all_match BACKTICK (lit "``html") (FENCE_HTML ++ b)
             (skip_newline b)).
  - reflexivity.
  - unfold match_at.
    assert (strip_prefix (BACKTICK :: lit "``html") (FENCE_HTML ++ b) = Some b)
      as -> by (unlit; simpl; reflexivity).
    reflexivity.
Qed.

Lemma remove_bare a b :
  no_backtick a = true ->
  match b with
  | [] => True
  | c :: _ => (c =? BACKTICK) = false
  end ->
  startsWith (lit "html") b = false ->
  remove_fences (remove_html_fences (a ++ FENCE ++ b))
  = remove_fences (remove_html_fences (a ++ skip_newline b)).
Proof.
  intros Ha Hb Hh. unfold remove_html_fences at 1 2.
  rewrite !(replace_all_plain _ a) by exact Ha.
  fold remove_html_fences.
  assert (remove_html_fences (FENCE ++ b) = FENCE ++ remove_html_fences b) as ->.
  { change (FENCE ++ b) with (BACKTICK :: BACKTICK :: BACKTICK :: b).
    assert (startsWith FENCE_HTML (BACKTICK :: BACKTICK :: BACKTICK :: b) = false)
      as H0.
    { change FENCE_HTML with (BACKTICK :: BACKTICK :: BACKTICK :: lit "html").
      cbn [startsWith]. rewrite !N.eqb_refl. exact Hh. }
    assert (startsWith FENCE_HTML (BACKTICK :: BACKTICK :: b) = false) as H1.
    { destruct b as [|c b]; [reflexivity|]. unlit. simpl.
      rewrite (N.eqb_sym 96 c), Hb. reflexivity. }
    assert (startsWith FENCE_HTML (BACKTICK :: b) = false) as H2.
    { destruct b as [|c b]; [reflexivity|]. unlit. simpl.
      rewrite (N.eqb_sym 96 c), Hb. reflexivity. }
    rewrite (remove_html_fences_keep _ _ H0), (remove_html_fences_keep _ _ H1),
      (remove_html_fences_keep _ _ H2). reflexivity. }
  unfold remove_fences.
  rewrite !(replace_all_plain _ a) by exact Ha.
  rewrite (replace_all_match BACKTICK (lit "``") (FENCE ++ remove_html_fences b)
             (skip_newline (remove_html_fences b))).
  - rewrite (skip_newline_remove_html_fences b Hb). reflexivity.
  - reflexivity.
Qed.

Lemma remove_plain s :
  no_backtick s = true -> remove_fences (remove_html_fences s) = s.
Proof.
  intros H. unfold remove_html_fences, remove_fences.
  rewrite <- (app_nil_r s), !(replace_all_plain _ s) by exact H.
  rewrite !replace_all_nil. reflexivity.
Qed.

(** What follows a marker, the texts being as [well_marked] has them. *)
Lemma with_markers_head s rest :
  no_backtick s = true ->
  match rest, s with
  | _ :: _, [] => false
  | _, _ => true
  end = true ->
  match with_markers s rest with
  | [] => True
  | c :: _ => (c =? BACKTICK) = false
  end.
Proof.
  intros Hs Hne. destruct s as [|c s].
  - destruct rest as [|[m t] rest]; [exact I | discriminate Hne].
  - destruct rest as [|[m t] rest]; simpl; apply (no_backtick_cons _ _ Hs).
Qed.

Lemma with_markers_html s rest :
  no_backtick s = true ->
  startsWith (lit "html") s = false ->
  startsWith (lit "html") (with_markers s rest) = false.
Proof.
  intros Hs Hh. destruct rest as [|[m t] rest]; [exact Hh|]. simpl.
  assert (forall u, startsWith (lit "html") (s ++ BACKTICK :: u) = false) as H.
  { intros u. revert Hh. change (lit "html") with [104; 116; 109; 108].
    unlit. destruct s as [|c1 [|c2 [|c3 [|c4 s]]]]; simpl;
      rewrite ?andb_false_r; try reflexivity; intros H; exact H. }
  destruct m; apply H.
Qed.

Lemma with_markers_skip_newline s rest :
  match rest, s with
  | _ :: _, [] => false
  | _, _ => true
  end = true ->
  skip_newline (with_markers s rest) = with_markers (skip_newline s) rest.
Proof.
  intros Hne. destruct s as [|c s].
  - destruct rest as [|[m t] rest]; [reflexivity | discriminate Hne].
  - destruct rest as [|[m t] rest]; simpl; destruct (N.eqb c LF); reflexivity.
Qed.

Lemma with_markers_app a s rest :
  with_markers (a ++ s) rest = a ++ with_markers s rest.
Proof. destruct rest as [|[m t] rest]; simpl; rewrite <- ?app_assoc; reflexivity. Qed.

Lemma without_markers_app a s rest :
  without_markers (a ++ s) rest = a ++ without_markers s rest.
Proof. destruct rest as [|[m t] rest]; simpl; rewrite <- ?app_assoc; reflexivity. Qed.

(** Both replacements take the markers out of a response, and nothing
    else. *)
Lemma remove_markers head rest :
  no_backtick head = true -> well_marked rest = true ->
  remove_fences (remove_html_fences (with_markers head rest))
  = without_markers head rest.
Proof.
  revert head; induction rest as [|[m s] rest IH]; intros head Hh Hw.
  - apply remove_plain, Hh.
  - simpl in Hw. apply andb_true_iff in Hw as [Hw Hrest].
    apply andb_true_iff in Hw as [Hw Hm]. apply andb_true_iff in Hw as [Hs Hne].
    cbn [with_markers without_markers].
    assert (remove_fences (remove_html_fences
              (head ++ marker_text m ++ with_markers s rest))
            = remove_fences (remove_html_fences
                (head ++ skip_newline (with_markers s rest)))) as ->.
    { destruct m.
      - apply remove_tagged, Hh.
      - apply remove_bare; [exact Hh | apply with_markers_head; assumption|].
        apply with_markers_html; [exact Hs|]. apply negb_true_iff, Hm. }
    rewrite (with_markers_skip_newline _ _ Hne), <- with_markers_app.
    rewrite IH.
    + apply without_markers_app.
    + apply no_backtick_app; [exact Hh | apply no_backtick_skip_newline, Hs].
    + exact Hrest.
Qed.

(** ** The history store *)

Lemma loadHistory_spec io fs : loadHistory io fs = (fs, Return (loaded io fs)).
Proof.
  unfold loaded. run. destruct (fs !! HISTORY_FILE) as [[v|s|b]|];
    destruct (read_error io); reflexivity.
Qed.

Lemma str_eqb_refl k : str_eqb k k = true.
Proof. induction k as [|c k IH]; simpl; [reflexivity|]. rewrite N.eqb_refl. exact IH. Qed.

Lemma get_set_prop k v o : get_prop k (set_prop k v o) = Some v.
Proof.
  induction o as [|[k' v'] o IH]; simpl.
  - rewrite str_eqb_refl. reflexivity.
  - destruct (str_eqb k k') eqn:E; simpl.
    + rewrite str_eqb_refl. reflexivity.
    + rewrite E. exact IH.
Qed.

Lemma slice_cap {A} (l : list A) :
  (if (100 <? length l)%nat then slice0 100 l else l) = take 100 l.
Proof.
  unfold slice0. destruct (Nat.ltb_spec 100 (length l)); [reflexivity|].
  symmetry. apply firstn_all2. lia.
Qed.

Lemma stored_sessions_saved fs members sessions :
  get_prop SESSIONS members = Some (JArr sessions) ->
  stored_sessions (<[HISTORY_FILE := Json (JObj members)]> fs) = sessions.
Proof.
  intros H. unfold stored_sessions. rewrite loadHistory_spec. unfold loaded.
  rewrite lookup_insert_eq. simpl. rewrite H. reflexivity.
Qed.

Lemma loaded_shape io fs :
  well_shaped fs ->
  exists members sessions,
    loaded io fs = JObj members /\
    get_prop SESSIONS members = Some (JArr sessions).
Proof.
  unfold well_shaped, loaded. intros H.
  destruct (fs !! HISTORY_FILE) as [[v|s|b]|];
    try (exists [(SESSIONS, JArr [])], []; split; reflexivity).
  destruct (read_error io);
    [exists [(SESSIONS, JArr [])], []; split; reflexivity | exact H].
Qed.

(** One append, on a well-shaped store: the file is rewritten with the new
    session in front, unless the write fails. *)
Lemma addToHistory_spec session io fs :
  well_shaped fs ->
  exists members sessions,
    loaded io fs = JObj members /\
    get_prop SESSIONS members = Some (JArr sessions) /\
    addToHistory session io fs =
      (match write_error io with
       | Some _ => fs
       | None =>
           <[HISTORY_FILE :=
               Json (JObj (set_prop SESSIONS
                             (JArr (take 100 (session :: sessions))) members))]> fs
       end, Return tt).
Proof.
  intros Hfs. destruct (loaded_shape io fs Hfs) as (members & sessions & Hl & Hs).
  exists members, sessions. split; [exact Hl|]. split; [exact Hs|].
  unfold addToHistory, bind. rewrite loadHistory_spec, Hl, Hs, slice_cap.
  run. destruct (write_error io); reflexivity.
Qed.

Lemma addToHistory_shape session io fs :
  well_shaped fs -> well_shaped (fst (addToHistory session io fs)).
Proof.
  intros Hfs. destruct (addToHistory_spec session io fs Hfs)
    as (members & sessions & _ & _ & ->). simpl.
  destruct (write_error io); [exact Hfs|].
  unfold well_shaped. rewrite lookup_insert_eq.
  eexists _, _. split; [reflexivity | apply get_set_prop].
Qed.

Lemma appends_shape ops fs : well_shaped fs -> well_shaped (appends ops fs).
Proof.
  revert fs; induction ops as [|[session io] ops IH]; intros fs Hfs; simpl;
    [exact Hfs|].
  apply IH, addToHistory_shape, Hfs.
Qed.

Lemma stored_sessions_loaded fs members sessions :
  loaded reliable fs = JObj members ->
  get_prop SESSIONS members = Some (JArr sessions) ->
  stored_sessions fs = sessions.
Proof.
  intros Hl Hs. unfold stored_sessions. rewrite loadHistory_spec, Hl, Hs.
  reflexivity.
Qed.

Lemma addToHistory_capped session io fs :
  (length (stored_sessions fs) <= 100)%nat ->
  (length (stored_sessions (fst (addToHistory session io fs))) <= 100)%nat.
Proof.
  intros Hfs. unfold addToHistory, bind. rewrite loadHistory_spec.
  destruct (loaded io fs) as [| | | | |members]; try exact Hfs.
  destruct (get_prop SESSIONS members) as [[| | | |sessions|]|]; try exact Hfs.
  rewrite slice_cap. run. destruct (write_error io); [exact Hfs|]. simpl.
  rewrite (stored_sessions_saved _ _ (take 100 (session :: sessions)))
    by apply get_set_prop.
  rewrite length_take. lia.
Qed.

Lemma appends_capped ops fs :
  (length (stored_sessions fs) <= 100)%nat ->
  (length (stored_sessions (appends ops fs)) <= 100)%nat.
Proof.
  revert fs; induction ops as [|[session io] ops IH]; intros fs Hfs; simpl;
    [exact Hfs|].
  apply IH, addToHistory_capped, Hfs.
Qed.

Lemma addToHistory_front session io fs :
  well_shaped fs -> read_error io = None -> write_error io = None ->
  snd (addToHistory session io fs) = Return tt /\
  stored_sessions (fst (addToHistory session io fs))
  = take 100 (session :: stored_sessions fs).
Proof.
  intros Hfs Hr Hw. destruct (addToHistory_spec session io fs Hfs)
    as (members & sessions & Hl & Hs & ->). rewrite Hw. cbn [fst snd].
  split; [reflexivity|].
  rewrite (stored_sessions_saved _ _ (take 100 (session :: sessions)))
    by apply get_set_prop.
  assert (loaded reliable fs = loaded io fs) as Hio.
  { unfold loaded. rewrite Hr. reflexivity. }
  rewrite (stored_sessions_loaded fs members sessions); congruence.
Qed.

Lemma take_app_take {A} (n : nat) (l m : list A) :
  take n (l ++ take n m) = take n (l ++ m).
Proof.
  rewrite !take_app, take_take. f_equal. f_equal. lia.
Qed.

Lemma empty_well_shaped (fs : filesystem) : empty_store fs -> well_shaped fs.
Proof.
  unfold well_shaped. intros [-> | ->]; [exact I|].
  exists [(SESSIONS, JArr [])], []. split; reflexivity.
Qed.

Lemma empty_stored_sessions (fs : filesystem) :
  empty_store fs -> stored_sessions fs = [].
Proof.
  intros H. unfold stored_sessions. rewrite loadHistory_spec. unfold loaded.
  destruct H as [-> | ->]; reflexivity.
Qed.

(** With every read and write served, the store holds the sessions of the
    run, the last appended first, cut to a hundred. *)
Lemma appends_reliable ops fs :
  well_shaped fs ->
  (length (stored_sessions fs) <= 100)%nat ->
  Forall (fun op => read_error (snd op) = None /\ write_error (snd op) = None) ops ->
  stored_sessions (appends ops fs)
  = take 100 (rev (map fst ops) ++ stored_sessions fs).
Proof.
  revert fs; induction ops as [|[session io] ops IH]; intros fs Hfs Hlen Hops.
  - simpl. symmetry. apply firstn_all2. exact Hlen.
  - inversion Hops as [|? ? [Hr Hw] Hops']; subst. simpl in Hr, Hw.
    cbn [appends map fst rev].
    rewrite IH.
    + destruct (addToHistory_front session io fs Hfs Hr Hw) as [_ ->].
      rewrite take_app_take, <- app_assoc. reflexivity.
    + apply addToHistory_shape, Hfs.
    + apply addToHistory_capped, Hlen.
    + exact Hops'.
Qed.

(** C1. For every run of appends that starts from an empty history (no
    file, or the document without sessions), whatever faults the reads and
    writes meet, the stored list of sessions never has more than 100
    entries; and after any further append whose read and write are served,
    the session just appended is at index 0, followed by the sessions stored
    before, in their order, the list being cut to its first 100 entries.
    When every append of the run is served, the store is the run read
    backwards, most recent first, cut to 100. *)
Theorem history_capped_most_recent_first
  (ops : list (json * history_io)) (fs0 : filesystem) :
  empty_store fs0 ->
  let fs := appends ops fs0 in
  (length (stored_sessions fs) <= 100)%nat /\
  (forall session io,
     read_error io = None -> write_error io = None ->
     let after := addToHistory session io fs in
     snd after = Return tt /\
     stored_sessions (fst after) !! 0%nat = Some session /\
     stored_sessions (fst after) = take 100 (session :: stored_sessions fs) /\
     (length (stored_sessions (fst after)) <= 100)%nat) /\
  (Forall (fun op => read_error (snd op) = None /\ write_error (snd op) = None) ops ->
   stored_sessions fs = take 100 (rev (map fst ops))).
Proof.
  intros H0 fs.
  assert (well_shaped fs) as Hshape
    by apply appends_shape, empty_well_shaped, H0.
  assert (length (stored_sessions fs) <= 100)%nat as Hcap.
  { apply appends_capped. rewrite (empty_stored_sessions _ H0). simpl. lia. }
  split; [exact Hcap|]. split.
  - intros session io Hr Hw after.
    destruct (addToHistory_front session io fs Hshape Hr Hw) as [Hret Hst].
    fold after in Hret, Hst. split; [exact Hret|]. rewrite Hst.
    split; [reflexivity|]. split; [reflexivity|].
    rewrite length_take. lia.
  - intros Hops. subst fs. rewrite appends_reliable.
    + rewrite (empty_stored_sessions _ H0), app_nil_r. reflexivity.
    + apply empty_well_shaped, H0.
    + rewrite (empty_stored_sessions _ H0). simpl. lia.
    + exact Hops.
Qed.

Lemma history_capped_witness :
  empty_store ∅ /\
  let fs := appends [(JStr (lit "first"), reliable); (JStr (lit "second"), reliable)] ∅ in
  (length (stored_sessions fs) <= 100)%nat /\
  (forall session io,
     read_error io = None -> write_error io = None ->
     let after := addToHistory session io fs in
     snd after = Return tt /\
     stored_sessions (fst after) !! 0%nat = Some session /\
     stored_sessions (fst after) = take 100 (session :: stored_sessions fs) /\
     (length (stored_sessions (fst after)) <= 100)%nat) /\
  (Forall (fun op => read_error (snd op) = None /\ write_error (snd op) = None)
     [(JStr (lit "first"), reliable); (JStr (lit "second"), reliable)] ->
   stored_sessions fs
   = take 100 (rev (map fst [(JStr (lit "first"), reliable);
                             (JStr (lit "second"), reliable)]))).
Proof.
  assert (empty_store ∅) as H by (left; reflexivity).
  split; [exact H|].
  exact (history_capped_most_recent_first
           [(JStr (lit "first"), reliable); (JStr (lit "second"), reliable)] ∅ H).
Defined.

Example two_appends :
  stored_sessions
    (appends [(JStr (lit "first"), reliable); (JStr (lit "second"), reliable)] ∅)
  = [JStr (lit "second"); JStr (lit "first")].
Proof. vm_compute. reflexivity. Qed.

(** A failed write leaves the history as it was: the append is lost. *)
Example append_write_fault :
  stored_sessions
    (appends [(JStr (lit "first"), reliable);
              (JStr (lit "second"),
               {| read_error := None; write_error := Some type_error |})] ∅)
  = [JStr (lit "first")].
Proof. vm_compute. reflexivity. Qed.

(** C4. If the history file is missing, or reading it fails, or what it
    holds does not parse ([JSON.parse] throws), [loadHistory] returns the
    document with an empty [sessions] list; it does not throw, and leaves
    the file system as it is. *)
Theorem load_missing_or_corrupt (io : history_io) (fs : filesystem) :
  fs !! HISTORY_FILE = None \/
  (exists data e, fs !! HISTORY_FILE = Some data /\
                  JSON_parse data fs = (fs, Throw e)) \/
  is_Some (read_error io) ->
  loadHistory io fs = (fs, Return (JObj [(lit "sessions", JArr [])])).
Proof.
  intros H. rewrite loadHistory_spec. unfold loaded. f_equal. f_equal.
  destruct H as [-> | [(data & e & -> & Hp) | [e ->]]].
  - reflexivity.
  - destruct data; [discriminate| |]; destruct (read_error io); reflexivity.
  - destruct (fs !! HISTORY_FILE) as [[]|]; reflexivity.
Qed.

Lemma load_missing_or_corrupt_witness :
  ((∅ : filesystem) !! HISTORY_FILE = None \/
   (exists data e, (∅ : filesystem) !! HISTORY_FILE = Some data /\
                   JSON_parse data ∅ = (∅, Throw e)) \/
   is_Some (read_error reliable)) /\
  loadHistory reliable ∅ = (∅, Return (JObj [(lit "sessions", JArr [])])).
Proof.
  assert ((∅ : filesystem) !! HISTORY_FILE = None \/
   (exists data e, (∅ : filesystem) !! HISTORY_FILE = Some data /\
                   JSON_parse data ∅ = (∅, Throw e)) \/
   is_Some (read_error reliable)) as H by (left; reflexivity).
  split; [exact H|]. exact (load_missing_or_corrupt reliable ∅ H).
Defined.

(** A file that parses is returned as it is, whatever its shape. *)
Example load_other_document :
  snd (loadHistory reliable {[ HISTORY_FILE := Json (JArr []) ]})
  = Return (JArr []).
Proof. vm_compute. reflexivity. Qed.

Example load_truncated_file :
  snd (loadHistory reliable {[ HISTORY_FILE := Text (lit "{ sessions: [") ]})
  = Return empty_history.
Proof. vm_compute. reflexivity. Qed.

(** *** The history route *)

Lemma get_history_served fs io :
  well_shaped fs -> read_error io = None ->
  get_history io fs
  = (fs, Return {| status := 200;
                   body := JObj [(lit "success", JBool true);
                                 (lit "sessions", JArr (stored_sessions fs));
                                 (lit "total",
                                  JNum (of_Z (Z.of_nat (length (stored_sessions fs)))))] |}).
Proof.
  intros Hfs Hr. destruct (loaded_shape io fs Hfs) as (members & sessions & Hl & Hs).
  assert (loaded reliable fs = loaded io fs) as Hio
    by (unfold loaded; rewrite Hr; reflexivity).
  rewrite (stored_sessions_loaded fs members sessions) by congruence.
  unfold get_history, try_catch, bind. rewrite loadHistory_spec, Hl.
  cbn [sessions_of ret]. rewrite Hs. reflexivity.
Qed.

(** X1. [GET /history] always answers and never writes: whatever the
    history file holds and whether or not it can be read, the handler
    returns a reply, 200 with [success: true] or 500 with the fixed failure
    body, and leaves the file system as it found it. *)
Theorem history_route_answers (io : history_io) (fs : filesystem) :
  exists r,
    get_history io fs = (fs, Return r) /\
    ((status r = 200%Z /\ json_get "success" (body r) = Some (JBool true)) \/
     (status r = 500%Z /\
      body r = JObj [(lit "success", JBool false);
                     (lit "error", JStr (lit "Failed to retrieve history"))])).
Proof.
  unfold get_history, try_catch, bind. rewrite loadHistory_spec.
  destruct (loaded io fs) as [|b|x|s|items|members]; cbn [sessions_of ret throw];
    try (eexists; split; [reflexivity|]; right; split; reflexivity).
  destruct (get_prop SESSIONS members) as [[|b|x|s|items|inner]|]; cbn;
    try (eexists; split; [reflexivity|]; right; split; reflexivity);
    eexists; (split; [reflexivity|]); left; split; reflexivity.
Qed.

(** X2. When the history file is missing, cannot be read or does not
    parse, [GET /history] does not report an error: it answers 200 with an
    empty list of sessions and a total of zero. *)
Theorem history_route_without_file (io : history_io) (fs : filesystem) :
  fs !! HISTORY_FILE = None \/
  (exists data e, fs !! HISTORY_FILE = Some data /\
                  JSON_parse data fs = (fs, Throw e)) \/
  is_Some (read_error io) ->
  get_history io fs
  = (fs, Return {| status := 200;
                   body := JObj [(lit "success", JBool true);
                                 (lit "sessions", JArr []);
                                 (lit "total", JNum (of_Z 0))] |}).
Proof.
  intros H.
  assert (loaded io fs = empty_history) as Hl.
  { unfold loaded. destruct H as [-> | [(data & e & -> & Hp) | [e ->]]].
    - reflexivity.
    - destruct data; [discriminate| |]; destruct (read_error io); reflexivity.
    - destruct (fs !! HISTORY_FILE) as [[]|]; reflexivity. }
  unfold get_history, try_catch, bind. rewrite loadHistory_spec, Hl. reflexivity.
Qed.

(** X3. After any run of appends that starts from an empty history,
    whatever faults the appends met, a served [GET /history] answers 200
    with the stored sessions, of which there are at most 100, and a [total]
    that is their number. *)
Theorem history_route_after_appends
  (ops : list (json * history_io)) (fs0 : filesystem) (io : history_io) :
  empty_store fs0 -> read_error io = None ->
  let fs := appends ops fs0 in
  let sessions := stored_sessions fs in
  get_history io fs
  = (fs, Return {| status := 200;
                   body := JObj [(lit "success", JBool true);
                                 (lit "sessions", JArr sessions);
                                 (lit "total",
                                  JNum (of_Z (Z.of_nat (length sessions))))] |}) /\
  (length sessions <= 100)%nat.
Proof.
  intros H0 Hr fs sessions. split.
  - apply get_history_served; [|exact Hr].
    apply appends_shape, empty_well_shaped, H0.
  - apply appends_capped. rewrite (empty_stored_sessions _ H0). simpl. lia.
Qed.


(** *** Members of the history document *)

Lemma str_eqb_eq a b : str_eqb a b = true -> a = b.
Proof.
  revert b; induction a as [|x a IH]; intros [|y b]; simpl; try discriminate.
  - reflexivity.
  - intros H. apply andb_true_iff in H as [Hx Hab].
    apply N.eqb_eq in Hx. rewrite Hx, (IH b Hab). reflexivity.
Qed.

Lemma get_set_prop_other k k' v o :
  str_eqb k k' = false -> get_prop k (set_prop k' v o) = get_prop k o.
Proof.
  intros Hk. induction o as [|[k0 v0] o IH]; simpl.
  - rewrite Hk. reflexivity.
  - destruct (str_eqb k' k0) eqn:E; simpl.
    + apply str_eqb_eq in E. subst k0. rewrite Hk. reflexivity.
    + destruct (str_eqb k k0); [reflexivity | exact IH].
Qed.

Lemma get_prop_writable k o v :
  forallb (fun member => writable (snd member)) o = true ->
  get_prop k o = Some v -> writable v = true.
Proof.
  induction o as [|[k0 w] o IH]; simpl; [discriminate|].
  intros H. apply andb_true_iff in H as [Hw Ho].
  destruct (str_eqb k k0); [intros [= <-]; exact Hw | apply IH, Ho].
Qed.

Lemma set_prop_writable k v o :
  writable v = true ->
  forallb (fun member => writable (snd member)) o = true ->
  forallb (fun member => writable (snd member)) (set_prop k v o) = true.
Proof.
  intros Hv. induction o as [|[k0 w] o IH]; simpl.
  - intros _. rewrite Hv. reflexivity.
  - intros H. apply andb_true_iff in H as [Hw Ho].
    destruct (str_eqb k k0); simpl.
    + rewrite Hv. exact Ho.
    + rewrite Hw. apply IH, Ho.
Qed.

Lemma take_writable n (items : list json) :
  forallb writable items = true -> forallb writable (take n items) = true.
Proof.
  revert n; induction items as [|v items IH]; intros [|n]; simpl;
    try reflexivity.
  intros H. apply andb_true_iff in H as [Hv Hi]. rewrite Hv. apply IH, Hi.
Qed.

(** X5. An append that is served rewrites only the [sessions] member of
    the history document.  For a document and a session that are written
    to the file as they are (no number that is not finite, no negative
    zero), the new document holds the session before the earlier ones,
    at most a hundred in all; every other member keeps its value; no
    member is added and none is dropped; and the new document is again
    written as it is.  The order in which the members are written is left
    open. *)
Theorem append_keeps_other_members
  (session : json) (io : history_io) (fs : filesystem)
  (members : list (JsString.t * json)) (sessions : list json) :
  fs !! HISTORY_FILE = Some (Json (JObj members)) ->
  get_prop SESSIONS members = Some (JArr sessions) ->
  writable (JObj members) = true -> writable session = true ->
  read_error io = None -> write_error io = None ->
  exists members',
    addToHistory session io fs
    = (<[HISTORY_FILE := Json (JObj members')]> fs, Return tt) /\
    get_prop SESSIONS members' = Some (JArr (take 100 (session :: sessions))) /\
    (forall k, str_eqb k SESSIONS = false ->
               get_prop k members' = get_prop k members) /\
    (forall k, is_Some (get_prop k members') <-> is_Some (get_prop k members)) /\
    writable (JObj members') = true.
Proof.
  intros Hf Hs Hm Hv Hr Hw.
  exists (set_prop SESSIONS (JArr (take 100 (session :: sessions))) members).
  split; [|split; [apply get_set_prop | split; [|split]]].
  - unfold addToHistory, bind. rewrite loadHistory_spec. unfold loaded.
    rewrite Hf, Hr, Hs, slice_cap. run. rewrite Hw. reflexivity.
  - intros k Hk. apply get_set_prop_other, Hk.
  - intros k. destruct (str_eqb k SESSIONS) eqn:Hk.
    + apply str_eqb_eq in Hk. subst k. rewrite get_set_prop, Hs.
      split; intros _; eexists; reflexivity.
    + rewrite (get_set_prop_other _ _ _ _ Hk). reflexivity.
  - cbn [writable] in Hm |- *. apply set_prop_writable; [|exact Hm].
    cbn [writable]. apply take_writable. cbn [forallb]. rewrite Hv.
    exact (get_prop_writable _ _ _ Hm Hs).
Qed.

(** X6. When the history cannot be loaded while a session is appended (the
    file is missing, does not parse, or the read fails though the file is
    intact), the append starts from an empty history: the file is rewritten
    with the new session alone, and whatever sessions it held are gone. *)
Theorem append_to_unreadable_history
  (session : json) (io : history_io) (fs : filesystem) :
  fs !! HISTORY_FILE = None \/
  (exists data e, fs !! HISTORY_FILE = Some data /\
                  JSON_parse data fs = (fs, Throw e)) \/
  is_Some (read_error io) ->
  write_error io = None ->
  addToHistory session io fs
  = (<[HISTORY_FILE := Json (JObj [(lit "sessions", JArr [session])])]> fs,
     Return tt) /\
  stored_sessions (fst (addToHistory session io fs)) = [session].
Proof.
  intros H Hw.
  assert (loaded io fs = empty_history) as Hl.
  { unfold loaded. destruct H as [-> | [(data & e & -> & Hp) | [e ->]]].
    - reflexivity.
    - destruct data; [discriminate| |]; destruct (read_error io); reflexivity.
    - destruct (fs !! HISTORY_FILE) as [[]|]; reflexivity. }
  assert (addToHistory session io fs
          = (<[HISTORY_FILE := Json (JObj [(lit "sessions", JArr [session])])]> fs,
             Return tt)) as Ha.
  { unfold addToHistory, bind. rewrite loadHistory_spec, Hl. run. rewrite Hw.
    reflexivity. }
  split; [exact Ha|]. rewrite Ha. cbn [fst].
  apply stored_sessions_saved. reflexivity.
Qed.

Lemma well_shaped_same (fs fs' : filesystem) :
  fs' !! HISTORY_FILE = fs !! HISTORY_FILE -> well_shaped fs -> well_shaped fs'.
Proof. unfold well_shaped. intros ->. exact id. Qed.

(** An append throws exactly on a document that parses and is no object
    with a [sessions] array; the file is then left as it is. *)
Lemma addToHistory_misshapen session io fs v :
  fs !! HISTORY_FILE = Some (Json v) -> read_error io = None ->
  (forall sessions, json_get "sessions" v <> Some (JArr sessions)) ->
  addToHistory session io fs = (fs, Throw type_error).
Proof.
  intros Hf Hr Hv. unfold addToHistory, bind. rewrite loadHistory_spec.
  unfold loaded. rewrite Hf, Hr.
  destruct v as [|b|x|s|items|members]; try reflexivity.
  cbn [json_get] in Hv. change (lit "sessions") with SESSIONS in Hv.
  destruct (get_prop SESSIONS members) as [[|b|x|s|items|inner]|];
    try reflexivity.
  exfalso. exact (Hv items eq_refl).
Qed.


Lemma addToHistory_returned_shape session io fs fs2 :
  addToHistory session io fs = (fs2, Return tt) ->
  write_error io = None ->
  well_shaped fs2.
Proof.
  unfold addToHistory, bind. rewrite loadHistory_spec.
  destruct (loaded io fs) as [| | | | |members]; try discriminate.
  destruct (get_prop SESSIONS members) as [[| | | |sessions|]|];
    try discriminate.
  rewrite slice_cap. intros H Hw. revert H. run. rewrite Hw. simpl.
  intros [= <-]. unfold well_shaped. rewrite lookup_insert_eq.
  eexists _, _. split; [reflexivity | apply get_set_prop].
Qed.


(** ** Accuracy of the cost arithmetic

    The cost of [a] tokens is [a / 1000000 * 15] in binary64: a division
    and a multiplication, each rounded.  Each result is within one unit in
    the last place of the exact one, which is enough for [toFixed(6)] to
    give the exact number of millionths. *)

Section Accuracy.

Local Open Scope Z_scope.

(** *** Binary digits *)

Lemma digits2_bounds (m : positive) :
  2 ^ (Zpos (digits2_pos m) - 1) <= Zpos m < 2 ^ Zpos (digits2_pos m).
Proof.
  induction m as [m IH|m IH|]; cbn [digits2_pos].
  - rewrite Pos2Z.inj_succ.
    replace (Z.succ (Zpos (digits2_pos m)) - 1) with (Z.succ (Zpos (digits2_pos m) - 1)) by lia.
    rewrite !Z.pow_succ_r by lia. lia.
  - rewrite Pos2Z.inj_succ.
    replace (Z.succ (Zpos (digits2_pos m)) - 1) with (Z.succ (Zpos (digits2_pos m) - 1)) by lia.
    rewrite !Z.pow_succ_r by lia. lia.
  - simpl. lia.
Qed.

Lemma digits2_unique (m : positive) (d : Z) :
  2 ^ (d - 1) <= Zpos m < 2 ^ d -> Zpos (digits2_pos m) = d.
Proof.
  intros [Hlo Hhi]. pose proof (digits2_bounds m) as [Blo Bhi].
  set (d' := Zpos (digits2_pos m)) in *.
  destruct (Z.lt_trichotomy d' d) as [Hlt | [Heq | Hgt]]; [|exact Heq|].
  - assert (2 ^ d' <= 2 ^ (d - 1)) by (apply Z.pow_le_mono_r; lia). lia.
  - assert (0 <= d).
    { destruct (Z.le_gt_cases 0 d) as [|Hneg]; [assumption|].
      rewrite (Z.pow_neg_r 2 d Hneg) in Hhi. lia. }
    assert (2 ^ d <= 2 ^ (d' - 1)) by (apply Z.pow_le_mono_r; lia). lia.
Qed.

(** *** Shifting right *)

Lemma iter_pos_nat {A} (f : A -> A) (p : positive) (x : A) :
  SpecFloat.iter_pos f p x = Nat.iter (Pos.to_nat p) f x.
Proof.
  revert x; induction p as [p IH|p IH|]; intros x; cbn [SpecFloat.iter_pos].
  - rewrite !IH, Pos2Nat.inj_xI, Nat.iter_succ_r.
    replace (2 * Pos.to_nat p)%nat with (Pos.to_nat p + Pos.to_nat p)%nat by lia.
    rewrite Nat.iter_add. reflexivity.
  - rewrite !IH, Pos2Nat.inj_xO.
    replace (2 * Pos.to_nat p)%nat with (Pos.to_nat p + Pos.to_nat p)%nat by lia.
    rewrite Nat.iter_add. reflexivity.
  - reflexivity.
Qed.

Lemma shr_1_m (mrs : shr_record) :
  0 <= shr_m mrs -> shr_m (shr_1 mrs) = shr_m mrs / 2.
Proof.
  destruct mrs as [m r s]. cbn [shr_m]. intros Hm.
  destruct m as [|[p|p|]|p]; cbn [shr_1 shr_m].
  - reflexivity.
  - rewrite (Pos2Z.inj_xI p). apply Z.div_unique with (r := 1); lia.
  - rewrite (Pos2Z.inj_xO p). apply Z.div_unique with (r := 0); lia.
  - reflexivity.
  - lia.
Qed.

Lemma shr_m_iter (n : nat) (mrs : shr_record) :
  0 <= shr_m mrs ->
  shr_m (Nat.iter n shr_1 mrs) = shr_m mrs / 2 ^ Z.of_nat n.
Proof.
  intros Hm. induction n as [|n IH].
  - simpl. rewrite Z.div_1_r. reflexivity.
  - rewrite Nat.iter_succ, shr_1_m.
    + rewrite IH, Nat2Z.inj_succ, Z.pow_succ_r by lia.
      rewrite Z.div_div by lia. f_equal. lia.
    + rewrite IH. apply Z.div_pos; lia.
Qed.

Lemma shr_spec (mrs : shr_record) (e k : Z) :
  0 <= shr_m mrs -> 0 <= k ->
  exists mrs', shr mrs e k = (mrs', e + k) /\ shr_m mrs' = shr_m mrs / 2 ^ k.
Proof.
  intros Hm Hk. destruct k as [|p|p]; [| |lia].
  - exists mrs. cbn [shr]. rewrite Z.add_0_r, Z.div_1_r. split; reflexivity.
  - exists (SpecFloat.iter_pos shr_1 p mrs). cbn [shr]. split; [reflexivity|].
    rewrite iter_pos_nat, shr_m_iter by exact Hm.
    rewrite positive_nat_Z. reflexivity.
Qed.

Lemma shr_m_of_loc (m : Z) (l : location) : shr_m (shr_record_of_loc m l) = m.
Proof. destruct l as [|[]]; reflexivity. Qed.

Lemma round_nearest_even_bounds (m : Z) (l : location) :
  m <= round_nearest_even m l <= m + 1.
Proof.
  destruct l as [|[]]; cbn [round_nearest_even]; try lia.
  destruct (Z.even m); lia.
Qed.

(** *** Rounding a mantissa of at least 53 bits *)

Lemma fexp_normal (e : Z) : -1074 <= e - 53 -> fexp PREC EMAX e = e - 53.
Proof. unfold fexp, emin, PREC, EMAX. lia. Qed.

Lemma binary_round_aux_coarse (mx : positive) (ex : Z) (lx : location) :
  let k := Zpos (digits2_pos mx) - 53 in
  0 <= k -> -1074 <= ex + k -> ex + k + 1 <= 971 ->
  exists (m : positive) (e m1 : Z),
    binary_round_aux PREC EMAX false (Zpos mx) ex lx = S754_finite false m e /\
    Zpos mx / 2 ^ k <= m1 <= Zpos mx / 2 ^ k + 1 /\
    2 ^ 52 <= m1 /\
    Zpos (digits2_pos m) = 53 /\
    ((Zpos m = m1 /\ e = ex + k) \/
     (m1 = 2 ^ 53 /\ Zpos m = 2 ^ 52 /\ e = ex + k + 1)).
Proof.
  intros k Hk Hlo Hhi.
  pose proof (digits2_bounds mx) as [Blo Bhi].
  set (D := Zpos (digits2_pos mx)) in *.
  assert (2 ^ 52 <= Zpos mx / 2 ^ k < 2 ^ 53) as [Mlo Mhi].
  { assert (0 < 2 ^ k) by (apply Z.pow_pos_nonneg; lia).
    assert (2 ^ (D - 1) = 2 ^ 52 * 2 ^ k) as E1
      by (rewrite <- Z.pow_add_r by lia; f_equal; lia).
    assert (2 ^ D = 2 ^ 53 * 2 ^ k) as E2
      by (rewrite <- Z.pow_add_r by lia; f_equal; lia).
    split.
    - apply Z.div_le_lower_bound; lia.
    - apply Z.div_lt_upper_bound; lia. }
  unfold binary_round_aux, shr_fexp. cbn [Zdigits2]. fold D.
  rewrite (fexp_normal (D + ex)) by lia.
  destruct (shr_spec (shr_record_of_loc (Zpos mx) lx) ex (D + ex - 53 - ex))
    as (mrs' & Hshr & Hm'); [rewrite shr_m_of_loc; lia | lia |].
  rewrite Hshr. rewrite shr_m_of_loc in Hm'.
  replace (D + ex - 53 - ex) with k in * by lia.
  set (m1 := round_nearest_even (shr_m mrs') (loc_of_shr_record mrs')).
  pose proof (round_nearest_even_bounds (shr_m mrs') (loc_of_shr_record mrs'))
    as Hm1. fold m1 in Hm1. rewrite Hm' in Hm1.
  destruct m1 as [|p1|p1] eqn:Ep1; [lia| |lia].
  destruct (Z.eq_dec (Zpos p1) (2 ^ 53)) as [Ecarry|Hnc].
  - (* the rounded mantissa is 2^53: one more shift *)
    assert (Zpos (digits2_pos p1) = 54) as Hd
      by (apply digits2_unique; rewrite Ecarry; simpl; lia).
    cbn [Zdigits2]. rewrite Hd, (fexp_normal (54 + (ex + k))) by lia.
    destruct (shr_spec (shr_record_of_loc (Zpos p1) loc_Exact) (ex + k)
                (54 + (ex + k) - 53 - (ex + k)))
      as (mrs'' & Hshr2 & Hm''); [rewrite shr_m_of_loc; lia | lia |].
    rewrite Hshr2. rewrite shr_m_of_loc in Hm''.
    replace (54 + (ex + k) - 53 - (ex + k)) with 1 in * by lia.
    rewrite Ecarry in Hm''. change (2 ^ 53 / 2 ^ 1) with (2 ^ 52) in Hm''.
    rewrite Hm''. change (2 ^ 52) with (Zpos 4503599627370496) at 1.
    cbn iota. 
    replace (ex + k + 1 <=? EMAX - PREC) with true
      by (symmetry; apply Z.leb_le; unfold EMAX, PREC; lia).
    exists 4503599627370496%positive, (ex + k + 1), (Zpos p1).
    split; [reflexivity|]. split; [lia|]. split; [lia|].
    split; [reflexivity|]. right. split; [exact Ecarry|].
    split; reflexivity.
  - assert (Zpos (digits2_pos p1) = 53) as Hd
      by (apply digits2_unique; simpl; lia).
    cbn [Zdigits2]. rewrite Hd, (fexp_normal (53 + (ex + k))) by lia.
    replace (53 + (ex + k) - 53 - (ex + k)) with 0 by lia.
    cbn [shr shr_record_of_loc shr_m].
    replace (ex + k <=? EMAX - PREC) with true
      by (symmetry; apply Z.leb_le; unfold EMAX, PREC; lia).
    exists p1, (ex + k), (Zpos p1).
    split; [reflexivity|]. split; [lia|]. split; [lia|].
    split; [exact Hd|]. left. split; reflexivity.
Qed.

(** The rounded value is within one unit in the last place of anything
    between [mx] and [mx + 1], in units of [2^ex]. *)
Lemma binary_round_aux_near (mx : positive) (ex : Z) (lx : location) :
  let k := Zpos (digits2_pos mx) - 53 in
  0 <= k -> -1074 <= ex + k -> ex + k + 1 <= 971 ->
  exists (m : positive) (j : Z),
    binary_round_aux PREC EMAX false (Zpos mx) ex lx
    = S754_finite false m (ex + j) /\
    Zpos (digits2_pos m) = 53 /\
    k <= j <= k + 1 /\
    (Zpos m - 1) * 2 ^ j <= Zpos mx /\
    Zpos mx + 1 <= (Zpos m + 1) * 2 ^ j.
Proof.
  intros k Hk Hlo Hhi.
  destruct (binary_round_aux_coarse mx ex lx Hk Hlo Hhi)
    as (m & e & m1 & Heq & Hm1 & H52 & Hd & Hcase). fold k in Hm1.
  assert (0 < 2 ^ k) as Hpk by (apply Z.pow_pos_nonneg; lia).
  pose proof (Z.mul_div_le (Zpos mx) (2 ^ k) Hpk) as Hfl.
  pose proof (Z.mul_succ_div_gt (Zpos mx) (2 ^ k) Hpk) as Hce.
  set (m' := Zpos mx / 2 ^ k) in *.
  destruct Hcase as [[Em ->] | (E1 & Em & ->)].
  - exists m, k. split; [exact Heq|]. split; [exact Hd|]. split; [lia|].
    rewrite Em. nia.
  - exists m, (k + 1). split; [rewrite Heq; f_equal; lia|].
    split; [exact Hd|]. split; [lia|].
    rewrite Em, Z.pow_add_r by lia. change (2 ^ 1) with 2.
    assert (m' = 2 ^ 53 - 1) as Em'.
    { pose proof (digits2_bounds mx) as [Blo Bhi].
      assert (2 ^ Zpos (digits2_pos mx) = 2 ^ 53 * 2 ^ k) as E2
        by (rewrite <- Z.pow_add_r by lia; f_equal; lia).
      assert (m' < 2 ^ 53) by (apply Z.div_lt_upper_bound; lia). lia. }
    rewrite Em' in *. change (2 ^ 53) with 9007199254740992 in *.
    change (2 ^ 52) with 4503599627370496. lia.
Qed.

Lemma binary_round_aux_exact (m : positive) (e : Z) :
  Zpos (digits2_pos m) = 53 -> -1074 <= e <= 971 ->
  binary_round_aux PREC EMAX false (Zpos m) e loc_Exact = S754_finite false m e.
Proof.
  intros Hd He. unfold binary_round_aux, shr_fexp. cbn [Zdigits2].
  rewrite Hd, (fexp_normal (53 + e)) by lia.
  replace (53 + e - 53 - e) with 0 by lia.
  cbn [shr shr_record_of_loc shr_m loc_of_shr_record round_nearest_even Zdigits2].
  rewrite Hd, (fexp_normal (53 + e)) by lia.
  replace (53 + e - 53 - e) with 0 by lia.
  cbn [shr shr_record_of_loc shr_m].
  replace (e <=? EMAX - PREC) with true
    by (symmetry; apply Z.leb_le; unfold EMAX, PREC; lia).
  reflexivity.
Qed.

(** *** Integers as numbers *)

Lemma Pos_iter_xO (m d : positive) :
  Zpos (Pos.iter xO m d) = Zpos m * 2 ^ Zpos d.
Proof.
  induction d as [|d IH] using Pos.peano_ind.
  - cbn [Pos.iter]. rewrite Pos2Z.inj_xO. change (2 ^ 1) with 2. lia.
  - rewrite Pos.iter_succ, Pos2Z.inj_xO, IH, Pos2Z.inj_succ, Z.pow_succ_r by lia.
    lia.
Qed.

Lemma of_Z_positive (a : positive) :
  Zpos a < 2 ^ 53 ->
  let d := Zpos (digits2_pos a) in
  exists m : positive,
    of_Z (Zpos a) = S754_finite false m (d - 53) /\
    Zpos (digits2_pos m) = 53 /\
    Zpos m = Zpos a * 2 ^ (53 - d) /\
    1 <= d <= 53.
Proof.
  intros Ha d. pose proof (digits2_bounds a) as [Blo Bhi]. fold d in Blo, Bhi.
  assert (1 <= d) by (unfold d; lia).
  assert (d <= 53).
  { destruct (Z.le_gt_cases d 53) as [|Hgt]; [assumption|].
    assert (2 ^ 53 <= 2 ^ (d - 1)) by (apply Z.pow_le_mono_r; lia). lia. }
  unfold of_Z, binary_normalize, binary_round, shl_align.
  rewrite Z.add_0_r. fold d. rewrite (fexp_normal d) by lia.
  rewrite Z.sub_0_r.
  destruct (d - 53) as [|p|p] eqn:Ed; [| lia |].
  - exists a. rewrite binary_round_aux_exact by (fold d; lia).
    split; [reflexivity|]. split; [fold d; lia|].
    replace (53 - d) with 0 by lia. split; [lia|lia].
  - assert (Zpos (Pos.iter xO a p) = Zpos a * 2 ^ (53 - d)) as Em.
    { rewrite Pos_iter_xO. f_equal. f_equal. lia. }
    assert (Zpos (digits2_pos (Pos.iter xO a p)) = 53) as Hd.
    { apply digits2_unique. rewrite Em. change (53 - 1) with 52.
      assert (2 ^ 52 = 2 ^ (d - 1) * 2 ^ (53 - d)) as ->
        by (rewrite <- Z.pow_add_r by lia; f_equal; lia).
      assert (2 ^ 53 = 2 ^ d * 2 ^ (53 - d)) as ->
        by (rewrite <- Z.pow_add_r by lia; f_equal; lia).
      assert (0 < 2 ^ (53 - d)) by (apply Z.pow_pos_nonneg; lia).
      split; [apply Z.mul_le_mono_nonneg_r; lia | apply Z.mul_lt_mono_pos_r; lia]. }
    exists (Pos.iter xO a p).
    rewrite binary_round_aux_exact by (try exact Hd; lia).
    split; [reflexivity|]. split; [exact Hd|]. split; [exact Em | lia].
Qed.

Lemma digits2_range (m : positive) (lo hi : Z) :
  0 <= lo -> 2 ^ lo <= Zpos m < 2 ^ hi ->
  lo < Zpos (digits2_pos m) <= hi.
Proof.
  intros Hlo [Hm1 Hm2]. pose proof (digits2_bounds m) as [Blo Bhi].
  set (d := Zpos (digits2_pos m)) in *. split.
  - destruct (Z.lt_ge_cases lo d) as [|Hge]; [assumption|].
    assert (2 ^ d <= 2 ^ lo) by (apply Z.pow_le_mono_r; lia). lia.
  - destruct (Z.le_gt_cases d hi) as [|Hgt]; [assumption|].
    assert (0 <= hi).
    { destruct (Z.le_gt_cases 0 hi) as [|Hneg]; [assumption|].
      rewrite (Z.pow_neg_r 2 hi Hneg) in Hm2. lia. }
    assert (2 ^ hi <= 2 ^ (d - 1)) by (apply Z.pow_le_mono_r; lia). lia.
Qed.

(** *** Division and multiplication of normal numbers *)

Lemma SFdiv_near (m1 m2 : positive) (e1 e2 : Z) :
  Zpos (digits2_pos m1) = 53 -> Zpos (digits2_pos m2) = 53 ->
  -1074 <= e1 - e2 - 53 <= 968 ->
  exists (m : positive) (j : Z),
    SFdiv PREC EMAX (S754_finite false m1 e1) (S754_finite false m2 e2)
    = S754_finite false m (e1 - e2 - 53 + j) /\
    Zpos (digits2_pos m) = 53 /\
    0 <= j <= 2 /\
    (Zpos m - 1) * 2 ^ j * Zpos m2 <= Zpos m1 * 2 ^ 53 /\
    Zpos m1 * 2 ^ 53 < (Zpos m + 1) * 2 ^ j * Zpos m2.
Proof.
  intros Hd1 Hd2 He.
  pose proof (digits2_bounds m1) as [B1lo B1hi].
  pose proof (digits2_bounds m2) as [B2lo B2hi].
  rewrite Hd1 in B1lo, B1hi. rewrite Hd2 in B2lo, B2hi.
  change (53 - 1) with 52 in *.
  unfold SFdiv, SFdiv_core_binary. cbn [Zdigits2 xorb]. rewrite Hd1, Hd2.
  rewrite (fexp_normal (53 + e1 - (53 + e2))) by lia.
  replace (Z.min (53 + e1 - (53 + e2) - 53) (e1 - e2)) with (e1 - e2 - 53) by lia.
  replace (e1 - e2 - (e1 - e2 - 53)) with 53 by lia.
  rewrite Z.shiftl_mul_pow2 by lia.
  pose proof (Z_div_mod (Zpos m1 * 2 ^ 53) (Zpos m2) eq_refl) as Hdiv.
  destruct (Z.div_eucl (Zpos m1 * 2 ^ 53) (Zpos m2)) as [q r].
  destruct Hdiv as [Hq Hr].
  change (2 ^ 52) with 4503599627370496 in *.
  change (2 ^ 53) with 9007199254740992 in *.
  assert (4503599627370496 <= q < 18014398509481984) as Hqb by nia.
  destruct q as [|pq|pq]; [lia| |lia].
  pose proof (digits2_range pq 52 54) as Hdq.
  change (2 ^ 52) with 4503599627370496 in Hdq.
  change (2 ^ 54) with 18014398509481984 in Hdq.
  specialize (Hdq ltac:(lia) Hqb).
  destruct (binary_round_aux_near pq (e1 - e2 - 53) (new_location (Zpos m2) r))
    as (m & j & Heq & Hd & Hj & Hlo & Hhi); [lia | lia | lia |].
  exists m, j. split; [exact Heq|]. split; [exact Hd|]. split; [lia|].
  assert (0 < 2 ^ j) by (apply Z.pow_pos_nonneg; lia).
  split; nia.
Qed.

Lemma SFmul_near (m1 m2 : positive) (e1 e2 : Z) :
  Zpos (digits2_pos m1) = 53 -> Zpos (digits2_pos m2) = 53 ->
  -1074 <= e1 + e2 + 52 -> e1 + e2 + 54 <= 971 ->
  exists (m : positive) (j : Z),
    SFmul PREC EMAX (S754_finite false m1 e1) (S754_finite false m2 e2)
    = S754_finite false m (e1 + e2 + j) /\
    Zpos (digits2_pos m) = 53 /\
    52 <= j <= 54 /\
    (Zpos m - 1) * 2 ^ j <= Zpos m1 * Zpos m2 /\
    Zpos m1 * Zpos m2 + 1 <= (Zpos m + 1) * 2 ^ j.
Proof.
  intros Hd1 Hd2 Hlo Hhi.
  pose proof (digits2_bounds m1) as [B1lo B1hi].
  pose proof (digits2_bounds m2) as [B2lo B2hi].
  rewrite Hd1 in B1lo, B1hi. rewrite Hd2 in B2lo, B2hi.
  change (53 - 1) with 52 in *.
  change (2 ^ 52) with 4503599627370496 in *.
  change (2 ^ 53) with 9007199254740992 in *.
  unfold SFmul. cbn [xorb].
  pose proof (digits2_range (m1 * m2) 104 106) as Hdp.
  change (2 ^ 104) with (4503599627370496 * 4503599627370496) in Hdp.
  change (2 ^ 106) with (9007199254740992 * 9007199254740992) in Hdp.
  rewrite Pos2Z.inj_mul in Hdp.
  specialize (Hdp ltac:(lia) ltac:(nia)).
  destruct (binary_round_aux_near (m1 * m2) (e1 + e2) loc_Exact)
    as (m & j & Heq & Hd & Hj & Hl & Hh); [lia | lia | lia |].
  exists m, j. split; [exact Heq|]. split; [exact Hd|]. split; [lia|].
  rewrite Pos2Z.inj_mul in Hl, Hh. split; assumption.
Qed.

(** The input cost of [a] tokens, [a / 1000000 * 15], rounds to exactly
    [15 * a] millionths. *)
Lemma input_cost_exact (a : positive) :
  Zpos a < 2 ^ 40 ->
  exists (mx : positive) (ex : Z),
    js_mul (js_div (of_Z (Zpos a)) (of_Z 1000000)) (of_Z 15)
    = S754_finite false mx ex /\
    -69 <= ex <= -26 /\
    Zpos (digits2_pos mx) = 53 /\
    scaled_round 6 mx ex = 15 * Zpos a.
Proof.
  intros Ha.
  destruct (of_Z_positive a) as (ma & Ea & Hda & Hma & Hd1);
    [change (2 ^ 53) with (2 ^ 40 * 2 ^ 13); lia|].
  set (d := Zpos (digits2_pos a)) in *.
  assert (d <= 40) as Hd40.
  { pose proof (digits2_bounds a) as [Blo _]. fold d in Blo.
    destruct (Z.le_gt_cases d 40) as [|Hgt]; [assumption|].
    assert (2 ^ 40 <= 2 ^ (d - 1)) by (apply Z.pow_le_mono_r; lia). lia. }
  change (of_Z 1000000) with (S754_finite false 8589934592000000 (-33)).
  change (of_Z 15) with (S754_finite false 8444249301319680 (-49)).
  rewrite Ea. unfold js_div, js_mul.
  destruct (SFdiv_near ma 8589934592000000 (d - 53) (-33))
    as (my & j & Ey & Hdy & Hj & Hylo & Hyhi); [exact Hda | reflexivity | lia |].
  rewrite Ey.
  destruct (SFmul_near my 8444249301319680 (d - 53 - -33 - 53 + j) (-49))
    as (mx & j2 & Ex & Hdx & Hj2 & Hxlo & Hxhi);
    [exact Hdy | reflexivity | lia | lia |].
  rewrite Ex. exists mx, (d - 53 - -33 - 53 + j + -49 + j2).
  split; [reflexivity|]. split; [lia|]. split; [exact Hdx|].
  set (ex := d - 53 - -33 - 53 + j + -49 + j2).
  unfold scaled_round.
  replace (0 <=? ex) with false by (symmetry; apply Z.leb_gt; lia).
  change (10 ^ Z.of_nat 6) with 1000000.
  (* powers of two at work *)
  set (Rx := 2 ^ (- ex)).
  set (Q2 := 2 ^ (j2 - 49)).
  set (G := 2 ^ (33 + j)).
  assert (0 < Rx) as HRx by (apply Z.pow_pos_nonneg; lia).
  assert (2 ^ 26 <= Rx) as HRx26 by (apply Z.pow_le_mono_r; lia).
  assert (2 ^ 3 <= Q2) as HQ2 by (apply Z.pow_le_mono_r; lia).
  assert (0 < G) as HG by (apply Z.pow_pos_nonneg; lia).
  assert (2 ^ (1 - ex) = 2 * Rx) as ->.
  { unfold Rx. replace (1 - ex) with (Z.succ (- ex)) by lia.
    rewrite Z.pow_succ_r by lia. reflexivity. }
  assert (Zpos ma * 2 ^ 53 = Zpos a * (Rx * Q2) * G) as EN.
  { rewrite Hma. unfold Rx, Q2, G.
    rewrite <- !Z.mul_assoc, <- !Z.pow_add_r by lia. f_equal. f_equal. lia. }
  assert (2 ^ j * 8589934592000000 = 1000000 * G) as EM.
  { unfold G. rewrite Z.pow_add_r by lia.
    change 8589934592000000 with (1000000 * 2 ^ 33). ring. }
  assert (2 ^ j2 = Q2 * 2 ^ 49) as EQ.
  { unfold Q2. rewrite <- Z.pow_add_r by lia. f_equal. lia. }
  change 8444249301319680 with (15 * 2 ^ 49) in Hxlo, Hxhi.
  rewrite EQ in Hxlo, Hxhi.
  rewrite <- Z.mul_assoc, EM, EN in Hylo. rewrite <- Z.mul_assoc, EM, EN in Hyhi.
  change (2 ^ 26) with 67108864 in HRx26. change (2 ^ 3) with 8 in HQ2.
  change (2 ^ 49) with 562949953421312 in Hxlo, Hxhi.
  assert ((Zpos my - 1) * 1000000 <= Zpos a * (Rx * Q2)) as Y1 by nia.
  assert (Zpos a * (Rx * Q2) < (Zpos my + 1) * 1000000) as Y2 by nia.
  assert ((Zpos mx - 1) * Q2 <= 15 * Zpos my) as X1 by nia.
  assert (15 * Zpos my < (Zpos mx + 1) * Q2) as X2 by nia.
  assert (67108864 * Q2 <= Rx * Q2) as HT3 by nia.
  symmetry. apply Z.div_unique with (r := 2 * (Zpos mx * 1000000) + Rx - 2 * Rx * (15 * Zpos a)).
  - left.
    assert (30 * (Zpos a * (Rx * Q2)) <= 2 * (Zpos mx * Q2) * 1000000 + Rx * Q2
            /\ 2 * (Zpos mx * Q2) * 1000000 + Rx * Q2
               < 30 * (Zpos a * (Rx * Q2)) + 2 * (Rx * Q2)) as [L U].
    { revert Y1 Y2 X1 X2 HT3 HQ2.
      replace ((Zpos mx - 1) * Q2) with (Zpos mx * Q2 - Q2) by ring.
      replace ((Zpos mx + 1) * Q2) with (Zpos mx * Q2 + Q2) by ring.
      generalize (Zpos a * (Rx * Q2)) (Rx * Q2) (Zpos mx * Q2).
      intros T1 T3 T2. lia. }
    split; nia.
  - ring.
Qed.

(** *** Addition of integers *)

Lemma shr_1_even (p : positive) :
  shr_1 {| shr_m := Zpos (xO p); shr_r := false; shr_s := false |}
  = {| shr_m := Zpos p; shr_r := false; shr_s := false |}.
Proof. reflexivity. Qed.

Lemma shr_iter_even (n : nat) (p : positive) :
  Nat.iter n shr_1
    {| shr_m := Zpos (Nat.iter n xO p); shr_r := false; shr_s := false |}
  = {| shr_m := Zpos p; shr_r := false; shr_s := false |}.
Proof.
  induction n as [|n IH]; [reflexivity|].
  rewrite Nat.iter_succ_r.
  change (Nat.iter (S n) xO p) with (xO (Nat.iter n xO p)). rewrite shr_1_even.
  exact IH.
Qed.

Lemma shr_exact (s p : positive) (e k : Z) :
  0 <= k -> Zpos s = Zpos p * 2 ^ k ->
  shr {| shr_m := Zpos s; shr_r := false; shr_s := false |} e k
  = ({| shr_m := Zpos p; shr_r := false; shr_s := false |}, e + k).
Proof.
  intros Hk Hs. destruct k as [|d|d]; [| |lia].
  - cbn [shr]. rewrite Z.add_0_r. rewrite Z.mul_1_r in Hs.
    apply Pos2Z.inj in Hs. subst s. reflexivity.
  - cbn [shr]. f_equal. rewrite iter_pos_nat.
    assert (s = Nat.iter (Pos.to_nat d) xO p) as ->.
    { assert (Nat.iter (Pos.to_nat d) xO p = Pos.iter xO p d) as ->
        by (symmetry; apply Pos2Nat.inj_iter).
      apply Pos2Z.inj. rewrite Hs. symmetry. apply Pos_iter_xO. }
    apply shr_iter_even.
Qed.

Lemma binary_round_aux_shifted (s p : positive) (e k : Z) :
  Zpos (digits2_pos p) = 53 -> 0 <= k -> -1074 <= e + k <= 971 ->
  Zpos s = Zpos p * 2 ^ k ->
  binary_round_aux PREC EMAX false (Zpos s) e loc_Exact
  = S754_finite false p (e + k).
Proof.
  intros Hd Hk He Hs.
  pose proof (digits2_bounds p) as [Blo Bhi]. rewrite Hd in Blo, Bhi.
  assert (Zpos (digits2_pos s) = 53 + k) as Hds.
  { apply digits2_unique. rewrite Hs.
    assert (0 < 2 ^ k) by (apply Z.pow_pos_nonneg; lia).
    replace (53 + k - 1) with (52 + k) by lia.
    rewrite !Z.pow_add_r by lia. change (53 - 1) with 52 in Blo.
    split; [apply Z.mul_le_mono_nonneg_r; lia | apply Z.mul_lt_mono_pos_r; lia]. }
  unfold binary_round_aux, shr_fexp. cbn [Zdigits2].
  rewrite Hds, (fexp_normal (53 + k + e)) by lia.
  replace (53 + k + e - 53 - e) with k by lia.
  cbn [shr_record_of_loc]. rewrite (shr_exact s p e k Hk Hs).
  cbn [shr_m loc_of_shr_record round_nearest_even Zdigits2].
  rewrite Hd, (fexp_normal (53 + (e + k))) by lia.
  replace (53 + (e + k) - 53 - (e + k)) with 0 by lia.
  cbn [shr shr_record_of_loc shr_m].
  replace (e + k <=? EMAX - PREC) with true
    by (symmetry; apply Z.leb_le; unfold EMAX, PREC; lia).
  reflexivity.
Qed.

Lemma shl_align_fst (m : positive) (e ez : Z) :
  ez <= e -> Zpos (fst (shl_align m e ez)) = Zpos m * 2 ^ (e - ez).
Proof.
  intros He. unfold shl_align. destruct (ez - e) as [|d|d] eqn:Ed; [|lia|].
  - replace (e - ez) with 0 by lia. cbn [fst]. lia.
  - cbn [fst]. rewrite Pos_iter_xO. f_equal. f_equal. lia.
Qed.

(** Adding two token counts gives the number of their sum. *)
Lemma js_add_counts (a b : positive) :
  Zpos a + Zpos b < 2 ^ 53 ->
  js_add (of_Z (Zpos a)) (of_Z (Zpos b)) = of_Z (Zpos a + Zpos b).
Proof.
  intros Hab.
  destruct (of_Z_positive a) as (ma & Ea & Hda & Hma & Hd1); [lia|].
  destruct (of_Z_positive b) as (mb & Eb & Hdb & Hmb & Hd2); [lia|].
  change (Zpos a + Zpos b) with (Zpos (a + b)) in *.
  destruct (of_Z_positive (a + b)) as (mc & Ec & Hdc & Hmc & Hd3); [lia|].
  rewrite Ea, Eb, Ec. clear Ea Eb Ec.
  set (da := Zpos (digits2_pos a)) in *.
  set (db := Zpos (digits2_pos b)) in *.
  set (dc := Zpos (digits2_pos (a + b))) in *.
  assert (da <= dc /\ db <= dc) as [Hac Hbc].
  { pose proof (digits2_bounds a) as [Alo Ahi]. fold da in Alo, Ahi.
    pose proof (digits2_bounds b) as [Blo Bhi]. fold db in Blo, Bhi.
    pose proof (digits2_bounds (a + b)) as [Clo Chi]. fold dc in Clo, Chi.
    rewrite Pos2Z.inj_add in Clo, Chi. split.
    - destruct (Z.le_gt_cases da dc) as [|Hgt]; [assumption|].
      assert (2 ^ dc <= 2 ^ (da - 1)) by (apply Z.pow_le_mono_r; lia). lia.
    - destruct (Z.le_gt_cases db dc) as [|Hgt]; [assumption|].
      assert (2 ^ dc <= 2 ^ (db - 1)) by (apply Z.pow_le_mono_r; lia). lia. }
  unfold js_add, SFadd. cbn [cond_Zopp].
  set (ez := Z.min (da - 53) (db - 53)).
  assert (Zpos (fst (shl_align ma (da - 53) ez))
          + Zpos (fst (shl_align mb (db - 53) ez))
          = Zpos mc * 2 ^ (dc - 53 - ez)) as ES.
  { rewrite !shl_align_fst by (unfold ez; lia). rewrite Hma, Hmb, Hmc.
    rewrite <- !Z.mul_assoc, <- !Z.pow_add_r by (unfold ez; lia).
    replace (53 - da + (da - 53 - ez)) with (- ez) by lia.
    replace (53 - db + (db - 53 - ez)) with (- ez) by lia.
    replace (53 - dc + (dc - 53 - ez)) with (- ez) by lia.
    rewrite Pos2Z.inj_add. ring. }
  rewrite ES.
  assert (0 < 2 ^ (dc - 53 - ez)) as Hpos
    by (apply Z.pow_pos_nonneg; unfold ez; lia).
  destruct (Zpos mc * 2 ^ (dc - 53 - ez)) as [|s|s] eqn:Es; [lia| |lia].
  unfold binary_normalize, binary_round, shl_align.
  assert (Zpos (digits2_pos s) = 53 + (dc - 53 - ez)) as Hds.
  { apply digits2_unique. rewrite <- Es.
    pose proof (digits2_bounds mc) as [Mlo Mhi]. rewrite Hdc in Mlo, Mhi.
    change (53 - 1) with 52 in Mlo.
    replace (53 + (dc - 53 - ez) - 1) with (52 + (dc - 53 - ez)) by lia.
    rewrite !Z.pow_add_r by (unfold ez; lia).
    split; [apply Z.mul_le_mono_nonneg_r; lia | apply Z.mul_lt_mono_pos_r; lia]. }
  rewrite Hds, (fexp_normal (53 + (dc - 53 - ez) + ez)) by (unfold ez; lia).
  destruct (53 + (dc - 53 - ez) + ez - 53 - ez) as [|d|d] eqn:Ed;
    [| |unfold ez in Ed; lia].
  - rewrite (binary_round_aux_shifted s mc ez (dc - 53 - ez) Hdc)
      by (unfold ez in *; lia). f_equal. lia.
  - rewrite (binary_round_aux_shifted s mc ez (dc - 53 - ez) Hdc)
      by (unfold ez in *; lia). f_equal. lia.
Qed.

(** *** The cost of a count at a rate *)

(** The cost of [a] tokens at the rate [rate], [a / 1000000 * rate], is
    within a fifth of a millionth of [rate * a] millionths. *)
Lemma token_cost_near (rate kr : Z) (mr a : positive) :
  of_Z rate = S754_finite false mr (- kr) ->
  Zpos mr = rate * 2 ^ kr -> Zpos (digits2_pos mr) = 53 -> 46 <= kr <= 49 ->
  Zpos a < 2 ^ 40 ->
  exists (mx : positive) (ex : Z),
    js_mul (js_div (of_Z (Zpos a)) (of_Z 1000000)) (of_Z rate)
    = S754_finite false mx ex /\
    -69 <= ex <= -23 /\
    Zpos (digits2_pos mx) = 53 /\
    5 * (Zpos mx * 1000000 - rate * Zpos a * 2 ^ (- ex)) <= 2 ^ (- ex) /\
    5 * (rate * Zpos a * 2 ^ (- ex) - Zpos mx * 1000000) <= 2 ^ (- ex).
Proof.
  intros Er Hmr Hdr Hkr Ha.
  destruct (of_Z_positive a) as (ma & Ea & Hda & Hma & Hd1);
    [change (2 ^ 53) with (2 ^ 40 * 2 ^ 13); lia|].
  set (d := Zpos (digits2_pos a)) in *.
  assert (d <= 40) as Hd40.
  { pose proof (digits2_bounds a) as [Blo _]. fold d in Blo.
    destruct (Z.le_gt_cases d 40) as [|Hgt]; [assumption|].
    assert (2 ^ 40 <= 2 ^ (d - 1)) by (apply Z.pow_le_mono_r; lia). lia. }
  assert (0 < rate < 128) as Hrate.
  { pose proof (digits2_bounds mr) as [_ Bhi]. rewrite Hdr, Hmr in Bhi.
    assert (2 ^ 46 <= 2 ^ kr) as Hp by (apply Z.pow_le_mono_r; lia).
    change (2 ^ 46) with 70368744177664 in Hp.
    change (2 ^ 53) with 9007199254740992 in Bhi.
    assert (0 < Zpos mr) by lia. nia. }
  change (of_Z 1000000) with (S754_finite false 8589934592000000 (-33)).
  rewrite Ea, Er. unfold js_div, js_mul.
  destruct (SFdiv_near ma 8589934592000000 (d - 53) (-33))
    as (my & j & Ey & Hdy & Hj & Hylo & Hyhi); [exact Hda | reflexivity | lia |].
  rewrite Ey.
  destruct (SFmul_near my mr (d - 53 - -33 - 53 + j) (- kr))
    as (mx & j2 & Ex & Hdx & Hj2 & Hxlo & Hxhi);
    [exact Hdy | exact Hdr | lia | lia |].
  rewrite Ex. exists mx, (d - 53 - -33 - 53 + j + - kr + j2).
  split; [reflexivity|]. split; [lia|]. split; [exact Hdx|].
  set (ex := d - 53 - -33 - 53 + j + - kr + j2).
  (* powers of two at work *)
  set (Rx := 2 ^ (- ex)).
  set (Q2 := 2 ^ (j2 - kr)).
  set (G := 2 ^ (33 + j)).
  assert (0 < Rx) as HRx by (apply Z.pow_pos_nonneg; lia).
  assert (0 < G) as HG by (apply Z.pow_pos_nonneg; lia).
  assert (8 <= Q2 <= 256) as HQ2.
  { change 8 with (2 ^ 3). change 256 with (2 ^ 8).
    split; apply Z.pow_le_mono_r; lia. }
  assert (2 ^ 31 <= Rx * Q2) as HRQ.
  { unfold Rx, Q2. rewrite <- Z.pow_add_r by lia. apply Z.pow_le_mono_r; lia. }
  assert (Zpos ma * 2 ^ 53 = Zpos a * (Rx * Q2) * G) as EN.
  { rewrite Hma. unfold Rx, Q2, G.
    rewrite <- !Z.mul_assoc, <- !Z.pow_add_r by lia. f_equal. f_equal. lia. }
  assert (2 ^ j * 8589934592000000 = 1000000 * G) as EM.
  { unfold G. rewrite Z.pow_add_r by lia.
    change 8589934592000000 with (1000000 * 2 ^ 33). ring. }
  assert (2 ^ j2 = Q2 * 2 ^ kr) as EQ.
  { unfold Q2. rewrite <- Z.pow_add_r by lia. f_equal. lia. }
  assert (0 < 2 ^ kr) as Hpk by (apply Z.pow_pos_nonneg; lia).
  rewrite Hmr, EQ in Hxlo, Hxhi.
  rewrite <- Z.mul_assoc, EM, EN in Hylo. rewrite <- Z.mul_assoc, EM, EN in Hyhi.
  assert ((Zpos my - 1) * 1000000 <= Zpos a * (Rx * Q2)) as Y1 by nia.
  assert (Zpos a * (Rx * Q2) < (Zpos my + 1) * 1000000) as Y2 by nia.
  assert ((Zpos mx - 1) * Q2 <= rate * Zpos my) as X1 by nia.
  assert (rate * Zpos my < (Zpos mx + 1) * Q2) as X2 by nia.
  assert (rate * ((Zpos my - 1) * 1000000) <= rate * (Zpos a * (Rx * Q2))) as Y1'
    by (apply Z.mul_le_mono_nonneg_l; lia).
  assert (rate * (Zpos a * (Rx * Q2)) <= rate * ((Zpos my + 1) * 1000000)) as Y2'
    by (apply Z.mul_le_mono_nonneg_l; lia).
  change (2 ^ 31) with 2147483648 in HRQ.
  assert (5 * (Zpos mx * 1000000 - rate * Zpos a * Rx) * Q2 <= Rx * Q2
          /\ 5 * (rate * Zpos a * Rx - Zpos mx * 1000000) * Q2 <= Rx * Q2)
    as [L U].
  { replace (5 * (Zpos mx * 1000000 - rate * Zpos a * Rx) * Q2)
      with (5 * ((Zpos mx * Q2) * 1000000 - rate * (Zpos a * (Rx * Q2)))) by ring.
    replace (5 * (rate * Zpos a * Rx - Zpos mx * 1000000) * Q2)
      with (5 * (rate * (Zpos a * (Rx * Q2)) - (Zpos mx * Q2) * 1000000)) by ring.
    revert Y1' Y2' X1 X2 HRQ HQ2 Hrate.
    replace ((Zpos mx - 1) * Q2) with (Zpos mx * Q2 - Q2) by ring.
    replace ((Zpos mx + 1) * Q2) with (Zpos mx * Q2 + Q2) by ring.
    replace (rate * ((Zpos my - 1) * 1000000))
      with ((rate * Zpos my) * 1000000 - rate * 1000000) by ring.
    replace (rate * ((Zpos my + 1) * 1000000))
      with ((rate * Zpos my) * 1000000 + rate * 1000000) by ring.
    generalize (rate * (Zpos a * (Rx * Q2))) (Rx * Q2) (Zpos mx * Q2)
      (rate * Zpos my).
    intros V RQ M W. lia. }
  split.
  - apply (Z.mul_le_mono_pos_r _ _ Q2); [lia | exact L].
  - apply (Z.mul_le_mono_pos_r _ _ Q2); [lia | exact U].
Qed.

(** A number that is within half a millionth of [n] millionths is written
    by [toFixed(6)] as [n] millionths. *)
Lemma scaled_round_near (mx : positive) (ex n : Z) :
  ex < 0 ->
  2 * (Zpos mx * 1000000 - n * 2 ^ (- ex)) < 2 ^ (- ex) ->
  2 * (n * 2 ^ (- ex) - Zpos mx * 1000000) <= 2 ^ (- ex) ->
  scaled_round 6 mx ex = n.
Proof.
  intros Hex Hlo Hhi. unfold scaled_round.
  replace (0 <=? ex) with false by (symmetry; apply Z.leb_gt; lia).
  change (10 ^ Z.of_nat 6) with 1000000.
  set (R := 2 ^ (- ex)) in *.
  assert (0 < R) as HR by (apply Z.pow_pos_nonneg; lia).
  assert (2 ^ (1 - ex) = 2 * R) as ->.
  { unfold R. replace (1 - ex) with (Z.succ (- ex)) by lia.
    rewrite Z.pow_succ_r by lia. reflexivity. }
  symmetry.
  apply Z.div_unique with (r := 2 * (Zpos mx * 1000000) + R - 2 * R * n).
  - left. lia.
  - ring.
Qed.




(** *** Addition of two costs *)

(** The sum of two positive numbers of the size of a cost is within one
    unit in the last place of the exact sum. *)
Lemma js_add_near (m1 m2 : positive) (e1 e2 : Z) :
  Zpos (digits2_pos m1) = 53 -> Zpos (digits2_pos m2) = 53 ->
  -69 <= e1 <= -23 -> -69 <= e2 <= -23 ->
  let ez := Z.min e1 e2 in
  let s := Zpos m1 * 2 ^ (e1 - ez) + Zpos m2 * 2 ^ (e2 - ez) in
  exists (m : positive) (j : Z),
    js_add (S754_finite false m1 e1) (S754_finite false m2 e2)
    = S754_finite false m (ez + j) /\
    Zpos (digits2_pos m) = 53 /\
    0 <= j <= 48 /\
    (Zpos m - 1) * 2 ^ j <= s /\
    s + 1 <= (Zpos m + 1) * 2 ^ j.
Proof.
  intros Hd1 Hd2 He1 He2 ez s.
  pose proof (digits2_bounds m1) as [B1lo B1hi].
  pose proof (digits2_bounds m2) as [B2lo B2hi].
  rewrite Hd1 in B1lo, B1hi. rewrite Hd2 in B2lo, B2hi.
  change (53 - 1) with 52 in *.
  unfold js_add, SFadd. cbn [cond_Zopp]. fold ez.
  rewrite !shl_align_fst by (unfold ez; lia). fold s.
  set (c1 := 2 ^ (e1 - ez)) in *. set (c2 := 2 ^ (e2 - ez)) in *.
  assert (1 <= c1 <= 2 ^ 46) as Hc1.
  { unfold c1. change 1 with (2 ^ 0) at 1.
    split; apply Z.pow_le_mono_r; unfold ez; lia. }
  assert (1 <= c2 <= 2 ^ 46) as Hc2.
  { unfold c2. change 1 with (2 ^ 0) at 1.
    split; apply Z.pow_le_mono_r; unfold ez; lia. }
  change (2 ^ 46) with 70368744177664 in Hc1, Hc2.
  change (2 ^ 52) with 4503599627370496 in *.
  change (2 ^ 53) with 9007199254740992 in *.
  assert (2 ^ 52 <= s < 2 ^ 100) as Hs.
  { change (2 ^ 52) with 4503599627370496.
    change (2 ^ 100) with (2 * (9007199254740992 * 70368744177664)).
    unfold s. nia. }
  destruct s as [|ps|ps] eqn:Es; [lia| |lia].
  pose proof (digits2_range ps 52 100 ltac:(lia) Hs) as Hdp.
  unfold binary_normalize, binary_round, shl_align.
  rewrite (fexp_normal (Zpos (digits2_pos ps) + ez)) by (unfold ez; lia).
  destruct (Zpos (digits2_pos ps) + ez - 53 - ez) as [|q|q] eqn:Eq; [| |lia].
  - destruct (binary_round_aux_near ps ez loc_Exact)
      as (m & j & Heq & Hd & Hj & Hlo & Hhi); [lia | unfold ez; lia | unfold ez; lia |].
    exists m, j. split; [exact Heq|]. split; [exact Hd|]. split; [lia|].
    split; assumption.
  - destruct (binary_round_aux_near ps ez loc_Exact)
      as (m & j & Heq & Hd & Hj & Hlo & Hhi); [lia | unfold ez; lia | unfold ez; lia |].
    exists m, j. split; [exact Heq|]. split; [exact Hd|]. split; [lia|].
    split; assumption.
Qed.


End Accuracy.

(** ** Reading a cost string back *)

Lemma decimal_digits_eq (n : N) :
  decimal_digits n
  = if n <? 10 then [ZERO_DIGIT + n]
    else decimal_digits (n / 10) ++ [ZERO_DIGIT + n mod 10].
Proof.
  rewrite decimal_digits_equation_1.
  destruct (inspect (n <? 10)) as [[] E].
  - rewrite decimal_digits_clause_1_equation_1, E. reflexivity.
  - rewrite decimal_digits_clause_1_equation_2, E. reflexivity.
Qed.

Lemma digit_value_digit (d : N) :
  d < 10 -> digit_value (ZERO_DIGIT + d) = Some d.
Proof.
  intros Hd. unfold digit_value, ZERO_DIGIT.
  destruct (N.leb_spec 48 (48 + d)); [|lia].
  destruct (N.leb_spec (48 + d) 57); [|lia].
  simpl. f_equal. lia.
Qed.

Lemma digits_value_decimal (n : N) :
  forall acc rest,
    digits_value acc (decimal_digits n ++ rest)
    = digits_value (acc * 10 ^ N.of_nat (length (decimal_digits n)) + n) rest.
Proof.
  induction n as [n IH] using (well_founded_induction N.lt_wf_0).
  intros acc rest. rewrite (decimal_digits_eq n).
  destruct (N.ltb_spec n 10) as [Hlt|Hge].
  - cbn [app length digits_value]. rewrite (digit_value_digit n Hlt).
    f_equal. change (N.of_nat 1) with 1. rewrite N.pow_1_r. lia.
  - rewrite <- app_assoc. cbn [app].
    rewrite IH by (apply N.div_lt; lia).
    cbn [digits_value].
    rewrite (digit_value_digit (n mod 10)) by (apply N.mod_lt; lia).
    f_equal. rewrite length_app. cbn [length].
    rewrite Nat.add_1_r, Nat2N.inj_succ, N.pow_succ_r'.
    pose proof (N.div_mod n 10 ltac:(lia)) as Hn.
    set (q := n / 10) in *. set (r := n mod 10) in *. clearbody q r.
    subst n. ring.
Qed.

Lemma digits_value_zeros (j : nat) (l : JsString.t) :
  digits_value 0 (repeat ZERO_DIGIT j ++ l) = digits_value 0 l.
Proof. induction j as [|j IH]; [reflexivity | exact IH]. Qed.

Lemma decimal_digits_nonempty (n : N) : (0 < length (decimal_digits n))%nat.
Proof.
  rewrite (decimal_digits_eq n). destruct (n <? 10); simpl; [lia|].
  rewrite length_app. simpl. lia.
Qed.

(** The digits of [toFixed(6)] read back as the number of millionths they
    were made from. *)
Lemma millionths_fixed_digits (n : N) : millionths (fixed_digits 6 n) = Some n.
Proof.
  unfold fixed_digits.
  set (padded := if (length (decimal_digits n) <=? 6)%nat
                 then repeat ZERO_DIGIT (6 + 1 - length (decimal_digits n))
                      ++ decimal_digits n
                 else decimal_digits n).
  assert (7 <= length padded)%nat as Hlen.
  { unfold padded. destruct (Nat.leb_spec (length (decimal_digits n)) 6).
    - rewrite length_app, repeat_length. lia.
    - lia. }
  assert (digits_value 0 padded = Some n) as Hval.
  { unfold padded. destruct (length (decimal_digits n) <=? 6)%nat.
    - rewrite digits_value_zeros.
      rewrite <- (app_nil_r (decimal_digits n)), digits_value_decimal.
      reflexivity.
    - rewrite <- (app_nil_r (decimal_digits n)), digits_value_decimal.
      reflexivity. }
  cbn [Nat.eqb]. unfold millionths.
  set (k := length padded) in *.
  assert (length (take (k - 6) padded) = (k - 6)%nat) as Ht
    by (rewrite length_take; lia).
  rewrite !length_app, Ht. change (length (lit ".")) with 1%nat.
  rewrite length_drop. fold k.
  replace (k - 6 + (1 + (k - (k - 6))) - 7)%nat with (k - 6)%nat by lia.
  rewrite take_app_length' by (symmetry; exact Ht).
  rewrite drop_app_length' by (symmetry; exact Ht).
  destruct (take (k - 6) padded) as [|c whole] eqn:Ew;
    [simpl in Ht; lia|].
  change (lit "." ++ drop (k - 6) padded) with (46 :: drop (k - 6) padded).
  cbn beta iota zeta. change (46 =? 46) with true. rewrite length_drop. fold k.
  replace (k - (k - 6))%nat with 6%nat by lia. cbn [Nat.eqb andb].
  rewrite <- Ew, take_drop. exact Hval.
Qed.

Section Properties.

Context {rt : Runtime}.

(** ** Which files a computation leaves alone *)

Lemma keeps_ret {A} p (a : A) : keeps p (ret a).
Proof. intros fs. reflexivity. Qed.

Lemma keeps_throw {A} p e : keeps p (@throw A e).
Proof. intros fs. reflexivity. Qed.

Lemma keeps_bind {A B} p (c : M A) (k : A -> M B) :
  keeps p c -> (forall a, keeps p (k a)) -> keeps p (bind c k).
Proof.
  intros Hc Hk fs. unfold bind. specialize (Hc fs).
  destruct (c fs) as [fs' [a|e]]; simpl in *.
  - rewrite (Hk a fs'). exact Hc.
  - exact Hc.
Qed.

Lemma keeps_try_catch {A} p (c : M A) (h : js_error -> M A) :
  keeps p c -> (forall e, keeps p (h e)) -> keeps p (try_catch c h).
Proof.
  intros Hc Hh fs. unfold try_catch. specialize (Hc fs).
  destruct (c fs) as [fs' [a|e]]; simpl in *.
  - exact Hc.
  - rewrite (Hh e fs'). exact Hc.
Qed.

Lemma keeps_lookup_file p q : keeps p (lookup_file q).
Proof. intros fs. reflexivity. Qed.

Lemma keeps_write_file p q c : q <> p -> keeps p (write_file q c).
Proof. intros Hne fs. simpl. apply lookup_insert_ne. exact Hne. Qed.

Lemma keeps_may_fail p fault : keeps p (may_fail fault).
Proof. destruct fault; [apply keeps_throw | apply keeps_ret]. Qed.

Lemma keeps_lift {A} p (r : result A) : keeps p (lift r).
Proof. destruct r; [apply keeps_ret | apply keeps_throw]. Qed.

Create HintDb keeps.

#[local] Hint Resolve keeps_ret keeps_throw keeps_lookup_file keeps_may_fail
  keeps_lift : keeps.

(** The uploads and the outputs are not the history file. *)
Lemma uploads_not_history name : UPLOADS_DIR ++ [name] <> HISTORY_FILE.
Proof. intros H. apply (f_equal (hd [])) in H. vm_compute in H. discriminate H. Qed.

Lemma output_not_history dir name : OUTPUT_DIR ++ [dir] ++ [name] <> HISTORY_FILE.
Proof. intros H. apply (f_equal (hd [])) in H. vm_compute in H. discriminate H. Qed.

Lemma compressImage_keeps env inputPath name :
  keeps HISTORY_FILE (compressImage env inputPath (UPLOADS_DIR ++ [name])).
Proof.
  unfold compressImage. apply keeps_try_catch; [|auto with keeps].
  apply keeps_bind; [auto with keeps|]. intros input.
  apply keeps_bind; [auto with keeps|]. intros bytes.
  apply keeps_bind; [apply keeps_write_file, uploads_not_history|]. intros _.
  apply keeps_bind; auto with keeps.
Qed.

Lemma createThumbnail_keeps env imagePath dir name :
  keeps HISTORY_FILE
    (createThumbnail env imagePath ((OUTPUT_DIR ++ [dir]) ++ [name])).
Proof.
  unfold createThumbnail. apply keeps_try_catch; [|auto with keeps].
  apply keeps_bind; [auto with keeps|]. intros input.
  apply keeps_bind; [auto with keeps|]. intros bytes.
  apply keeps_bind; [|auto with keeps].
  apply keeps_write_file. rewrite <- app_assoc. apply output_not_history.
Qed.

Lemma imageToBase64_keeps env p : keeps HISTORY_FILE (imageToBase64 env p).
Proof.
  unfold imageToBase64. apply keeps_bind; [auto with keeps|].
  intros [data|]; [|auto with keeps].
  apply keeps_bind; auto with keeps.
Qed.

Lemma usage_of_keeps message : keeps HISTORY_FILE (usage_of message).
Proof. unfold usage_of. destruct (usage message); auto with keeps. Qed.

Lemma first_text_keeps message : keeps HISTORY_FILE (first_text message).
Proof.
  unfold first_text. destruct (content message) as [|[text|] rest];
    auto with keeps.
Qed.

(** The build never touches the history file, whether it returns or
    throws. *)
Lemma build_keeps_history env imagePath customPrompt sessionId :
  keeps HISTORY_FILE
    (buildPrototypeWithClaudeAgent env imagePath customPrompt sessionId).
Proof.
  unfold buildPrototypeWithClaudeAgent.
  apply keeps_try_catch; [|auto with keeps].
  apply keeps_bind; [auto with keeps|]. intros _.
  apply keeps_bind; [apply compressImage_keeps|]. intros _.
  apply keeps_bind; [apply imageToBase64_keeps|]. intros imageBase64.
  apply keeps_bind; [auto with keeps|]. intros message.
  apply keeps_bind; [apply usage_of_keeps|]. intros counts.
  apply keeps_bind; [apply first_text_keeps|]. intros text.
  apply keeps_bind; [auto with keeps|]. intros _.
  apply keeps_bind.
  { apply keeps_write_file. rewrite <- app_assoc. apply output_not_history. }
  intros _.
  apply keeps_bind; [apply createThumbnail_keeps|]. intros _.
  auto with keeps.
Qed.

(** ** The upload route *)

Lemma handler_on_failed_build env file prompt fs fs1 e :
  buildPrototypeWithClaudeAgent env (UPLOADS_DIR ++ [file_filename file])
    (custom_prompt prompt) (uuidv4 env) fs = (fs1, Throw e) ->
  upload_handler env (Some file) prompt fs
  = (fs1, Return {| status := 500; body := failure_body (uuidv4 env) e |}).
Proof.
  intros H. unfold upload_handler, try_catch, bind. rewrite H. reflexivity.
Qed.

Lemma handler_on_build env file prompt fs fs1 r :
  buildPrototypeWithClaudeAgent env (UPLOADS_DIR ++ [file_filename file])
    (custom_prompt prompt) (uuidv4 env) fs = (fs1, Return r) ->
  upload_handler env (Some file) prompt fs
  = match addToHistory
            (historyEntry (uuidv4 env) file (custom_prompt prompt) r)
            (history_faults env) fs1 with
    | (fs2, Return _) =>
        (fs2, Return {| status := 200; body := success_body (uuidv4 env) r |})
    | (fs2, Throw e) =>
        (fs2, Return {| status := 500; body := failure_body (uuidv4 env) e |})
    end.
Proof.
  intros H. unfold upload_handler, try_catch, bind. rewrite H.
  destruct (addToHistory _ _ fs1) as [fs2 [[]|e]]; reflexivity.
Qed.

(** An error of the image library, or of the model service, fails the
    build with that error. *)
Lemma build_image_error env imagePath customPrompt sessionId fs e :
  mkdir_error env = None ->
  sharp_compress env (fs !! imagePath) = Throw e ->
  buildPrototypeWithClaudeAgent env imagePath customPrompt sessionId fs
  = (fs, Throw e).
Proof.
  intros Hm Hs.
  unfold buildPrototypeWithClaudeAgent, compressImage, try_catch, bind,
    lookup_file. rewrite Hm. simpl. rewrite Hs. reflexivity.
Qed.

Lemma build_api_error env imagePath customPrompt sessionId fs bytes e :
  mkdir_error env = None ->
  sharp_compress env (fs !! imagePath) = Return bytes ->
  output_metadata_error env = None -> read_image_error env = None ->
  (forall request, messages_create env request = Throw e) ->
  exists fs1,
    buildPrototypeWithClaudeAgent env imagePath customPrompt sessionId fs
    = (fs1, Throw e).
Proof.
  intros Hm Hs Ho Hr Ha.
  unfold buildPrototypeWithClaudeAgent, compressImage, imageToBase64,
    try_catch, bind, lookup_file, write_file. rewrite Hm. simpl. rewrite Hs.
  simpl. rewrite Ho. simpl. rewrite lookup_insert_eq. simpl. rewrite Hr. simpl.
  rewrite Ha. simpl. eexists. reflexivity.
Qed.

(** C2. When the build of an upload throws (as it does on an error of the
    image library or of the model service, [build_image_error] and
    [build_api_error]), the handler answers 500 with the failure body,
    whose [success] is [false], and the history file is what it was before
    the request: no entry is written. *)
Theorem failed_build_writes_no_history
  (env : environment) (file : multer_file) (prompt : option JsString.t)
  (fs fs1 : filesystem) (e : js_error) :
  buildPrototypeWithClaudeAgent env (UPLOADS_DIR ++ [file_filename file])
    (custom_prompt prompt) (uuidv4 env) fs = (fs1, Throw e) ->
  upload_handler env (Some file) prompt fs
  = (fs1, Return {| status := 500; body := failure_body (uuidv4 env) e |}) /\
  json_get "success" (failure_body (uuidv4 env) e) = Some (JBool false) /\
  fs1 !! HISTORY_FILE = fs !! HISTORY_FILE /\
  stored_sessions fs1 = stored_sessions fs.
Proof.
  intros H. split; [exact (handler_on_failed_build _ _ _ _ _ _ H)|].
  split; [reflexivity|].
  pose proof (build_keeps_history env (UPLOADS_DIR ++ [file_filename file])
                (custom_prompt prompt) (uuidv4 env) fs) as Hk.
  rewrite H in Hk. simpl in Hk. split; [exact Hk|].
  unfold stored_sessions. rewrite !loadHistory_spec. unfold loaded.
  rewrite Hk. reflexivity.
Qed.

(** The history file changes only in a request whose build returned. *)
Corollary history_written_only_after_build env file prompt fs :
  fst (upload_handler env (Some file) prompt fs) !! HISTORY_FILE
  <> fs !! HISTORY_FILE ->
  exists fs1 r,
    buildPrototypeWithClaudeAgent env (UPLOADS_DIR ++ [file_filename file])
      (custom_prompt prompt) (uuidv4 env) fs = (fs1, Return r).
Proof.
  intros Hne.
  destruct (buildPrototypeWithClaudeAgent env (UPLOADS_DIR ++ [file_filename file])
              (custom_prompt prompt) (uuidv4 env) fs) as [fs1 [r|e]] eqn:Hb.
  - exists fs1, r. reflexivity.
  - exfalso. apply Hne.
    pose proof (build_keeps_history env (UPLOADS_DIR ++ [file_filename file])
                  (custom_prompt prompt) (uuidv4 env) fs) as Hk.
    rewrite (handler_on_failed_build _ _ _ _ _ _ Hb).
    rewrite Hb in Hk. exact Hk.
Qed.

(** C8, at the failing input.  A request without a file is answered 400
    with a body that has [success] and [error] and no [sessionId]; the
    failure body of the [catch] branch has all three. *)
Theorem no_file_reply_lacks_session
  (env : environment) (prompt : option JsString.t) (fs : filesystem) :
  upload_handler env None prompt fs
  = (fs, Return {| status := 400; body := no_file_body |}) /\
  json_get "success" no_file_body = Some (JBool false) /\
  json_get "error" no_file_body = Some (JStr (lit "No file uploaded")) /\
  json_get "sessionId" no_file_body = None /\
  (forall e, json_get "sessionId" (failure_body (uuidv4 env) e)
             = Some (JStr (uuidv4 env))).
Proof. repeat split. Qed.


(** *** What a successful upload records *)

Lemma addToHistory_returned session io fs fs2 :
  addToHistory session io fs = (fs2, Return tt) ->
  write_error io = None ->
  exists rest, stored_sessions fs2 = session :: rest.
Proof.
  unfold addToHistory, bind. rewrite loadHistory_spec.
  destruct (loaded io fs) as [| | | | |members]; try discriminate.
  destruct (get_prop SESSIONS members) as [[| | | |sessions|]|];
    try discriminate.
  rewrite slice_cap. intros H Hw. revert H. run. rewrite Hw. simpl.
  intros [= <-].
  rewrite (stored_sessions_saved _ _ (take 100 (session :: sessions)))
    by apply get_set_prop.
  exists (take 99 sessions). reflexivity.
Qed.

Lemma custom_prompt_default prompt : custom_prompt prompt = default [] prompt.
Proof. destruct prompt as [[|c text]|]; reflexivity. Qed.

(** C9, amended.  After a successful upload whose history write is served,
    the entry at the head of the history has for [originalFilename] the
    name that the server's storage gave the file, [whiteboard-<time>.jpg],
    and for [customPrompt] the instruction text as submitted, empty when
    there was none. *)
Theorem history_entry_inputs
  (env : environment) (req : upload_request) (fs fs' : filesystem) (r : reply) :
  post_upload env req fs = (fs', Return r) ->
  status r = 200%Z ->
  write_error (history_faults env) = None ->
  exists entry rest,
    stored_sessions fs' = entry :: rest /\
    json_get "originalFilename" entry
    = Some (JStr (lit "whiteboard-" ++ dashed (upload_time env) ++ lit ".jpg")) /\
    json_get "customPrompt" entry = Some (JStr (default [] (prompt req))).
Proof.
  unfold post_upload, upload_single, bind.
  destruct (whiteboard req) as [part|].
  - destruct (negb (startsWith (lit "image/") (mimetype part)));
      [discriminate|].
    destruct (store_error env); [discriminate|]. cbn [may_fail ret].
    destruct (FILE_SIZE_LIMIT <=? _)%Z; [discriminate|].
    unfold write_file, ret. cbn beta iota.
    set (fs0 := <[_ := _]> fs).
    set (file := {| file_originalname := originalname part;
                    file_mimetype := mimetype part;
                    file_filename := storage_filename env;
                    file_size := Z.of_nat (length (data part)) |}).
    destruct (buildPrototypeWithClaudeAgent env (UPLOADS_DIR ++ [file_filename file])
                (custom_prompt (prompt req)) (uuidv4 env) fs0)
      as [fs1 [result|e]] eqn:Hb.
    + rewrite (handler_on_build _ _ _ _ _ _ Hb).
      destruct (addToHistory _ _ fs1) as [fs2 [[]|e]] eqn:Ha.
      * intros [= <- <-] _ Hw.
        destruct (addToHistory_returned _ _ _ _ Ha Hw) as [rest Hrest].
        eexists _, rest. split; [exact Hrest|]. split; [reflexivity|].
        rewrite <- custom_prompt_default. reflexivity.
      * intros [= <- <-]. discriminate.
    + rewrite (handler_on_failed_build _ _ _ _ _ _ Hb).
      intros [= <- <-]. discriminate.
  - unfold ret. cbn beta iota. intros [= <- <-]. discriminate.
Qed.

(** ** The artifact text *)

Lemma startsWith_html_not_doctype s :
  startsWith HTML_PREFIX s = true -> startsWith DOCTYPE_PREFIX s = false.
Proof.
  unlit. destruct s as [|c1 [|c2 s]]; simpl; try discriminate.
  - rewrite andb_false_r. reflexivity.
  - destruct (N.eqb_spec 104 c2) as [<-|]; [|rewrite andb_false_r; discriminate].
    intros _. rewrite andb_false_r. reflexivity.
Qed.

(** C3, amended.  The text written to [index.html] begins with
    [<!DOCTYPE] unless the stripped response begins with [<html]: the
    declaration line is put in front exactly when the stripped response
    begins with neither [<!DOCTYPE] nor [<html], and otherwise the stripped
    response is written as it is. *)
Theorem artifact_doctype_unless_html_root (text : JsString.t) :
  startsWith DOCTYPE_PREFIX (clean_html text)
  = negb (startsWith HTML_PREFIX (strip_fences text)) /\
  clean_html text
  = (if startsWith DOCTYPE_PREFIX (strip_fences text)
        || startsWith HTML_PREFIX (strip_fences text)
     then strip_fences text
     else lit "<!DOCTYPE html>" ++ [LF] ++ strip_fences text).
Proof.
  unfold clean_html, ensure_doctype.
  destruct (startsWith DOCTYPE_PREFIX (strip_fences text)) eqn:Hd;
    destruct (startsWith HTML_PREFIX (strip_fences text)) eqn:Hh; simpl.
  - rewrite (startsWith_html_not_doctype _ Hh) in Hd. discriminate.
  - split; [exact Hd | reflexivity].
  - split; [exact Hd | reflexivity].
  - split; reflexivity.
Qed.

(** C3, as stated, fails: a response that begins with [<html] is written
    without a document-type declaration. *)
Lemma html_root_gets_no_doctype :
  clean_html (lit "<html><body>Hello</body></html>")
  = lit "<html><body>Hello</body></html>" /\
  startsWith (lit "<!DOCTYPE html>") (clean_html (lit "<html><body>Hello</body></html>"))
  = false /\
  startsWith DOCTYPE_PREFIX (clean_html (lit "<html><body>Hello</body></html>"))
  = false.
Proof. vm_compute. repeat split. Qed.

(** C7. For a body without a triple backtick of its own, the response
    fenced as a generic code block and the response fenced as an [html]
    code block give the same artifact text. *)
Theorem fenced_generic_or_tagged (t : JsString.t) :
  includes FENCE t = false ->
  clean_html (fenced t) = clean_html (fenced_html t).
Proof.
  intros H. unfold clean_html.
  rewrite (strip_fences_fenced t H), (strip_fences_fenced_html t H).
  reflexivity.
Qed.

Lemma fenced_generic_or_tagged_witness :
  includes FENCE (lit "<p>Hello</p>") = false /\
  clean_html (fenced (lit "<p>Hello</p>"))
  = clean_html (fenced_html (lit "<p>Hello</p>")).
Proof.
  split; [reflexivity|].
  apply (fenced_generic_or_tagged (lit "<p>Hello</p>")). reflexivity.
Defined.

Example fenced_example :
  clean_html (fenced_html (lit "<p>Hello</p>"))
  = lit "<!DOCTYPE html>" ++ [LF] ++ lit "<p>Hello</p>".
Proof. vm_compute. reflexivity. Qed.

(** C10. The clean-up removes every marker, wherever the response has it,
    and nothing but the markers.  No triple backtick, and so no [```html]
    marker either, is left anywhere in the artifact text of any response.
    And of a response made of texts without backticks with a marker
    between each two of them, in any number and at any place, the artifact
    text is these texts in their order, each without the newline that
    followed its marker, trimmed as a whole and under the doctype line if
    it has none: every marker is deleted, not only one at the start and one
    at the end, and every other character of the response is kept. *)
Theorem no_fence_left
  (text head : JsString.t) (rest : list (marker * JsString.t)) :
  (includes FENCE (clean_html text) = false /\
   includes FENCE_HTML (clean_html text) = false) /\
  (no_backtick head = true -> well_marked rest = true ->
   clean_html (with_markers head rest)
   = ensure_doctype (trim (without_markers head rest))).
Proof.
  split.
  - assert (includes FENCE (clean_html text) = false) as H.
    { unfold clean_html, strip_fences.
      apply ensure_doctype_clean, includes_trim.
      apply (remove_fences_clean (S (length (remove_html_fences text)))). lia. }
    split; [exact H|].
    change FENCE_HTML with (FENCE ++ lit "html"). apply includes_longer, H.
  - intros Hh Hw. unfold clean_html, strip_fences.
    rewrite (remove_markers head rest Hh Hw). reflexivity.
Qed.

Lemma no_fence_left_witness :
  let head := lit "<p>a</p>" in
  let rest := [(Tagged, [LF] ++ lit "x = 1" ++ [LF]);
               (Bare, [LF] ++ lit "<p>b</p>");
               (Bare, lit "<p>c</p>")] in
  let text := lit "<p>a</p>```html" ++ [LF] ++ lit "x = 1" ++ [LF] ++ lit "```"
              ++ [LF] ++ lit "<p>b</p>```<p>c</p>" in
  with_markers head rest = text /\
  (includes FENCE (clean_html text) = false /\
   includes FENCE_HTML (clean_html text) = false) /\
  (no_backtick head = true -> well_marked rest = true ->
   clean_html (with_markers head rest)
   = ensure_doctype (trim (without_markers head rest))) /\
  ensure_doctype (trim (without_markers head rest))
  = lit "<!DOCTYPE html>" ++ [LF] ++ lit "<p>a</p>x = 1" ++ [LF]
    ++ lit "<p>b</p><p>c</p>".
Proof.
  intros head rest text. split; [vm_compute; reflexivity|].
  split; [exact (proj1 (no_fence_left text head rest))|].
  split; [exact (proj2 (no_fence_left text head rest))|].
  vm_compute. reflexivity.
Defined.

Example interior_fences_removed :
  clean_html (lit "<p>a</p>```js" ++ [LF] ++ lit "x = 1" ++ [LF] ++ lit "```<p>b</p>")
  = lit "<!DOCTYPE html>" ++ [LF] ++ lit "<p>a</p>js" ++ [LF] ++ lit "x = 1" ++ [LF]
    ++ lit "<p>b</p>".
Proof. vm_compute. reflexivity. Qed.

(** *** The artifact on disk *)

Lemma thumbnail_not_index dir :
  dir ++ [lit "thumbnail.jpg"] <> dir ++ [lit "index.html"].
Proof. intros H. apply app_inv_head in H. vm_compute in H. discriminate H. Qed.

(** A build that returns has written the cleaned text of the first content
    block of the model's response to [index.html] in its output directory. *)
Lemma build_writes_artifact env imagePath customPrompt sessionId fs fs' r :
  buildPrototypeWithClaudeAgent env imagePath customPrompt sessionId fs
  = (fs', Return r) ->
  exists request message text rest,
    messages_create env request = Return message /\
    content message = Some text :: rest /\
    fs' !! (outputDir r ++ [lit "index.html"]) = Some (Text (clean_html text)).
Proof.
  unfold buildPrototypeWithClaudeAgent, compressImage, imageToBase64,
    createThumbnail, first_text, try_catch, bind, lookup_file, write_file.
  destruct (mkdir_error env); simpl; [discriminate|].
  destruct (sharp_compress env (fs !! imagePath)) as [bytes|e]; simpl;
    [|discriminate].
  destruct (output_metadata_error env); simpl; [discriminate|].
  rewrite lookup_insert_eq. simpl.
  destruct (read_image_error env); simpl; [discriminate|].
  match goal with |- context [messages_create env ?q] =>
    set (request := q); destruct (messages_create env request)
      as [message|e] eqn:Hm end; simpl; [|discriminate].
  unfold usage_of. destruct (usage message) as [counts|]; simpl; [|discriminate].
  destruct (content message) as [|[text|] rest] eqn:Hc; simpl; try discriminate.
  destruct (index_write_error env); simpl; [discriminate|].
  destruct (sharp_thumbnail env _) as [thumb|e]; simpl.
  - intros [= <- <-]. exists request, message, text, rest.
    split; [exact Hm|]. split; [exact Hc|]. simpl.
    rewrite lookup_insert_ne.
    + apply lookup_insert_eq.
    + exact (thumbnail_not_index
               (OUTPUT_DIR ++ [lit "prototype-" ++ dashed (build_time env)])).
  - intros [= <- <-]. exists request, message, text, rest.
    split; [exact Hm|]. split; [exact Hc|]. simpl.
    apply lookup_insert_eq.
Qed.

(** *** The files of a build *)










(** What a build that returns has met, and what it returns. *)
Lemma build_returned env imagePath customPrompt sessionId fs fs' r :
  buildPrototypeWithClaudeAgent env imagePath customPrompt sessionId fs
  = (fs', Return r) ->
  let dir := lit "prototype-" ++ dashed (build_time env) in
  (mkdir_error env = None /\ output_metadata_error env = None /\
   read_image_error env = None /\ index_write_error env = None) /\
  exists bytes message counts text rest,
    sharp_compress env (fs !! imagePath) = Return bytes /\
    messages_create env {| req_model := MODEL;
                           req_max_tokens := MAX_TOKENS;
                           req_image := base64 (Image bytes);
                           req_text := systemPrompt customPrompt |}
    = Return message /\
    usage message = Some counts /\
    content message = Some text :: rest /\
    fs' !! ((OUTPUT_DIR ++ [dir]) ++ [lit "index.html"])
    = Some (Text (clean_html text)) /\
    r = {| outputDir := OUTPUT_DIR ++ [dir];
           prototypeUrl := lit "/demos/" ++ dir ++ lit "/index.html";
           thumbnailUrl := lit "/demos/" ++ dir ++ lit "/thumbnail.jpg";
           tokens_input := input_tokens counts;
           tokens_output := output_tokens counts;
           cost := parseFloat
                     (totalCost (calculateCost (input_tokens counts)
                                   (output_tokens counts)));
           costs := calculateCost (input_tokens counts) (output_tokens counts);
           duration :=
             parseFloat
               (toFixed (js_div (of_Z (call_end env - call_start env))
                           (of_Z 1000)) 2);
           files := [lit "index.html"];
           timestamp := finish_time env;
           model := MODEL |}.
Proof.
  intros H dir. revert H.
  unfold buildPrototypeWithClaudeAgent, compressImage, imageToBase64,
    createThumbnail, usage_of, first_text, try_catch, bind, lookup_file,
    write_file.
  destruct (mkdir_error env); simpl; [discriminate|].
  destruct (sharp_compress env (fs !! imagePath)) as [bytes|e]; simpl;
    [|discriminate].
  destruct (output_metadata_error env); simpl; [discriminate|].
  rewrite lookup_insert_eq. simpl.
  destruct (read_image_error env); simpl; [discriminate|].
  destruct (messages_create env _) as [message|e] eqn:Hm; simpl; [|discriminate].
  destruct (usage message) as [counts|] eqn:Hu; simpl; [|discriminate].
  destruct (content message) as [|[text|] rest] eqn:Hc; simpl; try discriminate.
  destruct (index_write_error env); simpl; [discriminate|].
  intros H. split; [repeat split|].
  exists bytes, message, counts, text, rest.
  split; [reflexivity|]. split; [exact Hm|]. split; [exact Hu|].
  split; [exact Hc|].
  destruct (sharp_thumbnail env _) as [thumb|e]; simpl in H;
    injection H as <- <-; (split; [|reflexivity]).
  - rewrite lookup_insert_ne; [apply lookup_insert_eq|].
    exact (thumbnail_not_index
             (OUTPUT_DIR ++ [lit "prototype-" ++ dashed (build_time env)])).
  - apply lookup_insert_eq.
Qed.

(** When nothing fails before the thumbnail, the build returns. *)
Lemma build_returns env imagePath customPrompt sessionId fs
  bytes message counts text rest :
  mkdir_error env = None -> output_metadata_error env = None ->
  read_image_error env = None -> index_write_error env = None ->
  sharp_compress env (fs !! imagePath) = Return bytes ->
  messages_create env {| req_model := MODEL;
                         req_max_tokens := MAX_TOKENS;
                         req_image := base64 (Image bytes);
                         req_text := systemPrompt customPrompt |}
  = Return message ->
  usage message = Some counts ->
  content message = Some text :: rest ->
  exists fs' r,
    buildPrototypeWithClaudeAgent env imagePath customPrompt sessionId fs
    = (fs', Return r).
Proof.
  intros Hd Ho Hr Hi Hs Hm Hu Hc.
  unfold buildPrototypeWithClaudeAgent, compressImage, imageToBase64,
    createThumbnail, usage_of, first_text, try_catch, bind, lookup_file,
    write_file.
  rewrite Hd. simpl. rewrite Hs. simpl. rewrite Ho. simpl.
  rewrite lookup_insert_eq. simpl. rewrite Hr. simpl.
  rewrite Hm. simpl. rewrite Hu. simpl. rewrite Hc. simpl. rewrite Hi. simpl.
  destruct (sharp_thumbnail env _) as [thumb|e]; simpl; eexists _, _; reflexivity.
Qed.

(** X10. The build returns exactly when none of its steps before the
    thumbnail fails: the output directory can be made; the image library
    compresses what is at the image path and reads the metadata of the file
    it wrote; the compressed file can be read; the model service answers
    the request (the configured model and token limit, the base64 text of
    the compressed image, the prompt with the user's overrides) with a
    message that has usage counts and a first content block with text; and
    [index.html] can be written.  Whether a thumbnail can be made plays no
    part. *)
Theorem build_returns_iff
  (env : environment) (imagePath : path) (customPrompt sessionId : JsString.t)
  (fs : filesystem) :
  (exists fs' r,
     buildPrototypeWithClaudeAgent env imagePath customPrompt sessionId fs
     = (fs', Return r))
  <->
  ((mkdir_error env = None /\ output_metadata_error env = None /\
    read_image_error env = None /\ index_write_error env = None) /\
   exists bytes message counts text rest,
     sharp_compress env (fs !! imagePath) = Return bytes /\
     messages_create env {| req_model := MODEL;
                            req_max_tokens := MAX_TOKENS;
                            req_image := base64 (Image bytes);
                            req_text := systemPrompt customPrompt |}
     = Return message /\
     usage message = Some counts /\
     content message = Some text :: rest).
Proof.
  split.
  - intros (fs' & r & H).
    destruct (build_returned _ _ _ _ _ _ _ H)
      as (Hf & bytes & message & counts & text & rest & Hs & Hm & Hu & Hc & _ & _).
    split; [exact Hf|]. exists bytes, message, counts, text, rest.
    split; [exact Hs|]. split; [exact Hm|]. split; [exact Hu | exact Hc].
  - intros ((Hd & Ho & Hr & Hi) & bytes & message & counts & text & rest
            & Hs & Hm & Hu & Hc).
    exact (build_returns _ _ _ _ _ _ _ _ _ _ Hd Ho Hr Hi Hs Hm Hu Hc).
Qed.

(** X11. What the result of a build reports is what is on disk: the
    artifact in [index.html], the token counts and the costs of the result
    come from one message, the answer of the model service to the request
    of this build, and the URLs of the result name the directory that holds
    the artifact. *)
Theorem build_result_of_message
  (env : environment) (imagePath : path) (customPrompt sessionId : JsString.t)
  (fs fs' : filesystem) (r : build_result) :
  buildPrototypeWithClaudeAgent env imagePath customPrompt sessionId fs
  = (fs', Return r) ->
  exists bytes message counts text rest,
    messages_create env {| req_model := MODEL;
                           req_max_tokens := MAX_TOKENS;
                           req_image := base64 (Image bytes);
                           req_text := systemPrompt customPrompt |}
    = Return message /\
    usage message = Some counts /\
    content message = Some text :: rest /\
    fs' !! (outputDir r ++ [lit "index.html"]) = Some (Text (clean_html text)) /\
    tokens_input r = input_tokens counts /\
    tokens_output r = output_tokens counts /\
    costs r = calculateCost (input_tokens counts) (output_tokens counts) /\
    cost r = parseFloat (totalCost (costs r)) /\
    prototypeUrl r = lit "/demos/" ++ basename (outputDir r) ++ lit "/index.html" /\
    thumbnailUrl r = lit "/demos/" ++ basename (outputDir r) ++ lit "/thumbnail.jpg".
Proof.
  intros H.
  destruct (build_returned _ _ _ _ _ _ _ H)
    as (_ & bytes & message & counts & text & rest & _ & Hm & Hu & Hc & Hi & ->).
  exists bytes, message, counts, text, rest. split; [exact Hm|].
  split; [exact Hu|]. split; [exact Hc|].
  split; [exact Hi|]. cbn. repeat split; reflexivity.
Qed.



Lemma output_not_upload dir file name :
  UPLOADS_DIR ++ [name] <> (OUTPUT_DIR ++ [dir]) ++ [file].
Proof. intros H. apply (f_equal (hd [])) in H. vm_compute in H. discriminate H. Qed.

(** X12. A build that throws has changed nothing on disk but, at most, the
    compressed copy of the image: no [index.html] and no thumbnail is
    written, and every other file, the image itself included, is as it
    was. *)
Theorem failed_build_footprint
  (env : environment) (imagePath : path) (customPrompt sessionId : JsString.t)
  (fs fs1 : filesystem) (e : js_error) :
  buildPrototypeWithClaudeAgent env imagePath customPrompt sessionId fs
  = (fs1, Throw e) ->
  forall p : path,
    p <> UPLOADS_DIR ++ [lit "compressed-" ++ basename imagePath] ->
    fs1 !! p = fs !! p.
Proof.
  unfold buildPrototypeWithClaudeAgent, compressImage, imageToBase64,
    createThumbnail, usage_of, first_text, try_catch, bind, lookup_file,
    write_file.
  destruct (mkdir_error env); simpl; [intros [= <- _] p _; reflexivity|].
  destruct (sharp_compress env (fs !! imagePath)) as [bytes|e']; simpl;
    [|intros [= <- _] p _; reflexivity].
  destruct (output_metadata_error env); simpl;
    [intros [= <- _] p Hp; apply lookup_insert_ne; congruence|].
  rewrite lookup_insert_eq. simpl.
  destruct (read_image_error env); simpl;
    [intros [= <- _] p Hp; apply lookup_insert_ne; congruence|].
  destruct (messages_create env _) as [message|e']; simpl;
    [|intros [= <- _] p Hp; apply lookup_insert_ne; congruence].
  destruct (usage message) as [counts|]; simpl;
    [|intros [= <- _] p Hp; apply lookup_insert_ne; congruence].
  destruct (content message) as [|[text|] rest]; simpl;
    try (intros [= <- _] p Hp; apply lookup_insert_ne; congruence).
  destruct (index_write_error env); simpl;
    [intros [= <- _] p Hp; apply lookup_insert_ne; congruence|].
  destruct (sharp_thumbnail env _); simpl; discriminate.
Qed.

(** X13. A thumbnail that cannot be made does not fail the build: when the
    image library throws on the compressed image, a build that returns has
    written no thumbnail file, and its result still names one. *)
Theorem thumbnail_failure_tolerated
  (env : environment) (imagePath : path) (customPrompt sessionId : JsString.t)
  (fs fs' : filesystem) (r : build_result) (e : js_error) :
  buildPrototypeWithClaudeAgent env imagePath customPrompt sessionId fs
  = (fs', Return r) ->
  sharp_thumbnail env
    (fs' !! (UPLOADS_DIR ++ [lit "compressed-" ++ basename imagePath]))
  = Throw e ->
  fs' !! (outputDir r ++ [lit "thumbnail.jpg"])
  = fs !! (outputDir r ++ [lit "thumbnail.jpg"]) /\
  thumbnailUrl r
  = lit "/demos/prototype-" ++ dashed (build_time env) ++ lit "/thumbnail.jpg".
Proof.
  unfold buildPrototypeWithClaudeAgent, compressImage, imageToBase64,
    createThumbnail, usage_of, first_text, try_catch, bind, lookup_file,
    write_file.
  destruct (mkdir_error env); simpl; [discriminate|].
  destruct (sharp_compress env (fs !! imagePath)) as [bytes|e']; simpl;
    [|discriminate].
  destruct (output_metadata_error env); simpl; [discriminate|].
  rewrite lookup_insert_eq. simpl.
  destruct (read_image_error env); simpl; [discriminate|].
  destruct (messages_create env _) as [message|e']; simpl; [|discriminate].
  destruct (usage message) as [counts|]; simpl; [|discriminate].
  destruct (content message) as [|[text|] rest]; simpl; try discriminate.
  destruct (index_write_error env); simpl; [discriminate|].
  set (compressed := UPLOADS_DIR ++ [lit "compressed-" ++ basename imagePath]).
  set (dir := OUTPUT_DIR ++ [lit "prototype-" ++ dashed (build_time env)]).
  assert (dir ++ [lit "index.html"] <> compressed) as Hic.
  { intros H. symmetry in H. exact (output_not_upload _ _ _ H). }
  assert (dir ++ [lit "thumbnail.jpg"] <> compressed) as Htc.
  { intros H. symmetry in H. exact (output_not_upload _ _ _ H). }
  rewrite lookup_insert_ne by exact Hic. rewrite lookup_insert_eq.
  destruct (sharp_thumbnail env (Some (Image bytes))) as [thumb|e'] eqn:Ht; simpl.
  - intros [= <- <-]. rewrite lookup_insert_ne by exact Htc.
    rewrite lookup_insert_ne by exact Hic. rewrite lookup_insert_eq.
    rewrite Ht. discriminate.
  - intros [= <- <-] _. cbn [outputDir thumbnailUrl]. split.
    + rewrite lookup_insert_ne by (apply not_eq_sym, thumbnail_not_index).
      apply lookup_insert_ne. apply not_eq_sym. exact Htc.
    + reflexivity.
Qed.



(** *** The upload on disk *)







(** *** The replies of the upload route *)

Lemma or_else_nonempty a b : b <> [] -> or_else a b <> [].
Proof. destruct a; [intros H; exact H | discriminate]. Qed.

(** X16. The handler of [POST /upload] never throws: it answers 400 exactly
    when the request has no file, and else 200 or 500; the [success] member
    of the body is [true] exactly in a 200 reply, and every other reply
    carries an [error] text that is not empty. *)
Theorem upload_reply_shape
  (env : environment) (file : option multer_file) (prompt : option JsString.t)
  (fs : filesystem) :
  exists fs' r,
    upload_handler env file prompt fs = (fs', Return r) /\
    (status r = 200 \/ status r = 400 \/ status r = 500)%Z /\
    (status r = 400%Z <-> file = None) /\
    json_get "success" (body r) = Some (JBool (status r =? 200)%Z) /\
    (status r <> 200%Z ->
     exists text, json_get "error" (body r) = Some (JStr text) /\ text <> []).
Proof.
  destruct file as [file|].
  - destruct (buildPrototypeWithClaudeAgent env (UPLOADS_DIR ++ [file_filename file])
                (custom_prompt prompt) (uuidv4 env) fs) as [fs1 [r|e]] eqn:Hb.
    + rewrite (handler_on_build _ _ _ _ _ _ Hb).
      destruct (addToHistory _ _ fs1) as [fs2 [[]|e]]; eexists _, _;
        (split; [reflexivity|]); cbn [status body].
      * split; [auto|]. split; [split; discriminate|]. split; [reflexivity|].
        intros H. contradiction H. reflexivity.
      * split; [auto|]. split; [split; discriminate|]. split; [reflexivity|].
        intros _. eexists. split; [reflexivity|].
        apply or_else_nonempty. discriminate.
    + rewrite (handler_on_failed_build _ _ _ _ _ _ Hb).
      eexists _, _. split; [reflexivity|]. cbn [status body].
      split; [auto|]. split; [split; discriminate|]. split; [reflexivity|].
      intros _. eexists. split; [reflexivity|].
      apply or_else_nonempty. discriminate.
  - eexists _, _. split; [reflexivity|]. cbn [status body].
    split; [auto|]. split; [split; reflexivity|]. split; [reflexivity|].
    intros _. eexists. split; [reflexivity|]. discriminate.
Qed.


(** *** The history after an upload *)

(** X7. A failed write of the history is not reported: when the build of an
    upload returns and the history file then cannot be written, the handler
    still answers 200 with [success: true], and the history file is what it
    was before the request, without the session. *)
Theorem history_write_failure_is_silent
  (env : environment) (file : multer_file) (prompt : option JsString.t)
  (fs fs1 : filesystem) (r : build_result) :
  buildPrototypeWithClaudeAgent env (UPLOADS_DIR ++ [file_filename file])
    (custom_prompt prompt) (uuidv4 env) fs = (fs1, Return r) ->
  well_shaped fs ->
  is_Some (write_error (history_faults env)) ->
  upload_handler env (Some file) prompt fs
  = (fs1, Return {| status := 200; body := success_body (uuidv4 env) r |}) /\
  json_get "success" (success_body (uuidv4 env) r) = Some (JBool true) /\
  fs1 !! HISTORY_FILE = fs !! HISTORY_FILE.
Proof.
  intros Hb Hfs [e Hw].
  pose proof (build_keeps_history env (UPLOADS_DIR ++ [file_filename file])
                (custom_prompt prompt) (uuidv4 env) fs) as Hk.
  rewrite Hb in Hk. cbn [fst] in Hk.
  rewrite (handler_on_build _ _ _ _ _ _ Hb).
  destruct (addToHistory_spec
              (historyEntry (uuidv4 env) file (custom_prompt prompt) r)
              (history_faults env) fs1 (well_shaped_same _ _ Hk Hfs))
    as (members & sessions & _ & _ & ->).
  rewrite Hw. split; [reflexivity|]. split; [reflexivity | exact Hk].
Qed.

(** X8. A history file that parses and is no object with a [sessions]
    array fails every upload after its prototype was built: the handler
    answers 500 with [success: false] although [index.html] has been
    written, and the history file stays as it is. *)
Theorem misshapen_history_fails_upload
  (env : environment) (file : multer_file) (prompt : option JsString.t)
  (fs fs1 : filesystem) (r : build_result) (v : json) :
  buildPrototypeWithClaudeAgent env (UPLOADS_DIR ++ [file_filename file])
    (custom_prompt prompt) (uuidv4 env) fs = (fs1, Return r) ->
  fs !! HISTORY_FILE = Some (Json v) ->
  read_error (history_faults env) = None ->
  (forall sessions, json_get "sessions" v <> Some (JArr sessions)) ->
  exists e text,
    upload_handler env (Some file) prompt fs
    = (fs1, Return {| status := 500; body := failure_body (uuidv4 env) e |}) /\
    json_get "success" (failure_body (uuidv4 env) e) = Some (JBool false) /\
    fs1 !! (outputDir r ++ [lit "index.html"]) = Some (Text text) /\
    fs1 !! HISTORY_FILE = Some (Json v).
Proof.
  intros Hb Hf Hr Hv.
  pose proof (build_keeps_history env (UPLOADS_DIR ++ [file_filename file])
                (custom_prompt prompt) (uuidv4 env) fs) as Hk.
  rewrite Hb in Hk. cbn [fst] in Hk. rewrite Hf in Hk.
  destruct (build_writes_artifact _ _ _ _ _ _ _ Hb)
    as (request & message & text & rest & _ & _ & Hi).
  exists type_error, (clean_html text).
  rewrite (handler_on_build _ _ _ _ _ _ Hb).
  rewrite (addToHistory_misshapen _ _ _ v Hk Hr Hv).
  split; [reflexivity|]. split; [reflexivity|]. split; [exact Hi | exact Hk].
Qed.


(** X9. What the client is told is what the history then shows: after an
    upload answered 200 whose history write was served, a served
    [GET /history] answers 200 with a list whose first session carries the
    [sessionId] of the reply, which is the identifier drawn for the request,
    the reply's [demoUrl] as its [prototypeUrl], and the same thumbnail
    URL, output directory, token counts, costs, duration and files. *)
Theorem upload_then_history
  (env : environment) (req : upload_request) (fs fs' : filesystem) (r : reply)
  (io : history_io) :
  post_upload env req fs = (fs', Return r) ->
  status r = 200%Z ->
  write_error (history_faults env) = None ->
  read_error io = None ->
  exists entry rest r',
    get_history io fs' = (fs', Return r') /\
    status r' = 200%Z /\
    json_get "sessions" (body r') = Some (JArr (entry :: rest)) /\
    json_get "sessionId" (body r) = Some (JStr (uuidv4 env)) /\
    json_get "sessionId" entry = Some (JStr (uuidv4 env)) /\
    json_get "prototypeUrl" entry = json_get "demoUrl" (body r) /\
    Forall (fun name => json_get name entry = json_get name (body r))
      ["thumbnailUrl"; "outputDir"; "tokens"; "cost"; "costs"; "duration";
       "files"]%string.
Proof.
  unfold post_upload, upload_single, bind.
  destruct (whiteboard req) as [part|].
  - destruct (negb (startsWith (lit "image/") (mimetype part)));
      [discriminate|].
    destruct (store_error env); [discriminate|]. cbn [may_fail ret].
    destruct (FILE_SIZE_LIMIT <=? _)%Z; [discriminate|].
    unfold write_file, ret. cbn beta iota.
    set (fs0 := <[_ := _]> fs).
    set (file := {| file_originalname := originalname part;
                    file_mimetype := mimetype part;
                    file_filename := storage_filename env;
                    file_size := Z.of_nat (length (data part)) |}).
    destruct (buildPrototypeWithClaudeAgent env (UPLOADS_DIR ++ [file_filename file])
                (custom_prompt (prompt req)) (uuidv4 env) fs0)
      as [fs1 [result|e]] eqn:Hb.
    + rewrite (handler_on_build _ _ _ _ _ _ Hb).
      destruct (addToHistory _ _ fs1) as [fs2 [[]|e]] eqn:Ha.
      * intros [= <- <-] _ Hw Hr.
        destruct (addToHistory_returned _ _ _ _ Ha Hw) as [rest Hrest].
        pose proof (addToHistory_returned_shape _ _ _ _ Ha Hw) as Hshape.
        eexists _, rest, _.
        split; [rewrite (get_history_served _ _ Hshape Hr), Hrest; reflexivity|].
        split; [reflexivity|]. split; [reflexivity|].
        split; [reflexivity|]. split; [reflexivity|]. split; [reflexivity|].
        repeat constructor.
      * intros [= <- <-]. discriminate.
    + rewrite (handler_on_failed_build _ _ _ _ _ _ Hb).
      intros [= <- <-]. discriminate.
  - unfold ret. cbn beta iota. intros [= <- <-]. discriminate.
Qed.


(** *** Names made from a timestamp *)

Lemma dashed_char (c : N) :
  let d := if (c =? 58) || (c =? 46) then 45 else c in d <> 58 /\ d <> 46.
Proof.
  simpl. destruct (N.eqb_spec c 58) as [->|H1]; simpl; [split; discriminate|].
  destruct (N.eqb_spec c 46) as [->|H2]; [split; discriminate|].
  split; assumption.
Qed.


(** X20. The name under which an upload is stored is made of the time of
    the upload alone, with every colon and dot replaced by a dash and the
    other characters kept: it has no colon, its only dot is the one of the
    [.jpg] it ends with whatever the type of the upload, and it does not
    depend on the name the client gave the file. *)
Theorem stored_name_of_upload (env : environment) :
  exists stem,
    storage_filename env = lit "whiteboard-" ++ stem ++ lit ".jpg" /\
    length stem = length (upload_time env) /\
    (forall i c, upload_time env !! i = Some c ->
       stem !! i = Some (if (c =? 58) || (c =? 46) then 45 else c)) /\
    ~ In 58 (storage_filename env) /\
    count_occ N.eq_dec (storage_filename env) 46 = 1%nat.
Proof.
  exists (dashed (upload_time env)). split; [reflexivity|].
  split; [apply length_map|]. split.
  - unfold dashed. induction (upload_time env) as [|x iso IH]; intros [|i] c H;
      try discriminate H.
    + injection H as ->. reflexivity.
    + exact (IH i c H).
  - assert (forall d, In d (dashed (upload_time env)) -> d <> 58 /\ d <> 46) as Hd.
    { intros d Hin. unfold dashed in Hin. apply in_map_iff in Hin as (c & <- & _).
      apply dashed_char. }
    unfold storage_filename. split.
    + rewrite !in_app_iff. intros [H | [H | H]].
      * vm_compute in H. repeat (destruct H as [H|H]; [discriminate H|]). exact H.
      * apply Hd in H. destruct H as [H _]. congruence.
      * vm_compute in H. repeat (destruct H as [H|H]; [discriminate H|]). exact H.
    + rewrite !count_occ_app.
      assert (count_occ N.eq_dec (dashed (upload_time env)) 46 = 0%nat) as ->.
      { apply count_occ_not_In. intros H.
        apply Hd in H. destruct H as [_ H]. congruence. }
      reflexivity.
Qed.

(** *** The prompt *)

(** X21. The prompt sent to the model is the template with the block of
    user overrides exactly when the request carries a prompt that is not
    empty; the block then holds the prompt as it was sent.  Without one
    the template is sent with nothing in the place of the block. *)
Theorem overrides_only_when_given (prompt : option JsString.t) :
  let text := systemPrompt (custom_prompt prompt) in
  let heading := lit "=== USER-SPECIFIED OVERRIDES ===" in
  (includes heading text = true <-> exists p, prompt = Some p /\ p <> []) /\
  (forall p, prompt = Some p -> p <> [] ->
     text = PROMPT_HEAD ++ [LF] ++ heading ++ [LF] ++ p ++ [LF]
            ++ lit "(These instructions override the default design specifications above)"
            ++ [LF] ++ PROMPT_TAIL) /\
  (prompt = None \/ prompt = Some [] -> text = PROMPT_HEAD ++ PROMPT_TAIL).
Proof.
  intros text heading.
  assert (includes heading (PROMPT_HEAD ++ PROMPT_TAIL) = false) as Hplain
    by (vm_compute; reflexivity).
  assert (forall p, prompt = Some p -> p <> [] ->
     text = PROMPT_HEAD ++ [LF] ++ heading ++ [LF] ++ p ++ [LF]
            ++ lit "(These instructions override the default design specifications above)"
            ++ [LF] ++ PROMPT_TAIL) as Hgiven.
  { intros p -> Hp. destruct p as [|c p]; [contradiction Hp; reflexivity|].
    unfold text, systemPrompt, custom_prompt, or_else, overrides.
    rewrite <- !app_assoc. reflexivity. }
  assert (prompt = None \/ prompt = Some [] -> text = PROMPT_HEAD ++ PROMPT_TAIL)
    as Hnone by (intros [-> | ->]; reflexivity).
  split; [|split; assumption]. split.
  - intros H. destruct prompt as [[|c p]|].
    + rewrite Hnone, Hplain in H by auto. discriminate H.
    + exists (c :: p). split; [reflexivity | discriminate].
    + rewrite Hnone, Hplain in H by auto. discriminate H.
  - intros (p & Hp & Hne). rewrite (Hgiven p Hp Hne). apply includes_spec.
    exists (PROMPT_HEAD ++ [LF]). eexists. rewrite <- !app_assoc. reflexivity.
Qed.


(** ** The cost calculator *)

(** C5. [calculateCost(0, 0)] is three times ["0.000000"]; a million input
    tokens cost the input price, 15, written with six decimals, and a
    million output tokens the output price, 75. *)
Theorem cost_at_zero_and_at_a_million :
  calculateCost (of_Z 0) (of_Z 0)
  = {| inputCost := lit "0.000000";
       outputCost := lit "0.000000";
       totalCost := lit "0.000000" |} /\
  calculateCost (of_Z 1000000) (of_Z 0)
  = {| inputCost := lit "15.000000";
       outputCost := lit "0.000000";
       totalCost := lit "15.000000" |} /\
  calculateCost (of_Z 0) (of_Z 1000000)
  = {| inputCost := lit "0.000000";
       outputCost := lit "75.000000";
       totalCost := lit "75.000000" |} /\
  toFixed (of_Z COST_PER_MILLION_INPUT) 6 = lit "15.000000" /\
  toFixed (of_Z COST_PER_MILLION_OUTPUT) 6 = lit "75.000000".
Proof. repeat split; vm_compute; reflexivity. Qed.

(** The number a token count is. *)
Lemma js_add_token_counts (a b : N) :
  (Z.of_N a + Z.of_N b < 2 ^ 53)%Z ->
  js_add (of_Z (Z.of_N a)) (of_Z (Z.of_N b)) = of_Z (Z.of_N (a + b)).
Proof.
  intros Hab. destruct a as [|a], b as [|b].
  - reflexivity.
  - change (js_add (of_Z 0) (of_Z (Zpos b)) = of_Z (Zpos b)).
    destruct (of_Z_positive b) as (m & -> & _); [lia|]. reflexivity.
  - change (js_add (of_Z (Zpos a)) (of_Z 0) = of_Z (Zpos a)).
    destruct (of_Z_positive a) as (m & -> & _); [lia|]. reflexivity.
  - rewrite N2Z.inj_add. apply js_add_counts. exact Hab.
Qed.

(** Below 2^40 tokens the input cost is written exactly: the digits of
    [15 * n] millionths. *)
Lemma input_cost_digits (n : N) (outputTokens : number) :
  n < 2 ^ 40 ->
  inputCost (calculateCost (of_Z (Z.of_N n)) outputTokens)
  = fixed_digits 6 (15 * n).
Proof.
  intros Hn. cbn [calculateCost inputCost].
  change (of_Z COST_PER_MILLION_INPUT) with (of_Z 15).
  destruct n as [|p]; [reflexivity|].
  change (Z.of_N (N.pos p)) with (Zpos p).
  destruct (input_cost_exact p) as (mx & ex & -> & Hex & Hd & Hround).
  { change (2 ^ 40)%Z with (Z.of_N (2 ^ 40)). apply N2Z.inj_lt in Hn. exact Hn. }
  unfold toFixed.
  assert (at_least_1e21 mx ex = false) as ->.
  { unfold at_least_1e21.
    destruct (Z.leb_spec 0 ex) as [|_]; [lia|]. apply Z.leb_gt.
    pose proof (digits2_bounds mx) as [_ Bhi]. rewrite Hd in Bhi.
    assert (1 <= 2 ^ (- ex))%Z
      by (change 1%Z with (2 ^ 0)%Z; apply Z.pow_le_mono_r; lia).
    change (2 ^ 53)%Z with 9007199254740992%Z in Bhi.
    change (10 ^ 21)%Z with 1000000000000000000000%Z. nia. }
  rewrite Hround. reflexivity.
Qed.

(** C6, amended.  For token counts [a] and [b] with [a + b] below 2^40,
    the input costs are exact numbers of millionths, 15 for each token, and
    so the input cost of [a + b] tokens, the sum being the JavaScript sum of
    the two counts, is the sum of the input costs of [a] and of [b], whatever
    the output count is. *)
Theorem input_cost_additive (a b : N) (c : number) :
  a + b < 2 ^ 40 ->
  exists x y : N,
    millionths (inputCost (calculateCost (of_Z (Z.of_N a)) c)) = Some x /\
    millionths (inputCost (calculateCost (of_Z (Z.of_N b)) c)) = Some y /\
    millionths
      (inputCost
         (calculateCost (js_add (of_Z (Z.of_N a)) (of_Z (Z.of_N b))) c))
    = Some (x + y) /\
    x = 15 * a /\ y = 15 * b.
Proof.
  intros Hab. exists (15 * a), (15 * b).
  assert (2 ^ 40 < 2 ^ 53) as Hp by reflexivity.
  rewrite js_add_token_counts.
  - rewrite !input_cost_digits by lia. rewrite !millionths_fixed_digits.
    repeat split. f_equal. lia.
  - change (2 ^ 53)%Z with (Z.of_N (2 ^ 53)). rewrite <- N2Z.inj_add.
    apply N2Z.inj_lt. lia.
Qed.

(** *** The whole breakdown, and the duration *)

Section Costs.

Local Open Scope Z_scope.




Lemma of_Z_15 : of_Z 15 = S754_finite false 8444249301319680 (- 49).
Proof. reflexivity. Qed.

Lemma of_Z_75 : of_Z 75 = S754_finite false 5277655813324800 (- 46).
Proof. reflexivity. Qed.

Lemma not_at_least_1e21 (m : positive) (e : Z) :
  Zpos (digits2_pos m) = 53 -> e < 0 -> at_least_1e21 m e = false.
Proof.
  intros Hd He. unfold at_least_1e21.
  destruct (Z.leb_spec 0 e) as [|_]; [lia|]. apply Z.leb_gt.
  pose proof (digits2_bounds m) as [_ Bhi]. rewrite Hd in Bhi.
  assert (1 <= 2 ^ (- e))
    by (change 1 with (2 ^ 0); apply Z.pow_le_mono_r; lia).
  change (2 ^ 53) with 9007199254740992 in Bhi.
  change (10 ^ 21) with 1000000000000000000000. nia.
Qed.

(** The sum of an input cost and an output cost is written as the sum of
    their millionths. *)
Lemma total_cost_exact (a b : positive) :
  Zpos a < 2 ^ 40 -> Zpos b < 2 ^ 40 ->
  toFixed (js_add (cost_number (Zpos a) 15) (cost_number (Zpos b) 75)) 6
  = fixed_digits 6 (Z.to_N (15 * Zpos a + 75 * Zpos b)).
Proof.
  intros Ha Hb. unfold cost_number.
  destruct (token_cost_near 15 49 _ a of_Z_15 eq_refl eq_refl ltac:(lia) Ha)
    as (mx & ex & -> & Hex & Hdx & I1 & I2).
  destruct (token_cost_near 75 46 _ b of_Z_75 eq_refl eq_refl ltac:(lia) Hb)
    as (my & ey & -> & Hey & Hdy & O1 & O2).
  destruct (js_add_near mx my ex ey Hdx Hdy Hex Hey)
    as (mt & j & -> & Hdt & Hj & Rlo & Rhi).
  set (ez := Z.min ex ey) in *.
  pose proof (digits2_bounds mt) as [Tlo _]. rewrite Hdt in Tlo.
  change (2 ^ (53 - 1)) with 4503599627370496 in Tlo.
  change (2 ^ 40) with 1099511627776 in Ha, Hb.
  (* powers of two at work *)
  set (Rx := 2 ^ (- ex)) in *. set (Ry := 2 ^ (- ey)) in *.
  set (Rz := 2 ^ (- ez)).
  set (cx := 2 ^ (ex - ez)) in *. set (cy := 2 ^ (ey - ez)) in *.
  set (J := 2 ^ j) in *.
  assert (0 < Rz) as HRz by (apply Z.pow_pos_nonneg; unfold ez; lia).
  assert (0 < cx) as Hcx by (apply Z.pow_pos_nonneg; unfold ez; lia).
  assert (0 < cy) as Hcy by (apply Z.pow_pos_nonneg; unfold ez; lia).
  assert (0 < J) as HJ by (apply Z.pow_pos_nonneg; lia).
  assert (Rx * cx = Rz) as Ex
    by (unfold Rx, cx, Rz; rewrite <- Z.pow_add_r by (unfold ez; lia);
        f_equal; lia).
  assert (Ry * cy = Rz) as Ey
    by (unfold Ry, cy, Rz; rewrite <- Z.pow_add_r by (unfold ez; lia);
        f_equal; lia).
  (* the two costs on the scale of the sum *)
  apply (Z.mul_le_mono_nonneg_r _ _ cx) in I1, I2; try lia.
  apply (Z.mul_le_mono_nonneg_r _ _ cy) in O1, O2; try lia.
  replace (5 * (Zpos mx * 1000000 - 15 * Zpos a * Rx) * cx)
    with (5 * ((Zpos mx * cx) * 1000000 - 15 * (Zpos a * (Rx * cx)))) in I1 by ring.
  replace (5 * (15 * Zpos a * Rx - Zpos mx * 1000000) * cx)
    with (5 * (15 * (Zpos a * (Rx * cx)) - (Zpos mx * cx) * 1000000)) in I2 by ring.
  replace (5 * (Zpos my * 1000000 - 75 * Zpos b * Ry) * cy)
    with (5 * ((Zpos my * cy) * 1000000 - 75 * (Zpos b * (Ry * cy)))) in O1 by ring.
  replace (5 * (75 * Zpos b * Ry - Zpos my * 1000000) * cy)
    with (5 * (75 * (Zpos b * (Ry * cy)) - (Zpos my * cy) * 1000000)) in O2 by ring.
  rewrite Ex in I1, I2. rewrite Ey in O1, O2.
  assert (Zpos a * Rz < 1099511627776 * Rz) as HA
    by (apply Z.mul_lt_mono_pos_r; lia).
  assert (Zpos b * Rz < 1099511627776 * Rz) as HB
    by (apply Z.mul_lt_mono_pos_r; lia).
  assert (4503599627370495 * J <= (Zpos mt - 1) * J) as HP
    by (apply Z.mul_le_mono_nonneg_r; lia).
  replace ((Zpos mt - 1) * J) with (Zpos mt * J - J) in Rlo, HP by ring.
  replace ((Zpos mt + 1) * J) with (Zpos mt * J + J) in Rhi by ring.
  (* the exponent of the sum is negative *)
  assert (ez + j < 0) as Het.
  { destruct (Z.lt_ge_cases (ez + j) 0) as [|Hge]; [assumption|]. exfalso.
    assert (Rz <= J) as HJR by (apply Z.pow_le_mono_r; lia).
    revert I1 I2 O1 O2 HA HB HP Rlo Rhi HJR HRz.
    generalize (Zpos mx * cx) (Zpos my * cy) (Zpos a * Rz) (Zpos b * Rz)
      (Zpos mt * J).
    intros SX SY A B MJ. lia. }
  unfold toFixed. rewrite (not_at_least_1e21 mt (ez + j) Hdt Het).
  cbn [app]. f_equal. f_equal.
  apply scaled_round_near; [exact Het | |].
  - set (Rt := 2 ^ (- (ez + j))).
    assert (Rt * J = Rz) as Et
      by (unfold Rt, J, Rz; rewrite <- Z.pow_add_r by lia; f_equal; lia).
    apply (Z.mul_lt_mono_pos_r J); [exact HJ|].
    replace (2 * (Zpos mt * 1000000 - (15 * Zpos a + 75 * Zpos b) * Rt) * J)
      with (2 * ((Zpos mt * J) * 1000000
                 - (15 * (Zpos a * (Rt * J)) + 75 * (Zpos b * (Rt * J))))) by ring.
    rewrite Et.
    revert I1 I2 O1 O2 HA HB HP Rlo Rhi HRz.
    generalize (Zpos mx * cx) (Zpos my * cy) (Zpos a * Rz) (Zpos b * Rz)
      (Zpos mt * J).
    intros SX SY A B MJ. lia.
  - set (Rt := 2 ^ (- (ez + j))).
    assert (Rt * J = Rz) as Et
      by (unfold Rt, J, Rz; rewrite <- Z.pow_add_r by lia; f_equal; lia).
    apply (Z.mul_le_mono_pos_r _ _ J); [exact HJ|].
    replace (2 * ((15 * Zpos a + 75 * Zpos b) * Rt - Zpos mt * 1000000) * J)
      with (2 * ((15 * (Zpos a * (Rt * J)) + 75 * (Zpos b * (Rt * J)))
                 - (Zpos mt * J) * 1000000)) by ring.
    rewrite Et.
    revert I1 I2 O1 O2 HA HB HP Rlo Rhi HRz.
    generalize (Zpos mx * cx) (Zpos my * cy) (Zpos a * Rz) (Zpos b * Rz)
      (Zpos mt * J).
    intros SX SY A B MJ. lia.
Qed.

(** The cost of a count at either rate is written exactly. *)
Lemma token_cost_digits (rate kr : Z) (mr a : positive) :
  of_Z rate = S754_finite false mr (- kr) ->
  Zpos mr = rate * 2 ^ kr -> Zpos (digits2_pos mr) = 53 -> 46 <= kr <= 49 ->
  Zpos a < 2 ^ 40 ->
  toFixed (cost_number (Zpos a) rate) 6 = fixed_digits 6 (Z.to_N (rate * Zpos a)).
Proof.
  intros Er Hmr Hdr Hkr Ha. unfold cost_number.
  destruct (token_cost_near rate kr mr a Er Hmr Hdr Hkr Ha)
    as (mx & ex & -> & Hex & Hdx & I1 & I2).
  unfold toFixed. rewrite (not_at_least_1e21 mx ex Hdx) by lia.
  cbn [app]. f_equal. f_equal.
  assert (0 < 2 ^ (- ex)) by (apply Z.pow_pos_nonneg; lia).
  apply scaled_round_near; lia.
Qed.





(** *** The duration *)

Lemma of_Z_1000 : of_Z 1000 = S754_finite false 8796093022208000 (- 43).
Proof. reflexivity. Qed.

(** [ms / 1000], written with two decimals, is a number of hundredths
    within half a hundredth of [ms] thousandths. *)
Lemma seconds_to_hundredths (ms : positive) :
  Zpos ms < 2 ^ 40 ->
  exists cs : Z,
    toFixed (js_div (of_Z (Zpos ms)) (of_Z 1000)) 2 = fixed_digits 2 (Z.to_N cs) /\
    10 * cs - 5 <= Zpos ms <= 10 * cs + 5.
Proof.
  intros Ha.
  destruct (of_Z_positive ms) as (ma & Ea & Hda & Hma & Hd1);
    [change (2 ^ 53) with (2 ^ 40 * 2 ^ 13); lia|].
  set (d := Zpos (digits2_pos ms)) in *.
  assert (d <= 40) as Hd40.
  { pose proof (digits2_bounds ms) as [Blo _]. fold d in Blo.
    destruct (Z.le_gt_cases d 40) as [|Hgt]; [assumption|].
    assert (2 ^ 40 <= 2 ^ (d - 1)) by (apply Z.pow_le_mono_r; lia). lia. }
  rewrite Ea, of_Z_1000. unfold js_div.
  destruct (SFdiv_near ma 8796093022208000 (d - 53) (-43))
    as (my & j & Ey & Hdy & Hj & Hylo & Hyhi); [exact Hda | reflexivity | lia |].
  rewrite Ey. set (e := d - 53 - -43 - 53 + j) in *.
  unfold toFixed. rewrite (not_at_least_1e21 my e Hdy) by (unfold e; lia).
  cbn [app]. exists (scaled_round 2 my e). split; [reflexivity|].
  unfold scaled_round.
  replace (0 <=? e) with false by (symmetry; apply Z.leb_gt; unfold e; lia).
  change (10 ^ Z.of_nat 2) with 100.
  set (R := 2 ^ (- e)). set (G := 2 ^ (43 + j)).
  assert (2 ^ 21 <= R) as HR by (apply Z.pow_le_mono_r; unfold e; lia).
  change (2 ^ 21) with 2097152 in HR.
  assert (0 < G) as HG by (apply Z.pow_pos_nonneg; lia).
  assert (2 ^ (1 - e) = 2 * R) as ->.
  { unfold R. replace (1 - e) with (Z.succ (- e)) by (unfold e; lia).
    rewrite Z.pow_succ_r by (unfold e; lia). reflexivity. }
  assert (Zpos ma * 2 ^ 53 = Zpos ms * R * G) as EN.
  { rewrite Hma. unfold R, G.
    rewrite <- !Z.mul_assoc, <- !Z.pow_add_r by (unfold e; lia).
    f_equal. f_equal. unfold e. lia. }
  assert (2 ^ j * 8796093022208000 = 1000 * G) as EM.
  { unfold G. rewrite Z.pow_add_r by lia.
    change 8796093022208000 with (1000 * 2 ^ 43). ring. }
  rewrite <- Z.mul_assoc, EM, EN in Hylo. rewrite <- Z.mul_assoc, EM, EN in Hyhi.
  assert ((Zpos my - 1) * 1000 <= Zpos ms * R) as Y1 by nia.
  assert (Zpos ms * R < (Zpos my + 1) * 1000) as Y2 by nia.
  pose proof (Z.mul_div_le (2 * (Zpos my * 100) + R) (2 * R) ltac:(lia)) as Q1.
  pose proof (Z.mul_succ_div_gt (2 * (Zpos my * 100) + R) (2 * R) ltac:(lia)) as Q2.
  set (cs := (2 * (Zpos my * 100) + R) / (2 * R)) in *.
  split; nia.
Qed.


End Costs.


(** X22. For token counts below 2^40 the cost breakdown is exact: the
    input cost is the six-decimal text of 15 millionths a token, the output
    cost that of 75 millionths a token, and the total cost is their sum to
    the last digit, the roundings of the binary arithmetic notwithstanding. *)
Theorem cost_breakdown_exact (a b : N) :
  a < 2 ^ 40 -> b < 2 ^ 40 ->
  let c := calculateCost (of_Z (Z.of_N a)) (of_Z (Z.of_N b)) in
  c = {| inputCost := fixed_digits 6 (15 * a);
         outputCost := fixed_digits 6 (75 * b);
         totalCost := fixed_digits 6 (15 * a + 75 * b) |} /\
  millionths (inputCost c) = Some (15 * a) /\
  millionths (outputCost c) = Some (75 * b) /\
  millionths (totalCost c) = Some (15 * a + 75 * b).
Proof.
  intros Ha Hb c.
  assert (c = {| inputCost := fixed_digits 6 (15 * a);
                 outputCost := fixed_digits 6 (75 * b);
                 totalCost := fixed_digits 6 (15 * a + 75 * b) |}) as ->.
  { assert (forall p : positive, N.pos p < 2 ^ 40 -> (Zpos p < 2 ^ 40)%Z) as Hlt.
    { intros p Hp. change (2 ^ 40)%Z with (Z.of_N (2 ^ 40)).
      apply N2Z.inj_lt in Hp. exact Hp. }
    unfold c, calculateCost.
    change (js_mul (js_div (of_Z (Z.of_N a)) (of_Z 1000000))
              (of_Z COST_PER_MILLION_INPUT)) with (cost_number (Z.of_N a) 15).
    change (js_mul (js_div (of_Z (Z.of_N b)) (of_Z 1000000))
              (of_Z COST_PER_MILLION_OUTPUT)) with (cost_number (Z.of_N b) 75).
    destruct a as [|a], b as [|b].
    - reflexivity.
    - change (Z.of_N (N.pos b)) with (Zpos b).
      change (js_add (cost_number (Z.of_N 0) 15) (cost_number (Zpos b) 75))
        with (SFadd PREC EMAX (S754_zero false) (cost_number (Zpos b) 75)).
      assert (SFadd PREC EMAX (S754_zero false) (cost_number (Zpos b) 75)
              = cost_number (Zpos b) 75) as ->.
      { unfold cost_number.
        destruct (token_cost_near 75 46 _ b of_Z_75 eq_refl eq_refl ltac:(lia)
                    (Hlt b Hb)) as (my & ey & -> & _). reflexivity. }
      rewrite (token_cost_digits 75 46 _ b of_Z_75 eq_refl eq_refl ltac:(lia)
                 (Hlt b Hb)).
      reflexivity.
    - change (Z.of_N (N.pos a)) with (Zpos a).
      change (js_add (cost_number (Zpos a) 15) (cost_number (Z.of_N 0) 75))
        with (SFadd PREC EMAX (cost_number (Zpos a) 15) (S754_zero false)).
      assert (SFadd PREC EMAX (cost_number (Zpos a) 15) (S754_zero false)
              = cost_number (Zpos a) 15) as ->.
      { unfold cost_number.
        destruct (token_cost_near 15 49 _ a of_Z_15 eq_refl eq_refl ltac:(lia)
                    (Hlt a Ha)) as (mx & ex & -> & _). reflexivity. }
      rewrite (token_cost_digits 15 49 _ a of_Z_15 eq_refl eq_refl ltac:(lia)
                 (Hlt a Ha)).
      rewrite N.add_0_r. reflexivity.
    - change (Z.of_N (N.pos a)) with (Zpos a).
      change (Z.of_N (N.pos b)) with (Zpos b).
      rewrite (total_cost_exact a b (Hlt a Ha) (Hlt b Hb)).
      rewrite (token_cost_digits 15 49 _ a of_Z_15 eq_refl eq_refl ltac:(lia)
                 (Hlt a Ha)).
      rewrite (token_cost_digits 75 46 _ b of_Z_75 eq_refl eq_refl ltac:(lia)
                 (Hlt b Hb)).
      reflexivity. }
  cbn [inputCost outputCost totalCost].
  rewrite !millionths_fixed_digits. repeat split.
Qed.


(** X23. The duration in the result of a build is read from a text with two
    decimals that is the time the call of the model service took, to the
    nearest hundredth of a second: for a call of [ms] milliseconds, below
    2^40, it is [parseFloat] of the text of [cs] hundredths, and [cs]
    hundredths are within 5 milliseconds of [ms]. *)
Theorem build_duration
  (env : environment) (imagePath : path) (customPrompt sessionId : JsString.t)
  (fs fs' : filesystem) (r : build_result) (ms : N) :
  buildPrototypeWithClaudeAgent env imagePath customPrompt sessionId fs
  = (fs', Return r) ->
  (call_end env - call_start env)%Z = Z.of_N ms ->
  ms < 2 ^ 40 ->
  exists cs : N,
    duration r = parseFloat (fixed_digits 2 cs) /\
    10 * cs <= ms + 5 /\ ms <= 10 * cs + 5.
Proof.
  intros H Hms Hlt.
  destruct (build_returned _ _ _ _ _ _ _ H)
    as (_ & bytes & message & counts & text & rest & _ & _ & _ & _ & _ & ->).
  cbn [duration]. rewrite Hms. destruct ms as [|p].
  - exists 0. split; [reflexivity|]. split; [discriminate | lia].
  - change (Z.of_N (N.pos p)) with (Zpos p).
    destruct (seconds_to_hundredths p) as (cs & -> & Hcs).
    { change (2 ^ 40)%Z with (Z.of_N (2 ^ 40)). apply N2Z.inj_lt in Hlt. exact Hlt. }
    exists (Z.to_N cs). split; [reflexivity|]. lia.
Qed.

End Properties.

(** ** Start-up *)

Lemma ensure_keeps mkdir dirs existing p :
  p ∈ existing -> p ∈ fst (ensure mkdir dirs existing).
Proof.
  revert existing; induction dirs as [|dir dirs IH]; intros existing H; simpl;
    [exact H|].
  destruct (decide (dir ∈ existing)); [apply IH, H|].
  destruct (mkdir dir); [exact H|].
  apply IH, elem_of_union. right. exact H.
Qed.

Lemma ensure_adds mkdir dirs existing p :
  p ∈ fst (ensure mkdir dirs existing) -> p ∈ existing \/ In p dirs.
Proof.
  revert existing; induction dirs as [|dir dirs IH]; intros existing; simpl;
    [intros H; left; exact H|].
  destruct (decide (dir ∈ existing)).
  - intros H. destruct (IH _ H); auto.
  - destruct (mkdir dir); [intros H; left; exact H|].
    intros H. destruct (IH _ H) as [Hp | Hp]; [|auto].
    apply elem_of_union in Hp as [Hp | Hp]; [|auto].
    apply elem_of_singleton in Hp. auto.
Qed.

Lemma ensure_returned mkdir dirs existing dir :
  snd (ensure mkdir dirs existing) = Return tt ->
  In dir dirs -> dir ∈ fst (ensure mkdir dirs existing).
Proof.
  revert existing; induction dirs as [|d dirs IH]; intros existing; simpl;
    [intros _ []|].
  destruct (decide (d ∈ existing)) as [Hin|Hout].
  - intros H [<- | Hd]; [apply ensure_keeps, Hin | apply IH; assumption].
  - destruct (mkdir d); [discriminate|].
    intros H [<- | Hd]; [|apply IH; assumption].
    apply ensure_keeps, elem_of_union. left. apply elem_of_singleton. reflexivity.
Qed.

Lemma ensure_present mkdir dirs existing :
  (forall dir, In dir dirs -> dir ∈ existing) ->
  ensure mkdir dirs existing = (existing, Return tt).
Proof.
  induction dirs as [|dir dirs IH]; simpl; [reflexivity|]. intros H.
  destruct (decide (dir ∈ existing)) as [Hin|Hout].
  - apply IH. intros d Hd. apply H. right. exact Hd.
  - contradiction Hout. apply H. left. reflexivity.
Qed.

Lemma ensure_thrown mkdir dirs existing error :
  snd (ensure mkdir dirs existing) = Throw error ->
  exists dir, In dir dirs /\ ~ dir ∈ existing /\ mkdir dir = Some error.
Proof.
  revert existing; induction dirs as [|dir dirs IH]; intros existing; simpl;
    [discriminate|].
  destruct (decide (dir ∈ existing)) as [Hin|Hout].
  - intros H. destruct (IH _ H) as (d & Hd & Hn & Hm). exists d. auto.
  - destruct (mkdir dir) as [e|] eqn:Em.
    + intros [= ->]. exists dir. auto.
    + intros H. destruct (IH _ H) as (d & Hd & Hn & Hm). exists d.
      split; [auto|]. split; [|exact Hm].
      intros Hin. apply Hn, elem_of_union. right. exact Hin.
Qed.

Lemma ensure_returns_iff mkdir dirs existing :
  snd (ensure mkdir dirs existing) = Return tt <->
  (forall dir, In dir dirs -> ~ dir ∈ existing -> mkdir dir = None).
Proof.
  revert existing; induction dirs as [|d dirs IH]; intros existing; simpl.
  - split; [intros _ dir [] | reflexivity].
  - destruct (decide (d ∈ existing)) as [Hin|Hout].
    + rewrite IH. split.
      * intros H dir [<- | Hd] Hn; [contradiction | exact (H dir Hd Hn)].
      * intros H dir Hd. apply H. right. exact Hd.
    + destruct (mkdir d) as [e|] eqn:Em.
      * split; [discriminate|]. intros H.
        rewrite (H d (or_introl eq_refl) Hout) in Em. discriminate Em.
      * rewrite IH. split.
        -- intros H dir [<- | Hd] Hn; [exact Em|].
           destruct (decide (dir = d)) as [-> | Hne]; [exact Em|].
           apply (H dir Hd). intros Hu. apply elem_of_union in Hu as [Hu | Hu];
             [apply elem_of_singleton in Hu; contradiction | contradiction].
        -- intros H dir Hd Hn. apply H; [right; exact Hd|].
           intros Hi. apply Hn, elem_of_union. right. exact Hi.
Qed.

(** X24. [ensureDirectories] only adds: what exists stays, and nothing but
    the three directories of the server is made.  When it returns, the
    three exist; when they exist already it returns without a call of
    [mkdir], so that a second run after a first that returned changes
    nothing and cannot fail; and it throws only with the error of a
    [mkdir] of a directory that was missing. *)
Theorem ensureDirectories_spec
  (mkdir : path -> option js_error) (existing : gset path) :
  let after := fst (ensureDirectories mkdir existing) in
  let dirs := [[lit "uploads"]; [lit "__output__"]; [lit "history"]] in
  (forall p, p ∈ existing -> p ∈ after) /\
  (forall p, p ∈ after -> p ∈ existing \/ In p dirs) /\
  (snd (ensureDirectories mkdir existing) = Return tt ->
   (forall dir, In dir dirs -> dir ∈ after) /\
   (forall mkdir', ensureDirectories mkdir' after = (after, Return tt))) /\
  ((forall dir, In dir dirs -> dir ∈ existing) ->
   ensureDirectories mkdir existing = (existing, Return tt)) /\
  (forall error, snd (ensureDirectories mkdir existing) = Throw error ->
   exists dir, In dir dirs /\ ~ dir ∈ existing /\ mkdir dir = Some error).
Proof.
  intros after dirs. unfold ensureDirectories in *.
  change dirs with DIRECTORIES.
  split; [intros p; apply ensure_keeps|].
  split; [intros p; apply ensure_adds|].
  split; [|split].
  - intros H.
    assert (forall dir, In dir DIRECTORIES -> dir ∈ after) as Ha
      by (intros dir; apply ensure_returned, H).
    split; [exact Ha|]. intros mkdir'. apply ensure_present, Ha.
  - apply ensure_present.
  - intros error. apply ensure_thrown.
Qed.

(** X25. The server comes to listen exactly when every directory of its
    three that is missing can be made and the API key is set and is not the
    empty string, and the three directories then exist; in every other case
    the process exits with code 1, after the directories were made when it
    is the key that is missing. *)
Theorem startServer_spec
  (mkdir : path -> option js_error) (api_key : option JsString.t)
  (existing : gset path) :
  let dirs := [[lit "uploads"]; [lit "__output__"]; [lit "history"]] in
  let outcome := startServer mkdir api_key existing in
  (snd outcome = Listen <->
   (forall dir, In dir dirs -> ~ dir ∈ existing -> mkdir dir = None) /\
   exists c key, api_key = Some (c :: key)) /\
  (snd outcome = Listen -> forall dir, In dir dirs -> dir ∈ fst outcome) /\
  (snd outcome = Listen \/ snd outcome = Exit 1) /\
  fst outcome = fst (ensureDirectories mkdir existing).
Proof.
  intros dirs outcome.
  pose proof (ensure_returns_iff mkdir DIRECTORIES existing) as Hiff.
  pose proof (ensure_returned mkdir DIRECTORIES existing) as Hall.
  change DIRECTORIES with dirs in Hiff, Hall.
  unfold outcome, startServer, ensureDirectories. change DIRECTORIES with dirs.
  destruct (ensure mkdir dirs existing) as [existing' [[]|error]];
    cbn [fst snd] in *.
  - destruct api_key as [[|c key]|]; cbn [fst snd].
    + split; [split; [discriminate | intros [_ (c & k & H)]; discriminate]|].
      split; [discriminate|]. split; [right|]; reflexivity.
    + split; [split; [intros _; split; [apply Hiff; reflexivity
                                       | exists c, key; reflexivity]
                     | reflexivity]|].
      split; [intros _ dir Hd; exact (Hall dir eq_refl Hd)|].
      split; [left|]; reflexivity.
    + split; [split; [discriminate | intros [_ (c & k & H)]; discriminate]|].
      split; [discriminate|]. split; [right|]; reflexivity.
  - split; [split; [discriminate | intros [H _]; apply Hiff in H; discriminate H]|].
    split; [discriminate|]. split; [right|]; reflexivity.
Qed.

(** ** Concrete runs *)

Example sample_upload_succeeds :
  status sample_reply = 200%Z /\
  json_get "success" (body sample_reply) = Some (JBool true) /\
  json_get "costs" (body sample_reply)
  = Some (JObj [(lit "inputCost", JStr (lit "0.022845"));
                (lit "outputCost", JStr (lit "0.213525"));
                (lit "totalCost", JStr (lit "0.236370"))]).
Proof. vm_compute. repeat split. Qed.

Lemma failed_build_witness :
  let e := {| message := lit "Input file is missing" |} in
  let prompt := Some (lit "Make it dark mode") in
  sample_build sample_env (UPLOADS_DIR ++ [file_filename sample_file])
    (custom_prompt prompt) (uuidv4 sample_env) ∅ = (∅, Throw e) /\
  (sample_handler sample_env (Some sample_file) prompt ∅
   = (∅, Return {| status := 500; body := failure_body (uuidv4 sample_env) e |}) /\
   json_get "success" (failure_body (uuidv4 sample_env) e) = Some (JBool false) /\
   (∅ : filesystem) !! HISTORY_FILE = (∅ : filesystem) !! HISTORY_FILE /\
   stored_sessions ∅ = stored_sessions ∅).
Proof.
  intros e prompt.
  assert (sample_build sample_env (UPLOADS_DIR ++ [file_filename sample_file])
            (custom_prompt prompt) (uuidv4 sample_env) ∅ = (∅, Throw e))
    as H by (vm_compute; reflexivity).
  split; [exact H|].
  exact (failed_build_writes_no_history (rt := sample_runtime) sample_env
           sample_file prompt ∅ ∅ e H).
Defined.

(** The same when the model service refuses the call, after the image was
    compressed. *)
Example refused_call :
  snd (sample_handler failing_env (Some sample_file) None sample_fs)
  = Return {| status := 500;
              body := JObj [(lit "success", JBool false);
                            (lit "sessionId", JStr (uuidv4 failing_env));
                            (lit "error", JStr (lit "invalid x-api-key"))] |} /\
  stored_sessions (fst (sample_handler failing_env (Some sample_file) None sample_fs))
  = [].
Proof. vm_compute. split; reflexivity. Qed.

(** C9, as stated, fails: the client named the file [sketch.png], and the
    entry of the successful upload records the name the storage made up. *)
Lemma original_name_not_recorded :
  exists entry rest,
    snd sample_outcome = Return sample_reply /\
    status sample_reply = 200%Z /\
    originalname sample_part = lit "sketch.png" /\
    stored_sessions (fst sample_outcome) = entry :: rest /\
    json_get "originalFilename" entry
    = Some (JStr (lit "whiteboard-2024-01-15T10-30-00-000Z.jpg")) /\
    json_get "originalFilename" entry <> Some (JStr (originalname sample_part)).
Proof.
  destruct (stored_sessions (fst sample_outcome)) as [|entry rest] eqn:E;
    [vm_compute in E; discriminate E|].
  exists entry, rest. vm_compute in E. injection E as <- <-.
  split; [vm_compute; reflexivity|]. split; [vm_compute; reflexivity|].
  split; [reflexivity|]. split; [reflexivity|].
  split; [vm_compute; reflexivity|]. vm_compute. discriminate.
Qed.

Lemma history_entry_inputs_witness :
  sample_post_upload sample_env sample_request ∅
  = (fst sample_outcome, Return sample_reply) /\
  status sample_reply = 200%Z /\
  write_error (history_faults sample_env) = None /\
  exists entry rest,
    stored_sessions (fst sample_outcome) = entry :: rest /\
    json_get "originalFilename" entry
    = Some (JStr (lit "whiteboard-" ++ dashed (upload_time sample_env) ++ lit ".jpg")) /\
    json_get "customPrompt" entry = Some (JStr (default [] (prompt sample_request))).
Proof.
  assert (snd sample_outcome = Return sample_reply) as Hr
    by (vm_compute; reflexivity).
  assert (sample_post_upload sample_env sample_request ∅
          = (fst sample_outcome, Return sample_reply)) as H.
  { rewrite <- Hr. apply surjective_pairing. }
  assert (status sample_reply = 200%Z) as Hs by (vm_compute; reflexivity).
  split; [exact H|]. split; [exact Hs|]. split; [reflexivity|].
  exact (history_entry_inputs (rt := sample_runtime) sample_env sample_request
           ∅ (fst sample_outcome) sample_reply H Hs eq_refl).
Defined.

Lemma input_cost_additive_witness :
  1523 + 2847 < 2 ^ 40 /\
  exists x y : N,
    millionths (inputCost (calculateCost (rt := sample_runtime)
                             (of_Z (Z.of_N 1523)) (of_Z 0))) = Some x /\
    millionths (inputCost (calculateCost (rt := sample_runtime)
                             (of_Z (Z.of_N 2847)) (of_Z 0))) = Some y /\
    millionths
      (inputCost
         (calculateCost (rt := sample_runtime)
            (js_add (of_Z (Z.of_N 1523)) (of_Z (Z.of_N 2847))) (of_Z 0)))
    = Some (x + y) /\
    x = 15 * 1523 /\ y = 15 * 2847.
Proof.
  split; [reflexivity|].
  apply (input_cost_additive (rt := sample_runtime) 1523 2847 (of_Z 0)).
  reflexivity.
Defined.

(** C6, as stated for all token counts, fails: at 280385807853156 tokens
    the binary64 product is one millionth short, and the input cost of that
    many tokens and one more is not the sum of the two input costs. *)
Lemma input_cost_not_additive :
  let cost_of (tokens : number) :=
    millionths (inputCost (calculateCost (rt := sample_runtime) tokens (of_Z 0))) in
  cost_of (of_Z 280385807853156) = Some 4205787117797339 /\
  cost_of (of_Z 1) = Some 15 /\
  cost_of (js_add (of_Z 280385807853156) (of_Z 1)) = Some 4205787117797355 /\
  js_add (of_Z 280385807853156) (of_Z 1) = of_Z 280385807853157 /\
  4205787117797355 <> 4205787117797339 + 15.
Proof.
  intros cost_of. unfold cost_of.
  split; [vm_compute; reflexivity|]. split; [vm_compute; reflexivity|].
  split; [vm_compute; reflexivity|]. split; [vm_compute; reflexivity|].
  discriminate.
Qed.

Example input_cost_strings :
  inputCost (calculateCost (rt := sample_runtime) (of_Z 280385807853156) (of_Z 0))
  = lit "4205787117.797339" /\
  inputCost (calculateCost (rt := sample_runtime) (of_Z 280385807853157) (of_Z 0))
  = lit "4205787117.797355".
Proof. vm_compute. split; reflexivity. Qed.

(** *** The history route and the store *)

Lemma history_route_without_file_witness :
  get_history reliable ∅
  = (∅, Return {| status := 200;
                  body := JObj [(lit "success", JBool true);
                                (lit "sessions", JArr []);
                                (lit "total", JNum (of_Z 0))] |}).
Proof.
  apply (history_route_without_file reliable ∅). left. reflexivity.
Defined.

Lemma history_route_after_appends_witness :
  let fs := appends [(JStr (lit "first"), reliable)] ∅ in
  let sessions := stored_sessions fs in
  get_history reliable fs
  = (fs, Return {| status := 200;
                   body := JObj [(lit "success", JBool true);
                                 (lit "sessions", JArr sessions);
                                 (lit "total",
                                  JNum (of_Z (Z.of_nat (length sessions))))] |}) /\
  (length sessions <= 100)%nat.
Proof.
  apply (history_route_after_appends [(JStr (lit "first"), reliable)] ∅ reliable).
  - left. reflexivity.
  - reflexivity.
Defined.


Lemma append_keeps_other_members_witness :
  let fs : filesystem := {[ HISTORY_FILE := Json versioned_history ]} in
  exists members',
    addToHistory (JStr (lit "second")) reliable fs
    = (<[HISTORY_FILE := Json (JObj members')]> fs, Return tt) /\
    get_prop SESSIONS members'
    = Some (JArr (take 100 [JStr (lit "second"); JStr (lit "first")])) /\
    (forall k, str_eqb k SESSIONS = false ->
               get_prop k members'
               = get_prop k [(lit "version", JStr (lit "1"));
                             (lit "sessions", JArr [JStr (lit "first")])]) /\
    (forall k, is_Some (get_prop k members')
               <-> is_Some (get_prop k [(lit "version", JStr (lit "1"));
                                        (lit "sessions",
                                         JArr [JStr (lit "first")])])) /\
    writable (JObj members') = true.
Proof.
  intros fs.
  apply (append_keeps_other_members (JStr (lit "second")) reliable fs
           [(lit "version", JStr (lit "1"));
            (lit "sessions", JArr [JStr (lit "first")])]
           [JStr (lit "first")]).
  - apply lookup_singleton_eq.
  - reflexivity.
  - reflexivity.
  - reflexivity.
  - reflexivity.
  - reflexivity.
Defined.

Lemma append_to_unreadable_history_witness :
  let io := {| read_error := Some {| message := lit "EIO" |};
               write_error := None |} in
  let fs : filesystem := {[ HISTORY_FILE := Json versioned_history ]} in
  addToHistory (JStr (lit "second")) io fs
  = (<[HISTORY_FILE := Json (JObj [(lit "sessions", JArr [JStr (lit "second")])])]> fs,
     Return tt) /\
  stored_sessions (fst (addToHistory (JStr (lit "second")) io fs))
  = [JStr (lit "second")].
Proof.
  intros io fs.
  apply (append_to_unreadable_history (JStr (lit "second")) io fs).
  - right. right. eexists. reflexivity.
  - reflexivity.
Defined.

(** *** The build and the upload route *)

Lemma sample_fs_well_shaped : well_shaped sample_fs.
Proof.
  unfold well_shaped, sample_fs. rewrite lookup_singleton_ne; [exact I|].
  apply uploads_not_history.
Qed.

Lemma sample_build_returns (env : environment) (fs : filesystem) :
  snd (sample_build_of env fs) = Return sample_result ->
  sample_build_of env fs = (fst (sample_build_of env fs), Return sample_result).
Proof. intros <-. apply surjective_pairing. Qed.

Lemma history_write_failure_witness :
  let prompt := Some (lit "Make it dark mode") in
  let fs1 := fst (sample_build_of write_fault_env sample_fs) in
  sample_handler write_fault_env (Some sample_file) prompt sample_fs
  = (fs1, Return {| status := 200;
                    body := success_body (rt := sample_runtime)
                              (uuidv4 write_fault_env) sample_result |}) /\
  json_get "success"
    (success_body (rt := sample_runtime) (uuidv4 write_fault_env) sample_result)
  = Some (JBool true) /\
  fs1 !! HISTORY_FILE = sample_fs !! HISTORY_FILE.
Proof.
  intros prompt fs1.
  apply (history_write_failure_is_silent (rt := sample_runtime) write_fault_env
           sample_file prompt sample_fs fs1 sample_result).
  - apply sample_build_returns. vm_compute. reflexivity.
  - exact sample_fs_well_shaped.
  - eexists. reflexivity.
Defined.

Lemma misshapen_history_witness :
  let prompt := Some (lit "Make it dark mode") in
  let fs := <[HISTORY_FILE := Json (JArr [])]> sample_fs in
  let fs1 := fst (sample_build_of sample_env fs) in
  exists e text,
    sample_handler sample_env (Some sample_file) prompt fs
    = (fs1, Return {| status := 500;
                      body := failure_body (uuidv4 sample_env) e |}) /\
    json_get "success" (failure_body (uuidv4 sample_env) e) = Some (JBool false) /\
    fs1 !! (outputDir sample_result ++ [lit "index.html"]) = Some (Text text) /\
    fs1 !! HISTORY_FILE = Some (Json (JArr [])).
Proof.
  intros prompt fs fs1.
  apply (misshapen_history_fails_upload (rt := sample_runtime) sample_env
           sample_file prompt fs fs1 sample_result (JArr [])).
  - apply sample_build_returns. vm_compute. reflexivity.
  - apply lookup_insert_eq.
  - reflexivity.
  - intros sessions. discriminate.
Defined.

Lemma upload_then_history_witness :
  exists entry rest r',
    get_history reliable (fst sample_outcome) = (fst sample_outcome, Return r') /\
    status r' = 200%Z /\
    json_get "sessions" (body r') = Some (JArr (entry :: rest)) /\
    json_get "sessionId" (body sample_reply) = Some (JStr (uuidv4 sample_env)) /\
    json_get "sessionId" entry = Some (JStr (uuidv4 sample_env)) /\
    json_get "prototypeUrl" entry = json_get "demoUrl" (body sample_reply) /\
    Forall (fun name => json_get name entry = json_get name (body sample_reply))
      ["thumbnailUrl"; "outputDir"; "tokens"; "cost"; "costs"; "duration";
       "files"]%string.
Proof.
  assert (snd sample_outcome = Return sample_reply) as Hr
    by (vm_compute; reflexivity).
  assert (sample_post_upload sample_env sample_request ∅
          = (fst sample_outcome, Return sample_reply)) as H.
  { rewrite <- Hr. apply surjective_pairing. }
  assert (status sample_reply = 200%Z) as Hs by (vm_compute; reflexivity).
  exact (upload_then_history (rt := sample_runtime) sample_env sample_request
           ∅ (fst sample_outcome) sample_reply reliable H Hs eq_refl eq_refl).
Defined.

Lemma build_result_of_message_witness :
  let fs' := fst (sample_build_of sample_env sample_fs) in
  let r := sample_result in
  exists bytes message counts text rest,
    messages_create sample_env
      {| req_model := MODEL;
         req_max_tokens := MAX_TOKENS;
         req_image := base64 (Runtime := sample_runtime) (Image bytes);
         req_text := systemPrompt (custom_prompt (Some (lit "Make it dark mode"))) |}
    = Return message /\
    usage message = Some counts /\
    content message = Some text :: rest /\
    fs' !! (outputDir r ++ [lit "index.html"]) = Some (Text (clean_html text)) /\
    tokens_input r = input_tokens counts /\
    tokens_output r = output_tokens counts /\
    costs r = calculateCost (rt := sample_runtime) (input_tokens counts)
                (output_tokens counts) /\
    cost r = parseFloat (Runtime := sample_runtime) (totalCost (costs r)) /\
    prototypeUrl r = lit "/demos/" ++ basename (outputDir r) ++ lit "/index.html" /\
    thumbnailUrl r = lit "/demos/" ++ basename (outputDir r) ++ lit "/thumbnail.jpg".
Proof.
  intros fs' r.
  apply (build_result_of_message (rt := sample_runtime) sample_env
           (UPLOADS_DIR ++ [file_filename sample_file])
           (custom_prompt (Some (lit "Make it dark mode"))) (uuidv4 sample_env)
           sample_fs fs' r).
  apply sample_build_returns. vm_compute. reflexivity.
Defined.

Lemma failed_build_footprint_witness :
  let fs1 := fst (sample_build_of failing_env sample_fs) in
  let index := outputDir sample_result ++ [lit "index.html"] in
  fs1 !! index = sample_fs !! index.
Proof.
  intros fs1 index.
  apply (failed_build_footprint (rt := sample_runtime) failing_env
           (UPLOADS_DIR ++ [file_filename sample_file])
           (custom_prompt (Some (lit "Make it dark mode"))) (uuidv4 failing_env)
           sample_fs fs1 {| message := lit "invalid x-api-key" |}).
  - assert (snd (sample_build_of failing_env sample_fs)
            = Throw {| message := lit "invalid x-api-key" |}) as <-
      by (vm_compute; reflexivity).
    apply surjective_pairing.
  - intros H. apply (f_equal (hd [])) in H. vm_compute in H. discriminate H.
Defined.

Lemma thumbnail_failure_witness :
  let fs' := fst (sample_build_of no_thumbnail_env sample_fs) in
  fs' !! (outputDir sample_result ++ [lit "thumbnail.jpg"])
  = sample_fs !! (outputDir sample_result ++ [lit "thumbnail.jpg"]) /\
  thumbnailUrl sample_result
  = lit "/demos/prototype-" ++ dashed (build_time no_thumbnail_env)
    ++ lit "/thumbnail.jpg".
Proof.
  intros fs'.
  apply (thumbnail_failure_tolerated (rt := sample_runtime) no_thumbnail_env
           (UPLOADS_DIR ++ [file_filename sample_file])
           (custom_prompt (Some (lit "Make it dark mode")))
           (uuidv4 no_thumbnail_env) sample_fs fs' sample_result
           {| message := lit "unsupported image format" |}).
  - apply sample_build_returns. vm_compute. reflexivity.
  - reflexivity.
Defined.



(** *** The clean-up *)

Lemma clean_response_witness :
  let text := lit "<!DOCTYPE html><p>Hello</p>" in
  includes FENCE text = false /\
  clean_html text = ensure_doctype (trim text) /\
  (trim text = text -> startsWith DOCTYPE_PREFIX text = true ->
   clean_html text = text).
Proof.
  intros text. split; [reflexivity|].
  apply (clean_response_is_kept text). reflexivity.
Defined.

Lemma clean_html_idempotent_witness :
  clean_html (clean_html (fenced_html (lit "<p>Hello</p>")))
  = clean_html (fenced_html (lit "<p>Hello</p>")).
Proof.
  apply (clean_html_idempotent (fenced_html (lit "<p>Hello</p>"))).
  vm_compute. discriminate.
Defined.

Lemma small_doctype_witness :
  let text := lit "<!doctype html><p>Hello</p>" in
  clean_html text = lit "<!DOCTYPE html>" ++ [LF] ++ strip_fences text.
Proof.
  intros text. apply (small_doctype_is_doubled text). reflexivity.
Defined.

(** *** The costs and the duration *)

Lemma cost_breakdown_witness :
  let c := calculateCost (rt := sample_runtime)
             (of_Z (Z.of_N 1523)) (of_Z (Z.of_N 2847)) in
  c = {| inputCost := fixed_digits 6 (15 * 1523);
         outputCost := fixed_digits 6 (75 * 2847);
         totalCost := fixed_digits 6 (15 * 1523 + 75 * 2847) |} /\
  millionths (inputCost c) = Some (15 * 1523) /\
  millionths (outputCost c) = Some (75 * 2847) /\
  millionths (totalCost c) = Some (15 * 1523 + 75 * 2847).
Proof.
  apply (cost_breakdown_exact (rt := sample_runtime) 1523 2847); reflexivity.
Defined.

Lemma build_duration_witness :
  exists cs : N,
    duration sample_result
    = parseFloat (Runtime := sample_runtime) (fixed_digits 2 cs) /\
    10 * cs <= 12450 + 5 /\ 12450 <= 10 * cs + 5.
Proof.
  apply (build_duration (rt := sample_runtime) sample_env
           (UPLOADS_DIR ++ [file_filename sample_file])
           (custom_prompt (Some (lit "Make it dark mode"))) (uuidv4 sample_env)
           sample_fs (fst (sample_build_of sample_env sample_fs)) sample_result
           12450).
  - apply sample_build_returns. vm_compute. reflexivity.
  - reflexivity.
  - reflexivity.
Defined.
